(** * dean-bot: the back-testing engine of [backtest.py]

    A shallow embedding of [calculate_indicators] (its RSI post-processing
    filter), of the simulation loop of [run_backtest] and of the profit-factor
    metric, followed by the properties of the specification that concern them.

    Numbers.  The program computes on Python/NumPy floats.  The engine is
    embedded over an abstract number type [R] with the operations the source
    uses (class [Num]); everything that is a matter of control flow is proved
    for every such [R], whatever its rounding.  The numeric statements are
    proved on the instance of exact rationals [Q], where [round(x, 4)] is
    rounding half to even at the fourth decimal.  A NaN indicator is [None]. *)

From Stdlib Require Import String List Bool Arith ZArith QArith Qround Qabs Lia Lqa.
From Stdlib Require Import Sorted Permutation.
Import ListNotations.

Set Implicit Arguments.

(** ** Numbers *)

Class Num (R : Type) : Type := {
  lit    : Q -> R;            (* a numeric literal of the source *)
  add    : R -> R -> R;
  sub    : R -> R -> R;
  mul    : R -> R -> R;
  div    : R -> R -> R;
  absv   : R -> R;            (* abs(x) *)
  round4 : R -> R;            (* round(x, 4) *)
  ltb    : R -> R -> bool;    (* x < y *)
  leb    : R -> R -> bool;    (* x <= y *)
  eqb    : R -> R -> bool     (* x == y *)
}.

Declare Scope num_scope.
Delimit Scope num_scope with num.
Infix "+" := add : num_scope.
Infix "-" := sub : num_scope.
Infix "*" := mul : num_scope.
Infix "/" := div : num_scope.
Infix "<?" := ltb : num_scope.
Infix "<=?" := leb : num_scope.
Infix "=?" := eqb : num_scope.
Notation "x >? y" := (ltb y x) (only parsing) : num_scope.
Notation "x >=? y" := (leb y x) (only parsing) : num_scope.

(** [max(a, b)] of Python: the first argument unless the second is greater. *)
Definition py_max {R} `{Num R} (a b : R) : R := if (b >? a)%num then b else a.

(** [sum(xs)] of Python: the additions from the left, starting at 0. *)
Definition py_sum {R} `{Num R} (xs : list R) : R := fold_left add xs (lit 0).

(** ** Data *)

(** A row of the data frame after [calculate_indicators]: the candle and its
    six indicators, [None] where pandas has NaN. *)
Module Row.
Record t (R : Type) : Type := mk {
  timestamp  : Z;
  open       : R;
  high       : R;
  low        : R;
  close      : R;
  volume     : R;
  rsi        : option R;
  macd       : option R;
  signal     : option R;
  hist       : option R;
  atr        : option R;
  volume_sma : option R
}.
End Row.

(** The dict [position] of [run_backtest]. *)
Module Position.
Record t (R : Type) : Type := mk {
  entry_price      : R;
  size             : R;
  stop_loss        : R;
  take_profit      : R;
  entry_index      : nat;
  entry_time       : Z;
  macd_at_entry    : R;
  signal_at_entry  : R;
  hist_at_entry    : R;
  atr_at_entry     : R;
  position_candles : nat
}.
End Position.

Inductive exit_type : Type := StopLoss | TakeProfit | TimeExit.

Inductive win_loss : Type := Win | Loss.

(** The dict [trade_entry] appended to [trade_history]. *)
Module Trade.
Record t (R : Type) : Type := mk {
  timestamp       : Z;
  side            : string;
  entry_price     : R;
  exit_price      : R;
  size            : R;
  profit_loss     : R;
  win_loss        : win_loss;
  usdt_balance    : R;
  sol_balance     : R;
  exit_type       : exit_type;
  sl_distance     : R;
  tp_distance     : R;
  macd_at_entry   : R;
  signal_at_entry : R;
  hist_at_entry   : R;
  atr_at_entry    : R;
  candles_held    : Z
}.
End Trade.

(** A line of [partial_conditions.txt]: the timestamp and the four values the
    source formats into it. *)
Record partial_line (R : Type) : Type := mk_partial_line {
  pl_timestamp : Z;
  pl_rsi       : R;
  pl_macd      : R;
  pl_signal    : R;
  pl_hist      : R
}.

(** The local variables of [run_backtest], with the contents of the file
    [partial_conditions.txt]. *)
Record state (R : Type) : Type := mk_state {
  balance                   : R;
  positions                 : list (Position.t R);
  trade_history             : list (Trade.t R);
  usdt_balance              : R;
  sol_balance               : R;
  trades                    : nat;
  wins                      : nat;
  rsi_below_threshold_count : nat;
  partial_condition_count   : nat;
  partial_file              : list (partial_line R)
}.

(** The files a run writes: [partial_conditions.txt] and [trade_history.csv]
    (the rows of [trade_history], [None] while the file does not exist). *)
Record files (R : Type) : Type := mk_files {
  partial_conditions_txt : list (partial_line R);
  trade_history_csv      : option (list (Trade.t R))
}.

Inductive extended (R : Type) : Type :=
| Finite (x : R)
| Infinity.   (* float('inf') *)
Arguments Infinity {R}.

(** ** The engine *)

Section Engine.

Context {R : Type} `{Num R}.

Local Open Scope num_scope.

(** *** Parameters (the module-level constants) *)

Definition rsi_oversold : R := lit 12.
Definition min_hist_threshold : R := lit (-5).
Definition fee_percent : R := lit 0.075.
Definition slippage_factor : R := lit 0.999.
Definition atr_sl_multiplier : R := lit 0.25.
Definition atr_tp_multiplier : R := lit 5.
Definition risk_per_trade : R := lit 0.05.
Definition min_order_size : R := lit 0.0005.
Definition max_hold_candles : nat := 60.
Definition leverage : R := lit 2.
Definition initial_balance : R := lit 10.
Definition min_atr : R := lit 0.01.
Definition max_positions : nat := 3.

(** *** [calculate_indicators]: the RSI filter

    A data frame is the list of its rows, each with its index label.  The
    comparisons [df['rsi'] < 1.0] and [df['rsi'] >= 1.0] are both false on a
    NaN. *)

Definition frame : Type := list (nat * Row.t R).

Definition rsi_lt_1 (r : Row.t R) : bool :=
  match Row.rsi r with Some v => v <? lit 1 | None => false end.

Definition rsi_ge_1 (r : Row.t R) : bool :=
  match Row.rsi r with Some v => v >=? lit 1 | None => false end.

Definition invalid_rsi (df : frame) : frame :=
  filter (fun ir => rsi_lt_1 (snd ir)) df.

Definition filter_rsi (df : frame) : frame :=
  match invalid_rsi df with
  | [] => df
  | _ :: _ => filter (fun ir => rsi_ge_1 (snd ir)) df
  end.

(** [df.reset_index(drop=True)] *)
Definition reset_index (df : frame) : frame :=
  combine (seq 0 (length df)) (map snd df).

(** The end of [calculate_indicators], from "Filter invalid RSI" on. *)
Definition postprocess (df : frame) : frame := reset_index (filter_rsi df).

(** *** Entry: sizing and the ledger update

    Lines 214-215 of [backtest.py], a pasted note and a [DEBUG_MARKER]
    assignment at an indentation of their own, take no part in the
    computation and are left out. *)

Definition risk_amount (bal : R) : R := bal * risk_per_trade.

(** [size] before the floor and the rounding. *)
Definition raw_size (bal close : R) : R :=
  (risk_amount bal / atr_sl_multiplier) / close.

(** [size] after [max(size, min_order_size)] and [round(size, 4)]. *)
Definition entry_size (bal close : R) : R :=
  round4 (py_max (raw_size bal close) min_order_size).

(** [position_size_usdt] after its second assignment. *)
Definition position_size_usdt (bal close : R) : R := entry_size bal close * close.

Definition insufficient_balance (bal close : R) : bool :=
  position_size_usdt bal close >? bal.

Definition size_too_small (bal close : R) : bool :=
  entry_size bal close * close <? min_order_size * close.

Definition entry_rejected (bal close : R) : bool :=
  insufficient_balance bal close || size_too_small bal close.

Definition entry_price_at (close : R) : R :=
  (close * slippage_factor) * (lit 1 + fee_percent / lit 100).

Definition stop_loss_at (close atr : R) : R := close - atr * atr_sl_multiplier.

Definition take_profit_at (close atr : R) : R := close + atr * atr_tp_multiplier.

Definition new_position (i : nat) (r : Row.t R) (macd signal hist atr bal : R)
  : Position.t R :=
  Position.mk (entry_price_at (Row.close r))
              (entry_size bal (Row.close r))
              (stop_loss_at (Row.close r) atr)
              (take_profit_at (Row.close r) atr)
              i (Row.timestamp r) macd signal hist atr 0.

(** [positions.append(position)] and the three balance updates. *)
Definition open_position (i : nat) (r : Row.t R) (macd signal hist atr : R)
  (s : state R) : state R :=
  let bal := balance s - position_size_usdt (balance s) (Row.close r)
                         * (lit 1 + fee_percent / lit 100) in
  mk_state bal
           (positions s ++ [new_position i r macd signal hist atr (balance s)])
           (trade_history s)
           bal
           (sol_balance s + entry_size (balance s) (Row.close r))
           (trades s) (wins s)
           (rsi_below_threshold_count s) (partial_condition_count s)
           (partial_file s).

(** The partial-condition record, at most 1000 of them in a run. *)
Definition log_partial (r : Row.t R) (rsi macd signal hist : R) (s : state R)
  : state R :=
  if (partial_condition_count s <? 1000)%nat then
    mk_state (balance s) (positions s) (trade_history s) (usdt_balance s)
             (sol_balance s) (trades s) (wins s) (rsi_below_threshold_count s)
             (S (partial_condition_count s))
             (partial_file s
                ++ [mk_partial_line (Row.timestamp r) rsi macd signal hist])
  else s.

(** How the entry block leaves the loop body: by the [continue] of a rejected
    entry, or by falling through to the exit checks. *)
Inductive entry_result : Type :=
| Rejected (s : state R)
| Proceed (s : state R).

Definition entry_signal (r : Row.t R) (rsi hist volume_sma : R) : bool :=
  (rsi <? rsi_oversold) && (hist >? min_hist_threshold)
  && (Row.volume r >? volume_sma).

Definition check_entry (i : nat) (r : Row.t R)
  (rsi macd signal hist atr volume_sma : R) (s : state R) : entry_result :=
  if (length (positions s) <? max_positions)%nat then
    let s1 := if rsi <? rsi_oversold then log_partial r rsi macd signal hist s
              else s in
    if entry_signal r rsi hist volume_sma then
      if entry_rejected (balance s1) (Row.close r) then Rejected s1
      else Proceed (open_position i r macd signal hist atr s1)
    else Proceed s1
  else Proceed s.

(** *** Exit: the checks on one position and the ledger update *)

(** [pos['position_candles'] += 1] *)
Definition age (pos : Position.t R) : Position.t R :=
  Position.mk (Position.entry_price pos) (Position.size pos)
              (Position.stop_loss pos) (Position.take_profit pos)
              (Position.entry_index pos) (Position.entry_time pos)
              (Position.macd_at_entry pos) (Position.signal_at_entry pos)
              (Position.hist_at_entry pos) (Position.atr_at_entry pos)
              (S (Position.position_candles pos)).

Definition exit_price_from (trigger : R) : R :=
  (trigger * slippage_factor) * (lit 1 - fee_percent / lit 100).

(** The [if] / [elif] / [elif] on a position whose counter has already been
    incremented: the exit type and the exit price, [None] when [exit_price]
    stays [None]. *)
Definition check_exit (r : Row.t R) (pos : Position.t R)
  : option (exit_type * R) :=
  if Row.low r <=? Position.stop_loss pos then
    Some (StopLoss, exit_price_from (Position.stop_loss pos))
  else if Row.high r >=? Position.take_profit pos then
    Some (TakeProfit, exit_price_from (Position.take_profit pos))
  else if (max_hold_candles <=? Position.position_candles pos)%nat then
    Some (TimeExit, exit_price_from (Row.close r))
  else None.

Definition profit_loss_of (pos : Position.t R) (exit_price : R) : R :=
  ((exit_price - Position.entry_price pos) * Position.size pos) * leverage.

(** [trade_entry], given the balances after the close. *)
Definition trade_entry (i : nat) (r : Row.t R) (pos : Position.t R)
  (ty : exit_type) (exit_price usdt sol : R) : Trade.t R :=
  Trade.mk (Row.timestamp r) "sell"
           (Position.entry_price pos) exit_price (Position.size pos)
           (profit_loss_of pos exit_price)
           (if profit_loss_of pos exit_price >? lit 0 then Win else Loss)
           usdt sol ty
           (Position.entry_price pos - Position.stop_loss pos)
           (Position.take_profit pos - Position.entry_price pos)
           (Position.macd_at_entry pos) (Position.signal_at_entry pos)
           (Position.hist_at_entry pos) (Position.atr_at_entry pos)
           (Z.of_nat i - Z.of_nat (Position.entry_index pos))%Z.

(** The counters and balances of a close, and the new trade record. *)
Definition close_position (i : nat) (r : Row.t R) (pos : Position.t R)
  (ty : exit_type) (exit_price : R) (s : state R) : state R :=
  let bal := balance s
             + (Position.size pos * exit_price) * (lit 1 - fee_percent / lit 100) in
  let sol := sol_balance s - Position.size pos in
  mk_state bal (positions s)
           (trade_history s ++ [trade_entry i r pos ty exit_price bal sol])
           bal sol
           (S (trades s))
           (if profit_loss_of pos exit_price >? lit 0 then S (wins s) else wins s)
           (rsi_below_threshold_count s) (partial_condition_count s)
           (partial_file s).

(** [for pos in positions: ...]: the positions with their counters
    incremented, the ledger, and [positions_to_close]. *)
Fixpoint exit_loop (i : nat) (r : Row.t R) (ps : list (Position.t R))
  (s : state R) (to_close : list (Position.t R))
  : list (Position.t R) * state R * list (Position.t R) :=
  match ps with
  | [] => ([], s, to_close)
  | pos0 :: rest =>
      let pos := age pos0 in
      let '(s1, to_close1) :=
        match check_exit r pos with
        | Some (ty, px) => (close_position i r pos ty px s, to_close ++ [pos])
        | None => (s, to_close)
        end in
      let '(rest', s2, to_close2) := exit_loop i r rest s1 to_close1 in
      (pos :: rest', s2, to_close2)
  end.

(** [==] on two position dicts: the same keys, so value by value. *)
Definition position_eqb (p q : Position.t R) : bool :=
  (Position.entry_price p =? Position.entry_price q)
  && (Position.size p =? Position.size q)
  && (Position.stop_loss p =? Position.stop_loss q)
  && (Position.take_profit p =? Position.take_profit q)
  && (Position.entry_index p =? Position.entry_index q)%nat
  && (Position.entry_time p =? Position.entry_time q)%Z
  && (Position.macd_at_entry p =? Position.macd_at_entry q)
  && (Position.signal_at_entry p =? Position.signal_at_entry q)
  && (Position.hist_at_entry p =? Position.hist_at_entry q)
  && (Position.atr_at_entry p =? Position.atr_at_entry q)
  && (Position.position_candles p =? Position.position_candles q)%nat.

(** [positions.remove(pos)]: the first element equal to [pos] goes.  (Python
    raises ValueError when there is none; the positions to close are elements
    of the list.) *)
Fixpoint list_remove (pos : Position.t R) (ps : list (Position.t R))
  : list (Position.t R) :=
  match ps with
  | [] => []
  | p :: rest => if position_eqb p pos then rest else p :: list_remove pos rest
  end.

Definition remove_closed (to_close ps : list (Position.t R))
  : list (Position.t R) :=
  fold_left (fun acc pos => list_remove pos acc) to_close ps.

Definition sum_sizes (ps : list (Position.t R)) : R :=
  py_sum (map (@Position.size R) ps).

(** The loop body from "Check exit conditions for all open positions" to its
    end. *)
Definition check_exits (i : nat) (r : Row.t R) (s : state R) : state R :=
  let '(aged, s1, to_close) := exit_loop i r (positions s) s [] in
  let remaining := remove_closed to_close aged in
  mk_state (balance s1) remaining (trade_history s1) (usdt_balance s1)
           (match remaining with [] => lit 0 | _ :: _ => sum_sizes remaining end)
           (trades s1) (wins s1)
           (rsi_below_threshold_count s1) (partial_condition_count s1)
           (partial_file s1).

(** *** The loop *)

Definition indicators (r : Row.t R) : option (R * R * R * R * R * R) :=
  match Row.rsi r, Row.macd r, Row.signal r, Row.hist r, Row.atr r,
        Row.volume_sma r with
  | Some rsi, Some macd, Some signal, Some hist, Some atr, Some volume_sma =>
      Some (rsi, macd, signal, hist, atr, volume_sma)
  | _, _, _, _, _, _ => None
  end.

Definition count_rsi_below (rsi : R) (s : state R) : state R :=
  if rsi <? rsi_oversold then
    mk_state (balance s) (positions s) (trade_history s) (usdt_balance s)
             (sol_balance s) (trades s) (wins s)
             (S (rsi_below_threshold_count s)) (partial_condition_count s)
             (partial_file s)
  else s.

(** One iteration of [for i in range(1, len(df))], on row [df.iloc[i]]. *)
Definition step (i : nat) (r : Row.t R) (s : state R) : state R :=
  match indicators r with
  | None => s                                   (* NaN indicators: continue *)
  | Some (rsi, macd, signal, hist, atr, volume_sma) =>
      if atr <? min_atr then s                  (* low ATR: continue *)
      else
        match check_entry i r rsi macd signal hist atr volume_sma
                          (count_rsi_below rsi s) with
        | Rejected s1 => s1                     (* rejected entry: continue *)
        | Proceed s1 => check_exits i r s1
        end
  end.

Fixpoint loop (i : nat) (rows : list (Row.t R)) (s : state R) : state R :=
  match rows with
  | [] => s
  | r :: rest => loop (S i) rest (step i r s)
  end.

Definition init_state : state R :=
  mk_state initial_balance [] [] initial_balance (lit 0) 0 0 0 0 [].

(** The ledger after the first [k] iterations of the loop on [df]. *)
Definition state_after (k : nat) (df : list (Row.t R)) : state R :=
  loop 1 (firstn k (tl df)) init_state.

(** [run_backtest], on the files left by whatever ran before: the returned
    pair and the files afterwards.  [partial_conditions.txt] is truncated at
    the start; [trade_history.csv] is written only when there is a trade. *)
Definition run_backtest (fs : files R) (df : list (Row.t R))
  : (R * list (Trade.t R)) * files R :=
  let s := loop 1 (tl df) init_state in
  ((balance s, trade_history s),
   mk_files (partial_file s)
            (match trade_history s with
             | [] => trade_history_csv fs
             | _ :: _ => Some (trade_history s)
             end)).

(** *** Metrics: the profit factor *)

Definition gross_profit (th : list (Trade.t R)) : R :=
  py_sum (filter (fun p => p >? lit 0) (map (@Trade.profit_loss R) th)).

Definition gross_loss (th : list (Trade.t R)) : R :=
  absv (py_sum (filter (fun p => p <? lit 0) (map (@Trade.profit_loss R) th))).

Definition profit_factor (th : list (Trade.t R)) : extended R :=
  if negb (gross_loss th =? lit 0) then Finite (gross_profit th / gross_loss th)
  else Infinity.

End Engine.

(** Each close of an iteration, as the position closed and the trade record
    appended for it: [positions_to_close] beside the new entries of
    [trade_history].  [s] is the ledger at the start of the exit checks. *)
Definition closed_in_step {R} `{Num R} (i : nat) (r : Row.t R) (s : state R)
  : list (Position.t R * Trade.t R) :=
  let '(_, s1, to_close) := exit_loop i r (positions s) s [] in
  combine to_close (skipn (length (trade_history s)) (trade_history s1)).

(** The ledger with which an entry block ends. *)
Definition entry_state {R} `{Num R} (e : entry_result) : state R :=
  match e with Rejected s => s | Proceed s => s end.

(** ** Exact rationals *)

Local Open Scope Q_scope.

Definition Qltb (x y : Q) : bool :=
  match x ?= y with Lt => true | _ => false end.

(** The integer nearest to [q], the even one of the two at a tie. *)
Definition round_half_even (q : Q) : Z :=
  let f := Qfloor q in
  match ((q - inject_Z f) ?= (1 # 2))%Q with
  | Lt => f
  | Gt => (f + 1)%Z
  | Eq => if Z.even f then f else (f + 1)%Z
  end.

Definition Qround4 (q : Q) : Q := inject_Z (round_half_even (q * 10000)) / 10000.

#[export] Instance Q_Num : Num Q := {
  lit := fun q => q;
  add := Qplus;
  sub := Qminus;
  mul := Qmult;
  div := Qdiv;
  absv := Qabs;
  round4 := Qround4;
  ltb := Qltb;
  leb := Qle_bool;
  eqb := Qeq_bool
}.

(** ** Sample rows *)

Definition candle (ts : Z) (o h l c v : Q) (rsi hist atr vsma : option Q)
  : Row.t Q :=
  Row.mk ts o h l c v rsi (Some 0) (Some 0) hist atr vsma.

(** An oversold candle at 100 that stays inside the stop and the target. *)
Definition quiet_signal : Row.t Q :=
  candle 300 100 100.1 99.9 100 2 (Some 10) (Some 0) (Some 1) (Some 1).

(** An oversold candle at 100 whose low is under the stop of an entry on it. *)
Definition dip_signal : Row.t Q :=
  candle 300 100 100.1 99 100 2 (Some 10) (Some 0) (Some 1) (Some 1).

(** An oversold candle at 20000: the minimum order costs 10, more than the
    cash left after one entry; its low is far below any stop set near 100. *)
Definition costly_signal : Row.t Q :=
  candle 600 100 20000 50 20000 2 (Some 10) (Some 0) (Some 1) (Some 1).

(** A candle without an entry signal (RSI 50) whose low is under 99.75. *)
Definition plain_drop : Row.t Q :=
  candle 600 100 100 50 60 2 (Some 50) (Some 0) (Some 1) (Some 1).

(** A candle in warm-up: no RSI yet. *)
Definition warmup : Row.t Q :=
  candle 0 100 100 100 100 2 None (Some 0) None None.

(** ** Vocabulary of the statements *)

Section Vocabulary.

Context {R : Type} `{Num R}.

(** A candle is eligible when its six indicators are defined and its ATR is
    not under [min_atr]: the two [continue] guards at the head of the loop
    body let it through. *)
Definition eligible (r : Row.t R) : bool :=
  match indicators r with
  | Some (_, _, _, _, atr, _) => negb (ltb atr min_atr)
  | None => false
  end.

(** Some exit condition of the position holds on the candle. *)
Definition closing (r : Row.t R) (pos : Position.t R) : bool :=
  match check_exit r pos with Some _ => true | None => false end.

(** [t] is the record of the close of [pos] at index [i], on candle [r]. *)
Definition closes (i : nat) (r : Row.t R) (pos : Position.t R) (t : Trade.t R)
  : Prop :=
  exists ty px usdt sol,
    check_exit r pos = Some (ty, px) /\ t = trade_entry i r pos ty px usdt sol.

(** The exit type by the stated priority: stop-loss before take-profit before
    time exit. *)
Definition exit_by_priority (stop_hit take_hit time_up : bool)
  : option exit_type :=
  if stop_hit then Some StopLoss
  else if take_hit then Some TakeProfit
  else if time_up then Some TimeExit
  else None.

(** Another clock: the same rows, positions, trades and log lines with their
    timestamps mapped by [f]. *)
Definition retime_row (f : Z -> Z) (r : Row.t R) : Row.t R :=
  Row.mk (f (Row.timestamp r)) (Row.open r) (Row.high r) (Row.low r)
         (Row.close r) (Row.volume r) (Row.rsi r) (Row.macd r) (Row.signal r)
         (Row.hist r) (Row.atr r) (Row.volume_sma r).

Definition retime_position (f : Z -> Z) (p : Position.t R) : Position.t R :=
  Position.mk (Position.entry_price p) (Position.size p) (Position.stop_loss p)
              (Position.take_profit p) (Position.entry_index p)
              (f (Position.entry_time p)) (Position.macd_at_entry p)
              (Position.signal_at_entry p) (Position.hist_at_entry p)
              (Position.atr_at_entry p) (Position.position_candles p).

Definition retime_trade (f : Z -> Z) (t : Trade.t R) : Trade.t R :=
  Trade.mk (f (Trade.timestamp t)) (Trade.side t) (Trade.entry_price t)
           (Trade.exit_price t) (Trade.size t) (Trade.profit_loss t)
           (Trade.win_loss t) (Trade.usdt_balance t) (Trade.sol_balance t)
           (Trade.exit_type t) (Trade.sl_distance t) (Trade.tp_distance t)
           (Trade.macd_at_entry t) (Trade.signal_at_entry t)
           (Trade.hist_at_entry t) (Trade.atr_at_entry t)
           (Trade.candles_held t).

Definition retime_line (f : Z -> Z) (l : partial_line R) : partial_line R :=
  mk_partial_line (f (pl_timestamp l)) (pl_rsi l) (pl_macd l) (pl_signal l)
                  (pl_hist l).

Definition retime_state (f : Z -> Z) (s : state R) : state R :=
  mk_state (balance s) (map (retime_position f) (positions s))
           (map (retime_trade f) (trade_history s)) (usdt_balance s)
           (sol_balance s) (trades s) (wins s) (rsi_below_threshold_count s)
           (partial_condition_count s) (map (retime_line f) (partial_file s)).

Definition is_rejected (e : @entry_result R) : bool :=
  match e with Rejected _ => true | Proceed _ => false end.

Definition retime_entry_result (f : Z -> Z) (e : @entry_result R) : @entry_result R :=
  match e with
  | Rejected s => Rejected (retime_state f s)
  | Proceed s => Proceed (retime_state f s)
  end.

End Vocabulary.

(** ** The profit factor in the words of the specification *)

(** Gross profit: the sum of the strictly positive trade profits. *)
Definition spec_gross_profit (th : list (Trade.t Q)) : Q :=
  fold_right (fun t acc => if Qltb 0 (Trade.profit_loss t)
                           then Trade.profit_loss t + acc else acc) 0 th.

(** Gross loss: the sum of the strictly negative trade profits. *)
Definition spec_gross_loss (th : list (Trade.t Q)) : Q :=
  fold_right (fun t acc => if Qltb (Trade.profit_loss t) 0
                           then Trade.profit_loss t + acc else acc) 0 th.

Definition losing_trade (t : Trade.t Q) : Prop := Trade.profit_loss t < 0.

(** ** Sample frames and ledgers *)

(** An oversold candle at 100 whose range holds both the stop and the target
    of an entry on it. *)
Definition wide_signal : Row.t Q :=
  candle 300 100 106 99 100 2 (Some 10) (Some 0) (Some 1) (Some 1).

(** A candle whose ATR is under [min_atr]. *)
Definition flat (ts : Z) : Row.t Q :=
  candle ts 100 100 100 100 2 (Some 50) (Some 0) (Some 0.001) (Some 1).

(** The ledger between the entry block and the exit checks of iteration 1 on
    a sample candle, from the initial ledger. *)
Definition entered_on (r : Row.t Q) : state Q :=
  entry_state (check_entry 1 r 10 0 0 0 1 1 (count_rsi_below 10 init_state)).

(** One entry, then an entry signal that cannot be afforded while the low of
    the candle is under the stop of the open position. *)
Definition held_frame : list (Row.t Q) := [warmup; quiet_signal; costly_signal].

(** The same with no entry signal on the second candle. *)
Definition sold_frame : list (Row.t Q) := [warmup; quiet_signal; plain_drop].

(** An entry, two candles skipped for their low ATR, then the stop. *)
Definition skipping_frame : list (Row.t Q) :=
  [warmup; quiet_signal; flat 600; flat 900; retime_row (fun _ => 1200%Z) plain_drop].

(** Four entry signals in a row. *)
Definition signals_frame : list (Row.t Q) :=
  [warmup; quiet_signal; retime_row (fun _ => 600%Z) quiet_signal;
   retime_row (fun _ => 900%Z) quiet_signal;
   retime_row (fun _ => 1200%Z) quiet_signal].

(** A wall-clock gap of an hour from 600 on. *)
Definition gap (ts : Z) : Z := if (ts <? 600)%Z then ts else (ts + 3600)%Z.

(** Three trades: a win of 3, a loss of 2, a trade at 0. *)
Definition trade_with (pl : Q) : Trade.t Q :=
  Trade.mk 0 "sell" 0 0 0 pl (if Qltb 0 pl then Win else Loss) 0 0 TimeExit
           0 0 0 0 0 0 0.

Definition mixed_log : list (Trade.t Q) :=
  [trade_with 3; trade_with (-2); trade_with 0].

Definition winning_log : list (Trade.t Q) := [trade_with 3; trade_with 0].

(** The first close of iteration 1 on a sample candle, entered on that same
    candle: the position and its trade record. *)
Definition sample_close (r : Row.t Q) : Position.t Q * Trade.t Q :=
  nth 0 (closed_in_step 1 r (entered_on r))
      (new_position 0 r 0 0 0 0 0, trade_with 0).

(** No files yet. *)
Definition no_files : files Q := mk_files [] None.

(** Frames with their index labels: thirteen rows in warm-up, then an RSI of
    0 (fourteen falling closes) and an RSI of 50; and the same with an RSI of
    40 for the 0. *)
Definition with_rsi (ts : Z) (rsi : Q) : Row.t Q :=
  candle ts 100 100 100 100 2 (Some rsi) (Some 0) (Some 1) None.

Definition labelled (rows : list (Row.t Q)) : list (nat * Row.t Q) :=
  combine (seq 0 (length rows)) rows.

Definition fallen_frame : list (nat * Row.t Q) :=
  labelled (repeat warmup 13 ++ [with_rsi 3900 0; with_rsi 4200 50]).

Definition steady_frame : list (nat * Row.t Q) :=
  labelled (repeat warmup 13 ++ [with_rsi 3900 40; with_rsi 4200 50]).

(** ** Further code of [run_backtest]: the logged rates *)

(** The figures [analyze_trades] of [analysetradehistory.py] prints first. *)
Module Summary.
Record t (R : Type) : Type := mk {
  total_trades : nat;
  wins         : nat;
  losses       : nat;
  win_rate     : R
}.
End Summary.

Section Metrics.

Context {R : Type} `{Num R}.

Local Open Scope num_scope.

(** An [int] of Python where a float is computed. *)
Definition of_nat (n : nat) : R := lit (inject_Z (Z.of_nat n)).

(** [(wins / trades * 100) if trades > 0 else 0.0] *)
Definition win_rate_of (wins trades : nat) : R :=
  if (0 <? trades)%nat then (of_nat wins / of_nat trades) * lit 100
  else lit 0.

(** [win_rate] of [run_backtest], from the counters of the ledger. *)
Definition win_rate (s : state R) : R := win_rate_of (wins s) (trades s).

(** The ledger [run_backtest] computes its metrics from. *)
Definition final_state (df : list (Row.t R)) : state R :=
  loop 1 (tl df) init_state.

Definition is_win (t : Trade.t R) : bool :=
  match Trade.win_loss t with Win => true | Loss => false end.

(** [analyze_trades] on what [load_trade_history] returns ([None] when
    [trade_history.csv] does not exist): the trade summary, [None] after
    "No trade data to analyze". *)
Definition analyze_trades (trade_df : option (list (Trade.t R)))
  : option (Summary.t R) :=
  match trade_df with
  | None => None
  | Some [] => None
  | Some th =>
      let total_trades := length th in
      let wins := length (filter is_win th) in
      Some (Summary.mk total_trades wins (total_trades - wins)
                       (win_rate_of wins total_trades))
  end.

End Metrics.

(** ** Invariants of the ledger, as predicates *)

Section LedgerPredicates.

Context {R : Type} `{Num R}.

Local Open Scope nat_scope.

(** The bookkeeping that does not look at the positions: the counters of
    trades and wins against the log, the two cash balances, the counter of
    partial-condition lines against the file and against the RSI counter. *)
Definition books_agree (s : state R) : Prop :=
  trades s = length (trade_history s)
  /\ wins s = length (filter is_win (trade_history s))
  /\ usdt_balance s = balance s
  /\ partial_condition_count s = length (partial_file s)
  /\ partial_condition_count s <= 1000
  /\ partial_condition_count s <= rsi_below_threshold_count s.

End LedgerPredicates.

(** ** Invariants of the open positions, as predicates *)

Section PositionPredicates.

Context {R : Type} `{Num R}.

Local Open Scope nat_scope.

(** A position open after [k] iterations on [df]: it was entered on one of
    the rows 1..k, at the time of that row, and its counter has been
    incremented at least once and at most once per iteration since. *)
Definition entered_within (df : list (Row.t R)) (k : nat) (p : Position.t R)
  : Prop :=
  1 <= Position.entry_index p <= k
  /\ 1 <= Position.position_candles p <= S k - Position.entry_index p
  /\ exists r : Row.t R,
       nth_error df (Position.entry_index p) = Some r
       /\ Position.entry_time p = Row.timestamp r.

(** The positions are in the order of their entries, no two on one row. *)
Definition oldest_first (ps : list (Position.t R)) : Prop :=
  StronglySorted lt (map (@Position.entry_index R) ps).

End PositionPredicates.

(** ** The terms of a position, as predicates *)

Section TermPredicates.

Context {R : Type} `{Num R}.

(** The position as it was appended: its counter back at 0. *)
Definition at_entry (p : Position.t R) : Position.t R :=
  Position.mk (Position.entry_price p) (Position.size p)
              (Position.stop_loss p) (Position.take_profit p)
              (Position.entry_index p) (Position.entry_time p)
              (Position.macd_at_entry p) (Position.signal_at_entry p)
              (Position.hist_at_entry p) (Position.atr_at_entry p) 0.

(** The position is the one the entry block makes on the row of the frame at
    its [entry_index]: that row is eligible, carries an entry signal, and the
    entry was accepted at some cash balance [bal]. *)
Definition made_on (df : list (Row.t R)) (p : Position.t R) : Prop :=
  exists (r : Row.t R) (rsi macd signal hist atr volume_sma bal : R),
    nth_error df (Position.entry_index p) = Some r
    /\ indicators r = Some (rsi, macd, signal, hist, atr, volume_sma)
    /\ ltb atr min_atr = false
    /\ entry_signal r rsi hist volume_sma = true
    /\ entry_rejected bal (Row.close r) = false
    /\ at_entry p
       = new_position (Position.entry_index p) r macd signal hist atr bal.

End TermPredicates.

(** ** More sample frames *)

(** An oversold candle at 100 with an ATR of 0.01, the floor: the target
    100.05 is inside the candle, the stop 99.9975 is not. *)
Definition tight_signal : Row.t Q :=
  candle 300 100 100.1 100 100 2 (Some 10) (Some 0) (Some 0.01) (Some 1).

Definition tight_frame : list (Row.t Q) := [warmup; tight_signal].

(** An oversold candle at 19990: the minimum order costs 9.995 of the 10 in
    cash, before the fee. *)
Definition dear_signal : Row.t Q :=
  candle 300 19990 19995 19985 19990 2 (Some 10) (Some 0) (Some 1) (Some 1).

Definition dear_frame : list (Row.t Q) := [warmup; dear_signal].

(** ** Cash flows, for the accounting identity *)

(** The cash an entry takes, required capital and fee, from the size and the
    entry price the position records: the close is the entry price without
    its slippage and fee factors. *)
Definition cash_paid (size entry_price : Q) : Q :=
  size * (entry_price / (slippage_factor * (1 + fee_percent / 100)))
  * (1 + fee_percent / 100).

(** The cash a close returns. *)
Definition cash_received (size exit_price : Q) : Q :=
  (size * exit_price) * (1 - fee_percent / 100).

(** The cash tied up in the open positions. *)
Definition open_cost (ps : list (Position.t Q)) : Q :=
  fold_right (fun p acc =>
                cash_paid (Position.size p) (Position.entry_price p) + acc)
             0 ps.

(** The net cash of the closed trades. *)
Definition net_cash (th : list (Trade.t Q)) : Q :=
  fold_right (fun t acc =>
                cash_received (Trade.size t) (Trade.exit_price t)
                - cash_paid (Trade.size t) (Trade.entry_price t) + acc)
             0 th.

(** ** [load_data] and [calculate_indicators]

    The frame [load_data] reads is a list of rows whose cells may be NaN;
    [main] drops the rows with a NaN cell before [calculate_indicators], whose
    frame is a list of candles; the series of pandas are lists aligned by
    position.  [rolling(window=w).mean()] is the sum of the
    last [w] values over [w] and [ewm(span=n, adjust=False).mean()] the
    recursion [y = (1 - alpha) * y' + alpha * x]; pandas computes both
    incrementally, which on floats differs from these in rounding only. *)

Module Candle.
Record t (R : Type) : Type := mk {
  timestamp : Z;
  open      : R;
  high      : R;
  low       : R;
  close     : R;
  volume    : R
}.
End Candle.

(** A row as [pd.read_csv] gives it to [load_data]: a blank cell is NaN,
    [None] here. *)
Module RawCandle.
Record t (R : Type) : Type := mk {
  timestamp : Z;
  open      : option R;
  high      : option R;
  low       : option R;
  close     : option R;
  volume    : option R
}.
End RawCandle.

(** Why [load_data] ends the process. *)
Inductive load_error : Type :=
| NonPositive (column : string)   (* "Negative or zero ... values" *)
| NegativeVolume                  (* "Negative volume values" *)
| RelationViolation.              (* "High/Low/Close relationship violation" *)

Section Indicators.

Context {R : Type} `{Num R}.

Local Open Scope num_scope.

(** A comparison of pandas on a cell, and on two cells of a row: false when
    a cell is NaN. *)
Definition cell_test (f : R -> bool) (x : option R) : bool :=
  match x with Some a => f a | None => false end.

Definition cells_lt (x y : option R) : bool :=
  match x, y with Some a, Some b => a <? b | _, _ => false end.

(** The validation of [load_data], in its order: [None] when the frame is
    returned. *)
Definition load_data_checks (df : list (RawCandle.t R)) : option load_error :=
  if existsb (fun c => cell_test (fun a => a <=? lit 0) (RawCandle.open c)) df
  then Some (NonPositive "open")
  else if existsb (fun c => cell_test (fun a => a <=? lit 0)
                                      (RawCandle.high c)) df
  then Some (NonPositive "high")
  else if existsb (fun c => cell_test (fun a => a <=? lit 0)
                                      (RawCandle.low c)) df
  then Some (NonPositive "low")
  else if existsb (fun c => cell_test (fun a => a <=? lit 0)
                                      (RawCandle.close c)) df
  then Some (NonPositive "close")
  else if existsb (fun c => cell_test (fun a => a <? lit 0)
                                      (RawCandle.volume c)) df
  then Some NegativeVolume
  else if existsb (fun c => cells_lt (RawCandle.high c) (RawCandle.low c)) df
          || existsb (fun c => cells_lt (RawCandle.high c) (RawCandle.close c))
                     df
          || existsb (fun c => cells_lt (RawCandle.close c) (RawCandle.low c))
                     df
  then Some RelationViolation
  else None.

(** A row without a NaN among its prices and volume. *)
Definition complete (c : RawCandle.t R) : option (Candle.t R) :=
  match RawCandle.open c, RawCandle.high c, RawCandle.low c,
        RawCandle.close c, RawCandle.volume c with
  | Some o, Some h, Some l, Some cl, Some v =>
      Some (Candle.mk (RawCandle.timestamp c) o h l cl v)
  | _, _, _, _, _ => None
  end.

(** [df.dropna(subset=['open', 'high', 'low', 'close', 'volume'])] of [main],
    on a frame with its index labels. *)
Definition dropna (df : list (nat * RawCandle.t R))
  : list (nat * Candle.t R) :=
  flat_map (fun ic => match complete (snd ic) with
                      | Some c => [(fst ic, c)]
                      | None => []
                      end) df.

(** [s.shift()]: each value one row later, NaN on the first row. *)
Definition shift (xs : list R) : list (option R) :=
  match xs with
  | [] => []
  | _ :: _ => None :: map Some (removelast xs)
  end.

(** [s.diff()]: NaN on the first row. *)
Definition diff (xs : list R) : list (option R) :=
  map (fun cp => match snd cp with
                 | Some prev => Some (fst cp - prev)
                 | None => None
                 end)
      (combine xs (shift xs)).

(** [delta.where(delta > 0, 0)]: the comparison is false on NaN. *)
Definition where_positive (d : option R) : R :=
  match d with
  | Some v => if v >? lit 0 then v else lit 0
  | None => lit 0
  end.

(** [delta.where(delta < 0, 0)] *)
Definition where_negative (d : option R) : R :=
  match d with
  | Some v => if v <? lit 0 then v else lit 0
  | None => lit 0
  end.

(** The last [w] values up to row [i]. *)
Definition window (w i : nat) (xs : list R) : list R :=
  firstn w (skipn (S i - w) xs).

(** [s.rolling(window=w).mean()] on a series without NaN: NaN until [w]
    values are there. *)
Definition rolling_mean (w : nat) (xs : list R) : list (option R) :=
  map (fun i => if (w <=? S i)%nat
                then Some (py_sum (window w i xs) / of_nat w)
                else None)
      (seq 0 (length xs)).

(** [100 - (100 / (1 + rs))] with [rs = gain / (loss + 1e-10)] and [loss]
    the negated mean of the negative differences. *)
Definition rsi_of (gain mean_neg : option R) : option R :=
  match gain, mean_neg with
  | Some g, Some m =>
      Some (lit 100 - lit 100 / (lit 1 + g / ((lit 0 - m) + lit 1e-10)))
  | _, _ => None
  end.

Definition rsi_series (closes : list R) : list (option R) :=
  map (fun gm => rsi_of (fst gm) (snd gm))
      (combine (rolling_mean 14 (map where_positive (diff closes)))
               (rolling_mean 14 (map where_negative (diff closes)))).

(** [s.ewm(span=n, adjust=False).mean()] *)
Definition alpha (span : nat) : R := lit 2 / (of_nat span + lit 1).

Fixpoint ewm_from (a y : R) (xs : list R) : list R :=
  match xs with
  | [] => []
  | x :: rest => let y' := (lit 1 - a) * y + a * x in y' :: ewm_from a y' rest
  end.

Definition ewm_mean (span : nat) (xs : list R) : list R :=
  match xs with
  | [] => []
  | x :: rest => x :: ewm_from (alpha span) x rest
  end.

Definition series_sub (xs ys : list R) : list R :=
  map (fun xy => fst xy - snd xy) (combine xs ys).

Definition macd_series (closes : list R) : list R :=
  series_sub (ewm_mean 12 closes) (ewm_mean 26 closes).

Definition signal_series (closes : list R) : list R :=
  ewm_mean 9 (macd_series closes).

Definition hist_series (closes : list R) : list R :=
  series_sub (macd_series closes) (signal_series closes).

(** The greater of two numbers, for the row maximum. *)
Definition num_max (a b : R) : R := if a <? b then b else a.

(** [df['tr']]: the maximum of the three ranges, NaN skipped, so the high-low
    range alone on the first row. *)
Definition true_range (c : Candle.t R) (prev_close : option R) : R :=
  match prev_close with
  | None => Candle.high c - Candle.low c
  | Some pc =>
      num_max (num_max (Candle.high c - Candle.low c)
                       (absv (Candle.high c - pc)))
              (absv (Candle.low c - pc))
  end.

Definition tr_series (cs : list (Candle.t R)) : list R :=
  map (fun cp => true_range (fst cp) (snd cp))
      (combine cs (shift (map (@Candle.close R) cs))).

Definition atr_series (cs : list (Candle.t R)) : list (option R) :=
  rolling_mean 14 (tr_series cs).

Definition volume_sma_series (cs : list (Candle.t R)) : list (option R) :=
  rolling_mean 20 (map (@Candle.volume R) cs).

(** The frame with its six indicator columns, before the RSI filter. *)
Definition indicator_rows (cs : list (Candle.t R)) : list (Row.t R) :=
  let closes := map (@Candle.close R) cs in
  map (fun ic =>
         let i := fst ic in
         let c := snd ic in
         Row.mk (Candle.timestamp c) (Candle.open c) (Candle.high c)
                (Candle.low c) (Candle.close c) (Candle.volume c)
                (nth i (rsi_series closes) None)
                (nth_error (macd_series closes) i)
                (nth_error (signal_series closes) i)
                (nth_error (hist_series closes) i)
                (nth i (atr_series cs) None)
                (nth i (volume_sma_series cs) None))
      (combine (seq 0 (length cs)) cs).

(** [calculate_indicators], on a frame with its index labels. *)
Definition calculate_indicators (df : list (nat * Candle.t R))
  : list (nat * Row.t R) :=
  postprocess (combine (map fst df) (indicator_rows (map snd df))).

(** [run_backtest(calculate_indicators(df))], as [main] chains them. *)
Definition backtest_candles (fs : files R) (df : list (nat * Candle.t R))
  : (R * list (Trade.t R)) * files R :=
  run_backtest fs (map snd (calculate_indicators df)).

End Indicators.

(** A validated candle, row by row. *)
Definition valid_candle (c : Candle.t Q) : Prop :=
  0 < Candle.open c /\ 0 < Candle.high c /\ 0 < Candle.low c
  /\ 0 < Candle.close c /\ 0 <= Candle.volume c
  /\ Candle.low c <= Candle.high c
  /\ Candle.low c <= Candle.close c <= Candle.high c.

(** What [load_data] asks of a row that may have NaN cells: each condition
    on the cells that are there. *)
Definition cell_holds (P : Q -> Prop) (x : option Q) : Prop :=
  match x with Some a => P a | None => True end.

Definition cells_le (x y : option Q) : Prop :=
  match x, y with Some a, Some b => a <= b | _, _ => True end.

Definition valid_cells (c : RawCandle.t Q) : Prop :=
  cell_holds (fun a => 0 < a) (RawCandle.open c)
  /\ cell_holds (fun a => 0 < a) (RawCandle.high c)
  /\ cell_holds (fun a => 0 < a) (RawCandle.low c)
  /\ cell_holds (fun a => 0 < a) (RawCandle.close c)
  /\ cell_holds (fun a => 0 <= a) (RawCandle.volume c)
  /\ cells_le (RawCandle.low c) (RawCandle.high c)
  /\ cells_le (RawCandle.close c) (RawCandle.high c)
  /\ cells_le (RawCandle.low c) (RawCandle.close c).

(** A frame as read from a file without blank cells. *)
Definition read_complete (df : list (nat * Candle.t Q))
  : list (nat * RawCandle.t Q) :=
  map (fun ic => (fst ic,
                  RawCandle.mk (Candle.timestamp (snd ic))
                               (Some (Candle.open (snd ic)))
                               (Some (Candle.high (snd ic)))
                               (Some (Candle.low (snd ic)))
                               (Some (Candle.close (snd ic)))
                               (Some (Candle.volume (snd ic))))) df.

(** Candles at the closes given, five minutes apart, with a range of one
    around the close and a volume of 2. *)
Definition candles_at (closes : list Q) : list (nat * Candle.t Q) :=
  map (fun ic => (fst ic,
                  Candle.mk (300 * Z.of_nat (fst ic)) (snd ic) (snd ic + 1)
                            (snd ic - 1) (snd ic) 2))
      (combine (seq 0 (length closes)) closes).

(** Twenty closes falling from 120 by one a candle, and twenty rising from
    100. *)
Definition falling_closes : list Q :=
  map (fun n => 120 - inject_Z (Z.of_nat n)) (seq 0 20).

Definition rising_closes : list Q :=
  map (fun n => 100 + inject_Z (Z.of_nat n)) (seq 0 20).

(** Twenty candles read without a blank cell, then a row without its open
    and a row without its close. *)
Definition blank_sample : list (nat * RawCandle.t Q) :=
  read_complete (candles_at rising_closes)
  ++ [(20%nat, RawCandle.mk 6000 None (Some 121) (Some 119) (Some 120)
                            (Some 2));
      (21%nat, RawCandle.mk 6300 (Some 121) (Some 122) (Some 120) None
                            (Some 2))].

(** Closes that never rise from one candle to the next. *)
Fixpoint non_rising (xs : list Q) : Prop :=
  match xs with
  | a :: rest => match rest with
                 | b :: _ => b <= a /\ non_rising rest
                 | [] => True
                 end
  | [] => True
  end.

(** ** [fetch_data-grok-v0.1.py]: the validation of the fetched candles

    The rows are the candles as fetched, in the order of [all_ohlcv], their
    timestamps in milliseconds. *)

Section FetchedData.

Context {R : Type}.

(** [df.drop_duplicates(subset=['timestamp'], keep='last')]: a row goes when
    a later row has its timestamp. *)
Fixpoint drop_duplicates_last (rows : list (Candle.t R)) : list (Candle.t R) :=
  match rows with
  | [] => []
  | c :: rest =>
      if existsb (fun c' => (Candle.timestamp c' =? Candle.timestamp c)%Z) rest
      then drop_duplicates_last rest
      else c :: drop_duplicates_last rest
  end.

(** [df.sort_values('timestamp')], by insertion.  The timestamps are distinct
    here, so every sorting algorithm returns the same frame. *)
Fixpoint insert_by_timestamp (c : Candle.t R) (sorted : list (Candle.t R))
  : list (Candle.t R) :=
  match sorted with
  | [] => [c]
  | d :: rest =>
      if (Candle.timestamp c <=? Candle.timestamp d)%Z then c :: d :: rest
      else d :: insert_by_timestamp c rest
  end.

Definition sort_values (rows : list (Candle.t R)) : list (Candle.t R) :=
  fold_right insert_by_timestamp [] rows.

(** The frame the script saves: [None] after "No data fetched.". *)
Definition validate_fetched (all_ohlcv : list (Candle.t R))
  : option (list (Candle.t R)) :=
  match all_ohlcv with
  | [] => None
  | _ :: _ => Some (sort_values (drop_duplicates_last all_ohlcv))
  end.

(** Strictly earlier, by timestamp. *)
Definition earlier (c d : Candle.t R) : Prop :=
  (Candle.timestamp c < Candle.timestamp d)%Z.

End FetchedData.

(** Fetched chunks that overlap: the candle at 600000 comes twice, the second
    time with its final close. *)
Definition fetched_sample : list (Candle.t Q) :=
  [Candle.mk 300000 100 101 99 100 2; Candle.mk 600000 100 101 99 100.5 1;
   Candle.mk 600000 100 102 99 101 3; Candle.mk 0 99 100 98 100 2].

(** ** The lines of the partial-condition file, as a predicate *)

(** The line was written for an eligible row of the frame whose RSI is under
    [rsi_oversold], with the timestamp and the indicator values of that
    row. *)
Definition logged_from {R : Type} `{Num R} (df : list (Row.t R))
  (l : partial_line R) : Prop :=
  exists (j : nat) (r : Row.t R) (rsi macd signal hist atr volume_sma : R),
    nth_error df j = Some r
    /\ indicators r = Some (rsi, macd, signal, hist, atr, volume_sma)
    /\ ltb atr min_atr = false
    /\ ltb rsi rsi_oversold = true
    /\ l = mk_partial_line (Row.timestamp r) rsi macd signal hist.

(** A candle at 100 without an entry signal that stays inside the stop and
    the target of an entry at 100 with an ATR of 1. *)
Definition calm (ts : Z) : Row.t Q :=
  candle ts 100 100.1 99.9 100 2 (Some 50) (Some 0) (Some 1) (Some 1).

(** An entry followed by 59 calm candles. *)
Definition holding_frame : list (Row.t Q) :=
  warmup :: quiet_signal
  :: map (fun n => calm (300 * Z.of_nat (n + 2))) (seq 0 59).

(** ** The asset balance in the words of the specification *)

(** The sum of [size] over the open positions, taken one position after the
    other from 0. *)
Definition spec_open_size {R} `{Num R} (ps : list (Position.t R)) : R :=
  fold_left (fun acc p => add acc (Position.size p)) ps (lit 0).

(** Two entries, the second with a stop at 99, then a candle whose low 99.5
    is under the stop 99.75 of the first position only. *)
Definition wide_stop_signal : Row.t Q :=
  candle 600 100 100.1 99.9 100 2 (Some 10) (Some 0) (Some 4) (Some 1).

Definition slide : Row.t Q :=
  candle 900 100 100 99.5 99.6 2 (Some 50) (Some 0) (Some 1) (Some 1).

Definition two_stops_frame : list (Row.t Q) :=
  [warmup; quiet_signal; wide_stop_signal; slide].

(** An entry on [quiet_signal], target 105, then a candle that reaches it. *)
Definition rally : Row.t Q :=
  candle 600 100 106 100 105.5 2 (Some 50) (Some 0) (Some 1) (Some 1).

Definition won_frame : list (Row.t Q) := [warmup; quiet_signal; rally].

(** * Properties *)

Section Properties.

Context {R : Type} `{Num R}.

Local Open Scope nat_scope.

(** ** The exit loop *)

Lemma exit_loop_spec (i : nat) (r : Row.t R) (ps : list (Position.t R)) :
  forall (s : state R) (tc : list (Position.t R)),
  exists (s' : state R) (th : list (Trade.t R)),
    exit_loop i r ps s tc
    = (map age ps, s', tc ++ filter (closing r) (map age ps))
    /\ trade_history s' = trade_history s ++ th
    /\ Forall2 (closes i r) (filter (closing r) (map age ps)) th
    /\ positions s' = positions s
    /\ rsi_below_threshold_count s' = rsi_below_threshold_count s
    /\ partial_condition_count s' = partial_condition_count s
    /\ partial_file s' = partial_file s.
Proof.
  induction ps as [|pos0 rest IH]; intros s tc; cbn [exit_loop map filter].
  - exists s, []. rewrite !app_nil_r. repeat split; constructor.
  - destruct (check_exit r (age pos0)) as [[ty px]|] eqn:E.
    + assert (C : closing r (age pos0) = true) by (unfold closing; now rewrite E).
      rewrite C.
      destruct (IH (close_position i r (age pos0) ty px s) (tc ++ [age pos0]))
        as (s' & th & -> & Hth & Hf & Hp & Hc1 & Hc2 & Hpf).
      exists s', (trade_entry i r (age pos0) ty px
                   (balance (close_position i r (age pos0) ty px s))
                   (sol_balance (close_position i r (age pos0) ty px s)) :: th).
      rewrite <- app_assoc. cbn [app].
      repeat split; try assumption.
      * rewrite Hth. cbn [close_position trade_history].
        rewrite <- app_assoc. reflexivity.
      * constructor; [|exact Hf].
        exists ty, px. eexists. eexists. split; [exact E | reflexivity].
    + assert (C : closing r (age pos0) = false) by (unfold closing; now rewrite E).
      rewrite C.
      destruct (IH s tc) as (s' & th & -> & Hth & Hf & Hp & Hc1 & Hc2 & Hpf).
      exists s', th. repeat split; assumption.
Qed.

Lemma closed_in_step_spec (i : nat) (r : Row.t R) (s : state R) :
  exists th : list (Trade.t R),
    closed_in_step i r s
    = combine (filter (closing r) (map age (positions s))) th
    /\ Forall2 (closes i r) (filter (closing r) (map age (positions s))) th
    /\ trade_history (check_exits i r s) = trade_history s ++ th.
Proof.
  destruct (exit_loop_spec i r (positions s) s [])
    as (s' & th & E & Hth & Hf & _).
  exists th. unfold closed_in_step, check_exits. rewrite E. cbn [app].
  rewrite Hth, skipn_app, skipn_all, Nat.sub_diag. cbn [skipn app trade_history].
  repeat split; assumption.
Qed.

Lemma Forall2_combine_In {A B : Type} (P : A -> B -> Prop) (l : list A)
  (l' : list B) (a : A) (b : B) :
  Forall2 P l l' -> In (a, b) (combine l l') -> P a b.
Proof.
  induction 1 as [|x y l l' Hxy _ IH]; cbn [combine In]; [tauto|].
  intros [E|Hin]; [injection E as <- <-; exact Hxy | exact (IH Hin)].
Qed.

Lemma Forall2_combine_fst {A B : Type} (P : A -> B -> Prop) (l : list A)
  (l' : list B) :
  Forall2 P l l' -> map fst (combine l l') = l.
Proof.
  induction 1 as [|x y l l' _ _ IH]; cbn [combine map fst]; congruence.
Qed.

Lemma Forall2_combine_snd {A B : Type} (P : A -> B -> Prop) (l : list A)
  (l' : list B) :
  Forall2 P l l' -> map snd (combine l l') = l'.
Proof.
  induction 1 as [|x y l l' _ _ IH]; cbn [combine map snd]; congruence.
Qed.

(** A close recorded in an iteration is the close of a position that was open
    at the exit checks, with its counter incremented. *)
Lemma closed_in_step_closes (i : nat) (r : Row.t R) (s : state R)
  (pos : Position.t R) (t : Trade.t R) :
  In (pos, t) (closed_in_step i r s) ->
  closes i r pos t /\ In pos (map age (positions s)).
Proof.
  destruct (closed_in_step_spec i r s) as (th & -> & Hf & _). intros Hin.
  split; [exact (Forall2_combine_In pos t Hf Hin)|].
  apply in_combine_l in Hin. apply filter_In in Hin. tauto.
Qed.

(** The positions closed in an iteration are exactly the open positions on
    which an exit condition holds, each once and in the order of the list. *)
Lemma closed_in_step_positions (i : nat) (r : Row.t R) (s : state R) :
  map fst (closed_in_step i r s)
  = filter (closing r) (map age (positions s)).
Proof.
  destruct (closed_in_step_spec i r s) as (th & -> & Hf & _).
  exact (Forall2_combine_fst Hf).
Qed.

(** The trades appended by the exit checks are those of [closed_in_step]. *)
Lemma check_exits_trade_history (i : nat) (r : Row.t R) (s : state R) :
  trade_history (check_exits i r s)
  = trade_history s ++ map snd (closed_in_step i r s).
Proof.
  destruct (closed_in_step_spec i r s) as (th & -> & Hf & ->).
  now rewrite (Forall2_combine_snd Hf).
Qed.

(** ** The loop *)

Lemma loop_app (l1 l2 : list (Row.t R)) :
  forall (i : nat) (s : state R),
    loop i (l1 ++ l2) s = loop (i + length l1) l2 (loop i l1 s).
Proof.
  induction l1 as [|r l1 IH]; intros i s; cbn [app loop length].
  - now rewrite Nat.add_0_r.
  - rewrite IH. now rewrite Nat.add_succ_comm.
Qed.

Lemma firstn_snoc {A : Type} (l : list A) :
  forall k : nat,
    firstn (S k) l
    = firstn k l ++ match nth_error l k with Some x => [x] | None => [] end.
Proof.
  induction l as [|a l IH]; intros [|k]; cbn [firstn nth_error app];
    try reflexivity.
  now rewrite <- IH.
Qed.

(** The ledger after [k + 1] iterations comes from the ledger after [k] by
    the iteration on row [k + 1], if there is one. *)
Lemma state_after_S (k : nat) (df : list (Row.t R)) :
  state_after (S k) df
  = match nth_error (tl df) k with
    | Some r => step (S k) r (state_after k df)
    | None => state_after k df
    end.
Proof.
  unfold state_after. rewrite firstn_snoc, loop_app.
  destruct (nth_error (tl df) k) as [r|] eqn:E; cbn [loop]; [|reflexivity].
  rewrite length_firstn, Nat.min_l; [reflexivity|].
  apply Nat.lt_le_incl, nth_error_Some. congruence.
Qed.

Lemma state_after_all (df : list (Row.t R)) :
  state_after (length (tl df)) df = loop 1 (tl df) init_state.
Proof. unfold state_after. now rewrite firstn_all. Qed.

(** What holds at the start and is kept by every iteration holds after any
    number of iterations. *)
Lemma state_after_invariant (P : state R -> Prop) :
  P init_state ->
  (forall (i : nat) (r : Row.t R) (s : state R), P s -> P (step i r s)) ->
  forall (k : nat) (df : list (Row.t R)), P (state_after k df).
Proof.
  intros H0 Hstep k df. induction k as [|k IH].
  - exact H0.
  - rewrite state_after_S. destruct (nth_error (tl df) k); auto.
Qed.

(** ** The entry block *)

Lemma log_partial_ledger (r : Row.t R) (a b c d : R) (s : state R) :
  balance (log_partial r a b c d s) = balance s
  /\ positions (log_partial r a b c d s) = positions s
  /\ trade_history (log_partial r a b c d s) = trade_history s
  /\ usdt_balance (log_partial r a b c d s) = usdt_balance s
  /\ sol_balance (log_partial r a b c d s) = sol_balance s
  /\ trades (log_partial r a b c d s) = trades s
  /\ wins (log_partial r a b c d s) = wins s.
Proof.
  unfold log_partial.
  destruct (partial_condition_count s <? 1000)%nat; cbn; repeat split.
Qed.

Lemma count_rsi_below_ledger (rsi : R) (s : state R) :
  balance (count_rsi_below rsi s) = balance s
  /\ positions (count_rsi_below rsi s) = positions s
  /\ trade_history (count_rsi_below rsi s) = trade_history s
  /\ usdt_balance (count_rsi_below rsi s) = usdt_balance s
  /\ sol_balance (count_rsi_below rsi s) = sol_balance s
  /\ trades (count_rsi_below rsi s) = trades s
  /\ wins (count_rsi_below rsi s) = wins s.
Proof.
  unfold count_rsi_below. destruct (ltb rsi rsi_oversold); cbn; repeat split.
Qed.

(** A rejected entry leaves the balances, the positions and the trade log as
    they were. *)
Lemma check_entry_rejected (i : nat) (r : Row.t R)
  (rsi macd signal hist atr volume_sma : R) (s s1 : state R) :
  check_entry i r rsi macd signal hist atr volume_sma s = Rejected s1 ->
  balance s1 = balance s
  /\ positions s1 = positions s
  /\ trade_history s1 = trade_history s
  /\ usdt_balance s1 = usdt_balance s
  /\ sol_balance s1 = sol_balance s
  /\ trades s1 = trades s
  /\ wins s1 = wins s.
Proof.
  unfold check_entry.
  destruct (length (positions s) <? max_positions)%nat; [|discriminate].
  destruct (entry_signal r rsi hist volume_sma); [|discriminate].
  destruct (entry_rejected _ _); [|discriminate].
  intros [= <-].
  destruct (ltb rsi rsi_oversold);
    [apply log_partial_ledger | repeat split].
Qed.

(** The entry block appends at most one position, and only under the cap. *)
Lemma check_entry_positions (i : nat) (r : Row.t R)
  (rsi macd signal hist atr volume_sma : R) (s : state R) :
  positions (entry_state (check_entry i r rsi macd signal hist atr volume_sma s))
  = positions s
  \/ (length (positions s) < max_positions
      /\ exists pos : Position.t R,
           Position.entry_index pos = i
           /\ Position.position_candles pos = 0
           /\ positions (entry_state
                           (check_entry i r rsi macd signal hist atr volume_sma s))
              = positions s ++ [pos]).
Proof.
  unfold check_entry.
  destruct (length (positions s) <? max_positions)%nat eqn:L; [|now left].
  apply Nat.ltb_lt in L.
  assert (P1 : positions (if ltb rsi rsi_oversold
                          then log_partial r rsi macd signal hist s else s)
               = positions s)
    by (destruct (ltb rsi rsi_oversold); [apply log_partial_ledger | reflexivity]).
  destruct (entry_signal r rsi hist volume_sma); [|now left].
  destruct (entry_rejected _ _); [now left|].
  right. split; [exact L|].
  eexists (new_position i r macd signal hist atr _).
  cbn [entry_state open_position positions]. rewrite P1. repeat split.
Qed.

(** ** Removal of the closed positions *)

Lemma list_remove_length (pos : Position.t R) (ps : list (Position.t R)) :
  length (list_remove pos ps) <= length ps.
Proof.
  induction ps as [|p rest IH]; cbn [list_remove length]; [lia|].
  destruct (position_eqb p pos); cbn [length]; lia.
Qed.

Lemma remove_closed_length (tc : list (Position.t R)) :
  forall ps : list (Position.t R), length (remove_closed tc ps) <= length ps.
Proof.
  unfold remove_closed.
  induction tc as [|pos tc IH]; intros ps; cbn [fold_left]; [lia|].
  etransitivity; [apply IH | apply list_remove_length].
Qed.

Lemma check_exits_length (i : nat) (r : Row.t R) (s : state R) :
  length (positions (check_exits i r s)) <= length (positions s).
Proof.
  unfold check_exits.
  destruct (exit_loop_spec i r (positions s) s []) as (s' & th & -> & _).
  cbn [positions].
  etransitivity; [apply remove_closed_length | now rewrite length_map].
Qed.

(** The exit checks end with the recomputation of [sol_balance]. *)
Lemma check_exits_sol_balance (i : nat) (r : Row.t R) (s : state R) :
  sol_balance (check_exits i r s) = sum_sizes (positions (check_exits i r s)).
Proof.
  unfold check_exits.
  destruct (exit_loop i r (positions s) s []) as [[aged s1] tc].
  cbn [sol_balance positions].
  destruct (remove_closed tc aged); reflexivity.
Qed.

Lemma check_entry_trade_history (i : nat) (r : Row.t R)
  (rsi macd signal hist atr volume_sma : R) (s : state R) :
  trade_history
    (entry_state (check_entry i r rsi macd signal hist atr volume_sma s))
  = trade_history s.
Proof.
  unfold check_entry.
  assert (P1 : trade_history (if ltb rsi rsi_oversold
                              then log_partial r rsi macd signal hist s else s)
               = trade_history s)
    by (destruct (ltb rsi rsi_oversold); [apply log_partial_ledger | reflexivity]).
  destruct (length (positions s) <? max_positions); [|reflexivity].
  destruct (entry_signal r rsi hist volume_sma); [|exact P1].
  destruct (entry_rejected _ _); exact P1.
Qed.

(** ** Invariants of the ledger *)

Lemma step_sol_balance (i : nat) (r : Row.t R) (s : state R) :
  sol_balance s = sum_sizes (positions s) ->
  sol_balance (step i r s) = sum_sizes (positions (step i r s)).
Proof.
  intros Hs. unfold step.
  destruct (indicators r) as [[[[[[rsi macd] signal] hist] atr] vsma]|];
    [|exact Hs].
  destruct (ltb atr min_atr); [exact Hs|].
  destruct (check_entry _ _ _ _ _ _ _ _ _) as [s1|s1] eqn:E.
  - apply check_entry_rejected in E.
    destruct E as (_ & -> & _ & _ & -> & _).
    destruct (count_rsi_below_ledger rsi s) as (_ & -> & _ & _ & -> & _).
    exact Hs.
  - apply check_exits_sol_balance.
Qed.

Lemma step_positions_bounded (i : nat) (r : Row.t R) (s : state R) :
  length (positions s) <= max_positions ->
  length (positions (step i r s)) <= max_positions.
Proof.
  intros Hs. unfold step.
  destruct (indicators r) as [[[[[[rsi macd] signal] hist] atr] vsma]|];
    [|exact Hs].
  destruct (ltb atr min_atr); [exact Hs|].
  assert (Hc : positions (count_rsi_below rsi s) = positions s)
    by apply count_rsi_below_ledger.
  pose proof (check_entry_positions i r rsi macd signal hist atr vsma
                (count_rsi_below rsi s)) as He.
  rewrite Hc in He.
  destruct (check_entry _ _ _ _ _ _ _ _ _) as [s1|s1] eqn:E;
    cbn [entry_state] in He.
  - destruct He as [->|(L & pos & _ & _ & ->)]; [exact Hs|].
    rewrite length_app. cbn [length]. lia.
  - etransitivity; [apply check_exits_length|].
    destruct He as [->|(L & pos & _ & _ & ->)]; [exact Hs|].
    rewrite length_app. cbn [length]. lia.
Qed.

(** ** Where a trade of the log comes from *)

Lemma nth_error_tl {A : Type} (l : list A) (k : nat) :
  nth_error (tl l) k = nth_error l (S k).
Proof. destruct l; [now destruct k | reflexivity]. Qed.

(** Every trade in the log after [k] iterations was appended by the exit
    checks of an earlier iteration, on an eligible candle whose entry block
    fell through. *)
Lemma trade_origin (df : list (Row.t R)) (t : Trade.t R) :
  forall k : nat,
    In t (trade_history (state_after k df)) ->
    exists (j : nat) (r : Row.t R) (rsi macd signal hist atr vsma : R)
           (s1 : state R) (pos : Position.t R),
      j < k
      /\ nth_error df (S j) = Some r
      /\ indicators r = Some (rsi, macd, signal, hist, atr, vsma)
      /\ ltb atr min_atr = false
      /\ check_entry (S j) r rsi macd signal hist atr vsma
           (count_rsi_below rsi (state_after j df)) = Proceed s1
      /\ In (pos, t) (closed_in_step (S j) r s1).
Proof.
  induction k as [|k IH].
  - cbn. tauto.
  - assert (Hold : In t (trade_history (state_after k df)) ->
                   exists j r rsi macd signal hist atr vsma s1 pos,
                     j < S k
                     /\ nth_error df (S j) = Some r
                     /\ indicators r = Some (rsi, macd, signal, hist, atr, vsma)
                     /\ ltb atr min_atr = false
                     /\ check_entry (S j) r rsi macd signal hist atr vsma
                          (count_rsi_below rsi (state_after j df)) = Proceed s1
                     /\ In (pos, t) (closed_in_step (S j) r s1)).
    { intros Hin.
      destruct (IH Hin)
        as (j & r & rsi & macd & signal & hist & atr & vsma & s1 & pos & Hj & Hrest).
      exists j, r, rsi, macd, signal, hist, atr, vsma, s1, pos.
      split; [lia | exact Hrest]. }
    rewrite state_after_S, nth_error_tl.
    destruct (nth_error df (S k)) as [r|] eqn:Er; [|exact Hold].
    unfold step.
    destruct (indicators r) as [[[[[[rsi macd] signal] hist] atr] vsma]|] eqn:Ei;
      [|exact Hold].
    destruct (ltb atr min_atr) eqn:Ea; [exact Hold|].
    pose proof (check_entry_trade_history (S k) r rsi macd signal hist atr vsma
                  (count_rsi_below rsi (state_after k df))) as Hth.
    destruct (check_entry _ _ _ _ _ _ _ _ _) as [s1|s1] eqn:E;
      cbn [entry_state] in Hth.
    + rewrite Hth.
      destruct (count_rsi_below_ledger rsi (state_after k df))
        as (_ & _ & -> & _).
      exact Hold.
    + rewrite check_exits_trade_history, Hth. intros Hin.
      apply in_app_or in Hin. destruct Hin as [Hin|Hin].
      * destruct (count_rsi_below_ledger rsi (state_after k df))
          as (_ & _ & Hc & _).
        rewrite Hc in Hin. exact (Hold Hin).
      * apply in_map_iff in Hin. destruct Hin as ([pos t'] & Et & Hin).
        cbn [snd] in Et. subst t'.
        exists k, r, rsi, macd, signal, hist, atr, vsma, s1, pos.
        repeat split; try assumption. lia.
Qed.

Lemma run_backtest_log (fs : files R) (df : list (Row.t R)) :
  snd (fst (run_backtest fs df))
  = trade_history (state_after (length (tl df)) df).
Proof. now rewrite state_after_all. Qed.

(** ** The claims that hold for every number type *)

(** The recomputation [sum(pos['size'] for pos in positions)] adds the sizes
    one position after the other from 0. *)
Lemma sum_sizes_spec (ps : list (Position.t R)) :
  sum_sizes ps = spec_open_size ps.
Proof.
  unfold sum_sizes, py_sum, spec_open_size. generalize (lit 0).
  induction ps as [|p ps IH]; intros a; cbn [map fold_left];
    [reflexivity | apply IH].
Qed.

(** C2.  After every iteration of the loop the asset balance [sol_balance] is
    the sum of [size] over the open positions, [spec_open_size], which is 0
    when there is none; the exit checks end by recomputing it from the
    positions that remain, whatever it was before. *)
Theorem C2_sol_balance_is_sum_of_open_sizes :
  (forall (k : nat) (df : list (Row.t R)),
     sol_balance (state_after k df)
     = spec_open_size (positions (state_after k df)))
  /\ spec_open_size (@nil (Position.t R)) = lit 0
  /\ (forall (i : nat) (r : Row.t R) (s : state R),
        sol_balance (check_exits i r s)
        = spec_open_size (positions (check_exits i r s))).
Proof.
  split; [|split].
  - intros k df. rewrite <- sum_sizes_spec. revert k df.
    apply (state_after_invariant
             (fun s => sol_balance s = sum_sizes (positions s))).
    + reflexivity.
    + exact step_sol_balance.
  - reflexivity.
  - intros i r s. rewrite <- sum_sizes_spec. apply check_exits_sol_balance.
Qed.

(** C3.  After any number of iterations there are at most [max_positions]
    open positions, and so there are between the entry block and the exit
    checks of the next iteration; the entry block opens at most one position,
    does nothing at all when [max_positions] are open, and the exit checks
    never add one. *)
Theorem C3_open_positions_bounded (k : nat) (df : list (Row.t R)) (i : nat)
  (r : Row.t R) (rsi macd signal hist atr volume_sma : R) :
  let s := count_rsi_below rsi (state_after k df) in
  let e := check_entry i r rsi macd signal hist atr volume_sma s in
  length (positions (state_after k df)) <= max_positions
  /\ length (positions (entry_state e)) <= max_positions
  /\ length (positions (entry_state e)) <= S (length (positions s))
  /\ (max_positions <= length (positions s) -> e = Proceed s)
  /\ length (positions (check_exits i r (entry_state e)))
     <= length (positions (entry_state e)).
Proof.
  intros s e.
  assert (Hk : length (positions (state_after k df)) <= max_positions).
  { apply (state_after_invariant
             (fun s => length (positions s) <= max_positions)).
    - cbn. lia.
    - exact step_positions_bounded. }
  assert (Hs : positions s = positions (state_after k df))
    by apply count_rsi_below_ledger.
  pose proof (check_entry_positions i r rsi macd signal hist atr volume_sma s)
    as He.
  fold e in He. rewrite Hs in *.
  repeat split.
  - exact Hk.
  - destruct He as [->|(L & pos & _ & _ & ->)]; [exact Hk|].
    rewrite length_app. cbn [length]. lia.
  - destruct He as [->|(L & pos & _ & _ & ->)]; [lia|].
    rewrite length_app. cbn [length]. lia.
  - intros Hfull. subst e. unfold check_entry. rewrite Hs.
    apply Nat.ltb_ge in Hfull. now rewrite Hfull.
  - apply check_exits_length.
Qed.

(** C4.  Every trade closed in an iteration belongs to one position that was
    open at the exit checks, and its single exit type is the first of
    stop-loss (low <= stop price), take-profit (high >= take price) and time
    exit (counter >= [max_hold_candles]) that holds, so it is the stop-loss
    when stop and target are both within the candle; the positions closed are
    exactly those on which one of the three holds, each once; and every trade
    of the returned log is such a close on a row of the frame. *)
Theorem C4_exit_type_by_priority :
  (forall (i : nat) (r : Row.t R) (s : state R) (pos : Position.t R)
          (t : Trade.t R),
     In (pos, t) (closed_in_step i r s) ->
     In pos (map age (positions s))
     /\ Some (Trade.exit_type t)
        = exit_by_priority
            (leb (Row.low r) (Position.stop_loss pos))
            (leb (Position.take_profit pos) (Row.high r))
            (max_hold_candles <=? Position.position_candles pos)
     /\ (leb (Row.low r) (Position.stop_loss pos) = true ->
         Trade.exit_type t = StopLoss))
  /\ (forall (i : nat) (r : Row.t R) (s : state R),
        map fst (closed_in_step i r s)
        = filter (closing r) (map age (positions s)))
  /\ (forall (fs : files R) (df : list (Row.t R)) (t : Trade.t R),
        In t (snd (fst (run_backtest fs df))) ->
        exists (j : nat) (r : Row.t R) (s1 : state R) (pos : Position.t R),
          nth_error df (S j) = Some r /\ In (pos, t) (closed_in_step (S j) r s1)).
Proof.
  split; [|split].
  - intros i r s pos t Hin.
    destruct (closed_in_step_closes i r s pos t Hin)
      as ((ty & px & usdt & sol & Hc & ->) & Hp).
    split; [exact Hp|]. cbn [trade_entry Trade.exit_type].
    unfold check_exit in Hc. unfold exit_by_priority.
    destruct (leb (Row.low r) (Position.stop_loss pos)).
    + injection Hc as <- _. split; reflexivity.
    + split; [|discriminate].
      destruct (leb (Position.take_profit pos) (Row.high r)).
      * injection Hc as <- _. reflexivity.
      * destruct (max_hold_candles <=? Position.position_candles pos);
          [injection Hc as <- _; reflexivity | discriminate].
  - exact closed_in_step_positions.
  - intros fs df t Hin. rewrite run_backtest_log in Hin.
    destruct (trade_origin df t _ Hin)
      as (j & r & rsi & macd & signal & hist & atr & vsma & s1 & pos
          & _ & Hr & _ & _ & _ & Hc).
    exists j, r, s1, pos. split; assumption.
Qed.

(** ** Another clock

    The loop on rows whose timestamps have been mapped by an injective [f]
    goes through the same ledgers, with their timestamps mapped by [f]. *)

Section Retime.

Variable f : Z -> Z.
Hypothesis f_injective : forall a b : Z, f a = f b -> a = b.

Lemma retime_indicators (r : Row.t R) :
  indicators (retime_row f r) = indicators r.
Proof. reflexivity. Qed.

Lemma retime_age (p : Position.t R) :
  age (retime_position f p) = retime_position f (age p).
Proof. reflexivity. Qed.

Lemma retime_check_exit (r : Row.t R) (p : Position.t R) :
  check_exit (retime_row f r) (retime_position f p) = check_exit r p.
Proof. reflexivity. Qed.

Lemma retime_close_position (i : nat) (r : Row.t R) (p : Position.t R)
  (ty : exit_type) (px : R) (s : state R) :
  close_position i (retime_row f r) (retime_position f p) ty px
                 (retime_state f s)
  = retime_state f (close_position i r p ty px s).
Proof.
  unfold close_position, retime_state.
  cbn [balance positions trade_history usdt_balance sol_balance trades wins
       rsi_below_threshold_count partial_condition_count partial_file].
  rewrite map_app. reflexivity.
Qed.

Lemma retime_exit_loop (i : nat) (r : Row.t R) (ps : list (Position.t R)) :
  forall (s : state R) (tc : list (Position.t R)),
    exit_loop i (retime_row f r) (map (retime_position f) ps)
              (retime_state f s) (map (retime_position f) tc)
    = let '(aged, s', tc') := exit_loop i r ps s tc in
      (map (retime_position f) aged, retime_state f s',
       map (retime_position f) tc').
Proof.
  induction ps as [|p rest IH]; intros s tc; cbn [map exit_loop];
    [reflexivity|].
  rewrite retime_age, retime_check_exit.
  destruct (check_exit r (age p)) as [[ty px]|].
  - rewrite retime_close_position.
    change (map (retime_position f) tc ++ [retime_position f (age p)])
      with (map (retime_position f) tc ++ map (retime_position f) [age p]).
    rewrite <- map_app, IH.
    destruct (exit_loop i r rest _ _) as [[aged s'] tc']. reflexivity.
  - rewrite IH. destruct (exit_loop i r rest s tc) as [[aged s'] tc'].
    reflexivity.
Qed.

Lemma retime_position_eqb (p q : Position.t R) :
  position_eqb (retime_position f p) (retime_position f q) = position_eqb p q.
Proof.
  unfold position_eqb. cbn [retime_position Position.entry_price Position.size
    Position.stop_loss Position.take_profit Position.entry_index
    Position.entry_time Position.macd_at_entry Position.signal_at_entry
    Position.hist_at_entry Position.atr_at_entry Position.position_candles].
  assert (E : (f (Position.entry_time p) =? f (Position.entry_time q))%Z
              = (Position.entry_time p =? Position.entry_time q)%Z).
  { destruct (Z.eqb_spec (Position.entry_time p) (Position.entry_time q))
      as [->|Hne].
    - apply Z.eqb_refl.
    - apply Z.eqb_neq. intros Hf. apply Hne, f_injective, Hf. }
  now rewrite E.
Qed.

Lemma retime_list_remove (p : Position.t R) (ps : list (Position.t R)) :
  list_remove (retime_position f p) (map (retime_position f) ps)
  = map (retime_position f) (list_remove p ps).
Proof.
  induction ps as [|q rest IH]; cbn [map list_remove]; [reflexivity|].
  rewrite retime_position_eqb.
  destruct (position_eqb q p); cbn [map]; congruence.
Qed.

Lemma retime_remove_closed (tc : list (Position.t R)) :
  forall ps : list (Position.t R),
    remove_closed (map (retime_position f) tc) (map (retime_position f) ps)
    = map (retime_position f) (remove_closed tc ps).
Proof.
  unfold remove_closed.
  induction tc as [|p tc IH]; intros ps; cbn [map fold_left]; [reflexivity|].
  now rewrite retime_list_remove, IH.
Qed.

Lemma retime_sum_sizes (ps : list (Position.t R)) :
  sum_sizes (map (retime_position f) ps) = sum_sizes ps.
Proof. unfold sum_sizes. now rewrite map_map. Qed.

Lemma retime_check_exits (i : nat) (r : Row.t R) (s : state R) :
  check_exits i (retime_row f r) (retime_state f s)
  = retime_state f (check_exits i r s).
Proof.
  unfold check_exits.
  change (positions (retime_state f s))
    with (map (retime_position f) (positions s)).
  change (@nil (Position.t R))
    with (map (retime_position f) (@nil (Position.t R))) at 1.
  rewrite retime_exit_loop.
  destruct (exit_loop i r (positions s) s []) as [[aged s'] tc].
  rewrite retime_remove_closed.
  destruct (remove_closed tc aged) as [|p rest] eqn:E; [reflexivity|].
  cbn [map]. unfold retime_state at 6.
  cbn [balance positions trade_history usdt_balance sol_balance trades wins
       rsi_below_threshold_count partial_condition_count partial_file map].
  change (retime_position f p :: map (retime_position f) rest)
    with (map (retime_position f) (p :: rest)).
  now rewrite retime_sum_sizes.
Qed.

Lemma retime_log_partial (r : Row.t R) (a b c d : R) (s : state R) :
  log_partial (retime_row f r) a b c d (retime_state f s)
  = retime_state f (log_partial r a b c d s).
Proof.
  unfold log_partial.
  change (partial_condition_count (retime_state f s))
    with (partial_condition_count s).
  destruct (partial_condition_count s <? 1000); [|reflexivity].
  unfold retime_state.
  cbn [balance positions trade_history usdt_balance sol_balance trades wins
       rsi_below_threshold_count partial_condition_count partial_file].
  now rewrite map_app.
Qed.

Lemma retime_check_entry (i : nat) (r : Row.t R)
  (rsi macd signal hist atr vsma : R) (s : state R) :
  check_entry i (retime_row f r) rsi macd signal hist atr vsma
              (retime_state f s)
  = retime_entry_result f (check_entry i r rsi macd signal hist atr vsma s).
Proof.
  unfold check_entry.
  change (positions (retime_state f s))
    with (map (retime_position f) (positions s)).
  rewrite length_map.
  destruct (length (positions s) <? max_positions); [|reflexivity].
  change (entry_signal (retime_row f r) rsi hist vsma)
    with (entry_signal r rsi hist vsma).
  change (Row.close (retime_row f r)) with (Row.close r).
  assert (E : (if ltb rsi rsi_oversold
               then log_partial (retime_row f r) rsi macd signal hist
                                (retime_state f s)
               else retime_state f s)
              = retime_state f (if ltb rsi rsi_oversold
                                then log_partial r rsi macd signal hist s
                                else s))
    by (destruct (ltb rsi rsi_oversold);
        [apply retime_log_partial | reflexivity]).
  rewrite E.
  set (s1 := if ltb rsi rsi_oversold
             then log_partial r rsi macd signal hist s else s).
  change (balance (retime_state f s1)) with (balance s1).
  destruct (entry_signal r rsi hist vsma); [|reflexivity].
  destruct (entry_rejected (balance s1) (Row.close r)); [reflexivity|].
  cbn [retime_entry_result]. f_equal.
  unfold open_position, retime_state.
  cbn [balance positions trade_history usdt_balance sol_balance trades wins
       rsi_below_threshold_count partial_condition_count partial_file].
  now rewrite map_app.
Qed.

Lemma retime_count_rsi_below (rsi : R) (s : state R) :
  count_rsi_below rsi (retime_state f s)
  = retime_state f (count_rsi_below rsi s).
Proof.
  unfold count_rsi_below. destruct (ltb rsi rsi_oversold); reflexivity.
Qed.

Lemma retime_step (i : nat) (r : Row.t R) (s : state R) :
  step i (retime_row f r) (retime_state f s) = retime_state f (step i r s).
Proof.
  unfold step. rewrite retime_indicators.
  destruct (indicators r) as [[[[[[rsi macd] signal] hist] atr] vsma]|];
    [|reflexivity].
  destruct (ltb atr min_atr); [reflexivity|].
  rewrite retime_count_rsi_below, retime_check_entry.
  destruct (check_entry _ _ _ _ _ _ _ _ _) as [s1|s1];
    cbn [retime_entry_result]; [reflexivity | apply retime_check_exits].
Qed.

Lemma retime_loop (rows : list (Row.t R)) :
  forall (i : nat) (s : state R),
    loop i (map (retime_row f) rows) (retime_state f s)
    = retime_state f (loop i rows s).
Proof.
  induction rows as [|r rows IH]; intros i s; cbn [map loop]; [reflexivity|].
  now rewrite retime_step, IH.
Qed.

Lemma retime_run_backtest (fs fs' : files R) (df : list (Row.t R)) :
  fst (run_backtest fs' (map (retime_row f) df))
  = (fst (fst (run_backtest fs df)),
     map (retime_trade f) (snd (fst (run_backtest fs df)))).
Proof.
  unfold run_backtest. cbn [fst snd].
  replace (tl (map (retime_row f) df)) with (map (retime_row f) (tl df))
    by (now destruct df).
  change (@init_state R _) with (retime_state f init_state) at 1 2.
  rewrite retime_loop. reflexivity.
Qed.

End Retime.

(** The hold recorded for a close is the distance from the entry index to
    the index of the closing candle; the position closed had its counter
    incremented once by the exit checks of that iteration. *)
Lemma closed_in_step_candles_held (i : nat) (r : Row.t R) (s : state R)
  (pos : Position.t R) (t : Trade.t R) :
  In (pos, t) (closed_in_step i r s) ->
  Trade.candles_held t
  = (Z.of_nat i - Z.of_nat (Position.entry_index pos))%Z
  /\ exists p0 : Position.t R,
       In p0 (positions s)
       /\ pos = age p0
       /\ Position.position_candles pos = S (Position.position_candles p0).
Proof.
  intros Hin.
  destruct (closed_in_step_closes i r s pos t Hin)
    as ((ty & px & usdt & sol & _ & ->) & Hp).
  split; [reflexivity|].
  apply in_map_iff in Hp. destruct Hp as (p0 & <- & Hp0).
  exists p0. repeat split. exact Hp0.
Qed.

Lemma trade_candles_held (fs : files R) (df : list (Row.t R))
  (t : Trade.t R) :
  In t (snd (fst (run_backtest fs df))) ->
  exists (j : nat) (r : Row.t R) (s1 : state R) (pos : Position.t R),
    nth_error df (S j) = Some r
    /\ In (pos, t) (closed_in_step (S j) r s1)
    /\ Trade.candles_held t
       = (Z.of_nat (S j) - Z.of_nat (Position.entry_index pos))%Z.
Proof.
  intros Hin. rewrite run_backtest_log in Hin.
  destruct (trade_origin df t _ Hin)
    as (j & r & rsi & macd & signal & hist & atr & vsma & s1 & pos
        & _ & Hr & _ & _ & _ & Hc).
  exists j, r, s1, pos. repeat split; try assumption.
  exact (proj1 (closed_in_step_candles_held _ _ _ _ _ Hc)).
Qed.

(** With the timestamps mapped injectively the trades record the same holds
    and the open positions carry the same counters. *)
Lemma retime_candles_held (f : Z -> Z) (fs fs' : files R)
  (df : list (Row.t R)) :
  (forall a b : Z, f a = f b -> a = b) ->
  map (@Trade.candles_held R)
      (snd (fst (run_backtest fs' (map (retime_row f) df))))
  = map (@Trade.candles_held R) (snd (fst (run_backtest fs df))).
Proof.
  intros Hf.
  rewrite (@retime_run_backtest f Hf fs fs' df). cbn [fst snd].
  rewrite map_map. reflexivity.
Qed.

Lemma retime_state_after (f : Z -> Z) (k : nat) (df : list (Row.t R)) :
  (forall a b : Z, f a = f b -> a = b) ->
  state_after k (map (retime_row f) df) = retime_state f (state_after k df).
Proof.
  intros Hf. unfold state_after.
  replace (tl (map (retime_row f) df)) with (map (retime_row f) (tl df))
    by (now destruct df).
  rewrite firstn_map.
  change (@init_state R _) with (retime_state f init_state) at 1.
  apply retime_loop. exact Hf.
Qed.

Lemma retime_position_candles (f : Z -> Z) (k : nat) (df : list (Row.t R)) :
  (forall a b : Z, f a = f b -> a = b) ->
  map (@Position.position_candles R)
      (positions (state_after k (map (retime_row f) df)))
  = map (@Position.position_candles R) (positions (state_after k df)).
Proof.
  intros Hf. rewrite (@retime_state_after f k df Hf).
  cbn [retime_state positions]. rewrite map_map. reflexivity.
Qed.

End Properties.

(** ** The RSI filter *)

Section FilterProperties.

Context {R : Type} `{Num R}.

Local Open Scope nat_scope.

(** Without a row of RSI under 1.0 the frame is left as it is. *)
Lemma filter_rsi_none_invalid (df : list (nat * Row.t R)) :
  (forall ir : nat * Row.t R, In ir df -> rsi_lt_1 (snd ir) = false) ->
  filter_rsi df = df.
Proof.
  intros Hall. unfold filter_rsi, invalid_rsi.
  replace (filter (fun ir => rsi_lt_1 (snd ir)) df)
    with (@nil (nat * Row.t R)); [reflexivity|].
  symmetry. induction df as [|ir df IH]; cbn [filter]; [reflexivity|].
  rewrite (Hall ir (or_introl eq_refl)).
  apply IH. intros ir' Hin. apply Hall. now right.
Qed.

(** With one, the rows kept are those whose RSI is defined and at least 1.0:
    the rows without an RSI go too. *)
Lemma filter_rsi_some_invalid (df : list (nat * Row.t R))
  (ir : nat * Row.t R) :
  In ir df -> rsi_lt_1 (snd ir) = true ->
  filter_rsi df = filter (fun ir => rsi_ge_1 (snd ir)) df.
Proof.
  intros Hin Hlt. unfold filter_rsi, invalid_rsi.
  destruct (filter (fun ir => rsi_lt_1 (snd ir)) df) eqn:E; [|reflexivity].
  assert (Hf : In ir (filter (fun ir => rsi_lt_1 (snd ir)) df))
    by (apply filter_In; split; assumption).
  rewrite E in Hf. destruct Hf.
Qed.

Lemma rsi_ge_1_defined (r : Row.t R) :
  rsi_ge_1 r = true -> Row.rsi r <> None.
Proof. unfold rsi_ge_1. destruct (Row.rsi r); [discriminate | discriminate]. Qed.

Lemma combine_seq {A : Type} (l : list A) :
  forall a : nat,
    map fst (combine (seq a (length l)) l) = seq a (length l)
    /\ map snd (combine (seq a (length l)) l) = l.
Proof.
  induction l as [|x l IH]; intros a; cbn [length seq combine map fst snd];
    [split; reflexivity|].
  destruct (IH (S a)) as [-> ->]. split; reflexivity.
Qed.

(** After [reset_index] the labels are 0, 1, 2, ... and the rows are the
    same, in the same order. *)
Lemma reset_index_spec (df : list (nat * Row.t R)) :
  map fst (reset_index df) = seq 0 (length df)
  /\ map snd (reset_index df) = map snd df.
Proof.
  unfold reset_index. rewrite <- (length_map snd df). apply combine_seq.
Qed.

End FilterProperties.

(** ** Exact rationals: order and rounding *)

Lemma Qltb_lt (x y : Q) : Qltb x y = true <-> x < y.
Proof.
  unfold Qltb. rewrite Qlt_alt. destruct (x ?= y); split; congruence.
Qed.

Lemma Qltb_ge (x y : Q) : Qltb x y = false <-> y <= x.
Proof.
  split.
  - intros Hf. apply Qnot_lt_le. intros Hlt. apply Qltb_lt in Hlt. congruence.
  - intros Hle. destruct (Qltb x y) eqn:E; [|reflexivity].
    apply Qltb_lt in E. exfalso. exact (Qlt_not_le _ _ E Hle).
Qed.

(** Rounding half to even never goes under an integer the number is over. *)
Lemma round_half_even_ge (q : Q) (z : Z) :
  inject_Z z <= q -> (z <= round_half_even q)%Z.
Proof.
  intros Hz. apply Qfloor_resp_le in Hz. rewrite Qfloor_Z in Hz.
  unfold round_half_even.
  destruct (q - inject_Z (Qfloor q) ?= 1 # 2); [destruct (Z.even _)| |]; lia.
Qed.

Lemma Qround4_ge_min (x : Q) : 0.0005 <= x -> 0.0005 <= Qround4 x.
Proof.
  intros Hx. unfold Qround4.
  assert (H5 : (5 <= round_half_even (x * 10000))%Z).
  { apply round_half_even_ge. change (inject_Z 5) with 5. lra. }
  rewrite Zle_Qle in H5. change (inject_Z 5) with 5 in H5.
  apply Qle_shift_div_l; lra.
Qed.

Lemma py_max_ge (a b : Q) : b <= py_max a b.
Proof.
  unfold py_max. cbn [ltb Q_Num].
  destruct (Qltb a b) eqn:E; [apply Qle_refl | now apply Qltb_ge].
Qed.

(** The size of an order is never under [min_order_size]. *)
Lemma entry_size_ge_min (bal close : Q) : min_order_size <= entry_size bal close.
Proof.
  unfold entry_size. cbn [round4 Q_Num]. apply Qround4_ge_min, py_max_ge.
Qed.

Lemma size_too_small_never (bal close : Q) :
  0 < close -> size_too_small bal close = false.
Proof.
  intros Hc. unfold size_too_small. cbn [ltb mul Q_Num].
  apply Qltb_ge. apply Qmult_le_compat_r; [apply entry_size_ge_min|].
  now apply Qlt_le_weak.
Qed.

(** ** The claims on exact rationals *)

(** C7.  With a cash balance of 10 (the initial balance), a close of 100 and
    an ATR of 1.0: the risk amount is 0.5, the raw size (0.5 / 0.25) / 100 =
    0.02, the size after the floor and the rounding 0.0200, the required
    capital 2.00, which is at most the balance, so the entry is not rejected;
    the stop price is 99.75 and the take price 105.0; and the entry block of
    the loop, on such a candle with an entry signal, opens one position with
    that size, stop and target. *)
Theorem C7_sizing_example :
  balance (@init_state Q _) == 10
  /\ risk_amount 10 == 0.5
  /\ raw_size 10 100 == 0.02
  /\ entry_size 10 100 == 0.0200
  /\ position_size_usdt 10 100 == 2.00
  /\ position_size_usdt 10 100 <= 10
  /\ entry_rejected 10 100 = false
  /\ stop_loss_at 100 1.0 == 99.75
  /\ take_profit_at 100 1.0 == 105.0
  /\ is_rejected (check_entry 1 quiet_signal 10 0 0 0 1.0 1 init_state) = false
  /\ Forall2 (fun (pos : Position.t Q) (expected : Q * Q * Q) =>
                Position.size pos == fst (fst expected)
                /\ Position.stop_loss pos == snd (fst expected)
                /\ Position.take_profit pos == snd expected)
             (positions (entry_state
                (check_entry 1 quiet_signal 10 0 0 0 1.0 1 init_state)))
             [(0.0200, 99.75, 105.0)].
Proof.
  repeat split; try (vm_compute; reflexivity).
  - vm_compute. discriminate.
  - repeat constructor; vm_compute; reflexivity.
Qed.

(** C10.  On a candle of positive close the size of an order, floored at
    [min_order_size] before it is rounded, never makes the second rejection
    test (size * close < min_order_size * close) true.  So when the three
    entry conditions hold under the position cap, the entry is rejected if and
    only if the required capital is strictly over the cash balance; a
    rejected entry opens no position and changes no balance, an accepted one
    opens exactly one position. *)
Theorem C10_rejected_iff_capital_exceeds_balance (i : nat) (r : Row.t Q)
  (rsi macd signal hist atr volume_sma : Q) (s : state Q) :
  0 < Row.close r ->
  (length (positions s) < max_positions)%nat ->
  entry_signal r rsi hist volume_sma = true ->
  let e := check_entry i r rsi macd signal hist atr volume_sma s in
  size_too_small (balance s) (Row.close r) = false
  /\ (is_rejected e = true
      <-> balance s < position_size_usdt (balance s) (Row.close r))
  /\ (is_rejected e = true ->
      positions (entry_state e) = positions s
      /\ balance (entry_state e) = balance s
      /\ usdt_balance (entry_state e) = usdt_balance s
      /\ sol_balance (entry_state e) = sol_balance s)
  /\ (is_rejected e = false ->
      exists pos : Position.t Q,
        positions (entry_state e) = positions s ++ [pos]
        /\ Position.size pos = entry_size (balance s) (Row.close r)).
Proof.
  intros Hclose Hcap Hsig e.
  pose proof (size_too_small_never (balance s) Hclose) as Hsmall.
  assert (Hrsi : ltb rsi rsi_oversold = true).
  { unfold entry_signal in Hsig.
    apply andb_prop in Hsig. destruct Hsig as [Hsig _].
    apply andb_prop in Hsig. tauto. }
  destruct (log_partial_ledger r rsi macd signal hist s)
    as (Hb & Hp & _ & Hu & Hso & _).
  assert (He : e = if insufficient_balance (balance s) (Row.close r)
                   then Rejected (log_partial r rsi macd signal hist s)
                   else Proceed (open_position i r macd signal hist atr
                                   (log_partial r rsi macd signal hist s))).
  { subst e. unfold check_entry.
    apply Nat.ltb_lt in Hcap. rewrite Hcap, Hrsi, Hsig.
    unfold entry_rejected. rewrite Hb, Hsmall, orb_false_r. reflexivity. }
  split; [exact Hsmall|].
  rewrite He. unfold insufficient_balance. cbn [ltb Q_Num].
  destruct (Qltb (balance s) (position_size_usdt (balance s) (Row.close r)))
    eqn:E; cbn [is_rejected entry_state].
  - apply Qltb_lt in E.
    split; [split; [intros _; exact E | reflexivity]|].
    split; [intros _; repeat split; assumption | discriminate].
  - apply Qltb_ge in E.
    split; [split; [discriminate|]|].
    + intros Hlt. exfalso. exact (Qlt_not_le _ _ Hlt E).
    + split; [discriminate|]. intros _.
      eexists. cbn [open_position positions]. rewrite Hp, Hb.
      split; reflexivity.
Qed.

(** ** The profit factor *)

Lemma fold_left_Qplus (l : list Q) :
  forall a : Q, fold_left Qplus l a == a + fold_right Qplus 0 l.
Proof.
  induction l as [|x l IH]; intros a; cbn [fold_left fold_right].
  - lra.
  - rewrite IH. lra.
Qed.

Lemma py_sum_fold_right (l : list Q) : py_sum l == fold_right Qplus 0 l.
Proof.
  unfold py_sum. cbn [add lit Q_Num]. rewrite fold_left_Qplus. lra.
Qed.

Lemma gross_profit_spec (th : list (Trade.t Q)) :
  gross_profit th == spec_gross_profit th.
Proof.
  unfold gross_profit. rewrite py_sum_fold_right. cbn [ltb lit Q_Num].
  induction th as [|t th IH]; cbn [map filter fold_right spec_gross_profit].
  - reflexivity.
  - destruct (Qltb 0 (Trade.profit_loss t)); cbn [fold_right];
      [rewrite IH; reflexivity | exact IH].
Qed.

Lemma sum_of_losses_spec (th : list (Trade.t Q)) :
  py_sum (filter (fun p => Qltb p 0) (map (@Trade.profit_loss Q) th))
  == spec_gross_loss th.
Proof.
  rewrite py_sum_fold_right.
  induction th as [|t th IH]; cbn [map filter fold_right spec_gross_loss].
  - reflexivity.
  - destruct (Qltb (Trade.profit_loss t) 0); cbn [fold_right];
      [rewrite IH; reflexivity | exact IH].
Qed.

Lemma gross_loss_spec (th : list (Trade.t Q)) :
  gross_loss th == Qabs (spec_gross_loss th).
Proof.
  unfold gross_loss. cbn [absv ltb lit Q_Num].
  apply Qabs_wd, sum_of_losses_spec.
Qed.

Lemma spec_gross_loss_nonpos (th : list (Trade.t Q)) : spec_gross_loss th <= 0.
Proof.
  induction th as [|t th IH]; cbn [spec_gross_loss fold_right]; [lra|].
  destruct (Qltb (Trade.profit_loss t) 0) eqn:E; [|exact IH].
  apply Qltb_lt in E. fold (spec_gross_loss th). lra.
Qed.

Lemma spec_gross_loss_neg (th : list (Trade.t Q)) :
  (exists t : Trade.t Q, In t th /\ losing_trade t) -> spec_gross_loss th < 0.
Proof.
  intros (t & Hin & Hl). unfold losing_trade in Hl.
  induction th as [|t' th IH]; [destruct Hin|].
  cbn [spec_gross_loss fold_right]. fold (spec_gross_loss th).
  pose proof (spec_gross_loss_nonpos th) as Hle.
  destruct Hin as [->|Hin].
  - apply Qltb_lt in Hl. rewrite Hl. apply Qltb_lt in Hl. lra.
  - specialize (IH Hin).
    destruct (Qltb (Trade.profit_loss t') 0) eqn:E; [|exact IH].
    apply Qltb_lt in E. lra.
Qed.

Lemma spec_gross_loss_none (th : list (Trade.t Q)) :
  (forall t : Trade.t Q, In t th -> ~ losing_trade t) ->
  filter (fun p => Qltb p 0) (map (@Trade.profit_loss Q) th) = [].
Proof.
  intros Hall. induction th as [|t th IH]; cbn [map filter]; [reflexivity|].
  destruct (Qltb (Trade.profit_loss t) 0) eqn:E.
  - apply Qltb_lt in E. exfalso. exact (Hall t (or_introl eq_refl) E).
  - apply IH. intros t' Hin. apply Hall. now right.
Qed.

(** C8.  The profit factor is the gross profit, the sum of the strictly
    positive trade profits, divided by the absolute value of the gross loss,
    the sum of the strictly negative ones: when the log has a losing trade
    the divisor is not zero and that quotient is the result; when it has none
    the result is the infinite sentinel, and nothing is divided. *)
Theorem C8_profit_factor (th : list (Trade.t Q)) :
  ((forall t : Trade.t Q, In t th -> ~ losing_trade t) ->
   profit_factor th = Infinity)
  /\ ((exists t : Trade.t Q, In t th /\ losing_trade t) ->
      ~ Qabs (spec_gross_loss th) == 0
      /\ exists q : Q,
           profit_factor th = Finite q
           /\ q == spec_gross_profit th / Qabs (spec_gross_loss th)).
Proof.
  split.
  - intros Hall. unfold profit_factor, gross_loss. cbn [ltb lit Q_Num].
    rewrite (spec_gross_loss_none th Hall). reflexivity.
  - intros Hex. apply spec_gross_loss_neg in Hex.
    assert (Hne : ~ Qabs (spec_gross_loss th) == 0).
    { rewrite Qabs_neg by lra. lra. }
    split; [exact Hne|].
    exists (gross_profit th / gross_loss th). split.
    + unfold profit_factor. cbn [eqb lit div Q_Num].
      destruct (Qeq_bool (gross_loss th) 0) eqn:E; [|reflexivity].
      apply Qeq_bool_iff in E. rewrite gross_loss_spec in E. contradiction.
    + rewrite gross_profit_spec, gross_loss_spec. reflexivity.
Qed.

(** ** The rejected entry and the exit checks *)

(** When the entry block ends by the [continue] of a rejected entry, the
    iteration ends there: the positions are as they were, no counter is
    incremented, no exit condition is looked at, no trade is recorded. *)
Lemma step_rejected_skips_exits {R : Type} `{Num R} (i : nat) (r : Row.t R)
  (rsi macd signal hist atr volume_sma : R) (s s1 : state R) :
  indicators r = Some (rsi, macd, signal, hist, atr, volume_sma) ->
  ltb atr min_atr = false ->
  check_entry i r rsi macd signal hist atr volume_sma (count_rsi_below rsi s)
  = Rejected s1 ->
  step i r s = s1
  /\ positions (step i r s) = positions s
  /\ trade_history (step i r s) = trade_history s.
Proof.
  intros Hi Ha He. unfold step. rewrite Hi, Ha, He.
  apply check_entry_rejected in He.
  destruct He as (_ & Hp & Ht & _).
  destruct (count_rsi_below_ledger rsi s) as (_ & Hp' & Ht' & _).
  repeat split; congruence.
Qed.

(** C1, on [held_frame].  After the entry of iteration 1 one position is
    open, with its counter at 1.  The candle of iteration 2 is eligible, its
    low is under the stop of the position, and its entry signal is rejected
    for insufficient balance: the position stays open with its counter at 1
    and no trade is recorded.  On [sold_frame], the same candles without an
    entry signal on the second, the position is closed by its stop-loss. *)
Theorem C1_rejected_entry_skips_exit_checks :
  eligible costly_signal = true
  /\ is_rejected (check_entry 2 costly_signal 10 0 0 0 1 1
                    (count_rsi_below 10 (state_after 1 held_frame))) = true
  /\ map (@Position.position_candles Q) (positions (state_after 1 held_frame))
     = [1%nat]
  /\ map (closing costly_signal)
         (map age (positions (state_after 1 held_frame))) = [true]
  /\ map (@Position.position_candles Q) (positions (state_after 2 held_frame))
     = [1%nat]
  /\ trade_history (state_after 2 held_frame) = []
  /\ positions (state_after 2 sold_frame) = []
  /\ map (@Trade.exit_type Q) (trade_history (state_after 2 sold_frame))
     = [StopLoss].
Proof. repeat split; vm_compute; reflexivity. Qed.

(** C6, on [fallen_frame].  Rows 0 to 12 have no RSI, row 13 has an RSI of
    0, row 14 an RSI of 50: the filter keeps row 14 alone, so the thirteen
    rows without an RSI are dropped with row 13, and the frame is re-indexed
    from 0.  On [steady_frame], where no RSI is under 1.0, the rows without an
    RSI stay. *)
Theorem C6_filter_drops_rows_without_rsi :
  map (fun ir => Row.rsi (snd ir)) fallen_frame
  = repeat None 13 ++ [Some 0; Some 50]
  /\ map fst (filter_rsi fallen_frame) = [14%nat]
  /\ map fst (postprocess fallen_frame) = [0%nat]
  /\ map (fun ir => Row.rsi (snd ir)) (postprocess fallen_frame) = [Some 50]
  /\ filter_rsi steady_frame = steady_frame
  /\ map fst (postprocess steady_frame) = seq 0 15.
Proof. repeat split; vm_compute; reflexivity. Qed.

(** C5 as stated fails.  On the frame [warmup; dip_signal] the position
    entered at index 1 is stopped out on the same candle: its counter is 1,
    the [candles_held] of its trade record is 0.  On [skipping_frame] the
    position is entered at index 1 and closed at index 4 after two skipped
    candles: [candles_held] is 3 and the counter is 2. *)
Lemma C5_counterexample :
  In (sample_close dip_signal) (closed_in_step 1 dip_signal (entered_on dip_signal))
  /\ Position.position_candles (fst (sample_close dip_signal)) = 1%nat
  /\ Trade.candles_held (snd (sample_close dip_signal)) = 0%Z
  /\ map (@Trade.candles_held Q)
         (snd (fst (run_backtest no_files [warmup; dip_signal]))) = [0%Z]
  /\ map (@Trade.candles_held Q)
         (snd (fst (run_backtest no_files skipping_frame))) = [3%Z]
  /\ map (fun pt => Position.position_candles (fst pt))
         (closed_in_step 4 (retime_row (fun _ => 1200%Z) plain_drop)
                         (state_after 3 skipping_frame)) = [2%nat].
Proof.
  repeat split; try (vm_compute; reflexivity).
  vm_compute. left. reflexivity.
Qed.

(** ** The theorems at sample inputs *)

(** C3 on [signals_frame]: after three entries the book is full, and the
    entry block of the fourth signal does nothing. *)
Lemma C3_open_positions_bounded_witness :
  (max_positions
   <= length (positions (count_rsi_below 10%Q (state_after 3 signals_frame))))%nat
  /\ check_entry 4 (retime_row (fun _ => 1200%Z) quiet_signal) 10 0 0 0 1 1
                 (count_rsi_below 10%Q (state_after 3 signals_frame))
     = Proceed (count_rsi_below 10%Q (state_after 3 signals_frame)).
Proof.
  assert (Hfull : (max_positions
                   <= length (positions (count_rsi_below 10%Q
                                (state_after 3 signals_frame))))%nat)
    by (vm_compute; lia).
  split; [exact Hfull|].
  exact (proj1 (proj2 (proj2 (proj2
           (C3_open_positions_bounded 3 signals_frame 4
              (retime_row (fun _ => 1200%Z) quiet_signal) 10 0 0 0 1 1))))
           Hfull).
Defined.

(** C4 on [wide_signal]: the stop and the target of the position entered on
    the candle are both inside its range, and the trade is a stop-loss. *)
Lemma C4_exit_type_by_priority_witness :
  In (sample_close wide_signal)
     (closed_in_step 1 wide_signal (entered_on wide_signal))
  /\ leb (Row.low wide_signal)
         (Position.stop_loss (fst (sample_close wide_signal))) = true
  /\ leb (Position.take_profit (fst (sample_close wide_signal)))
         (Row.high wide_signal) = true
  /\ Trade.exit_type (snd (sample_close wide_signal)) = StopLoss.
Proof.
  assert (Hin : In (sample_close wide_signal)
                   (closed_in_step 1 wide_signal (entered_on wide_signal)))
    by (vm_compute; left; reflexivity).
  assert (Hsl : leb (Row.low wide_signal)
                    (Position.stop_loss (fst (sample_close wide_signal))) = true)
    by (vm_compute; reflexivity).
  assert (Htp : leb (Position.take_profit (fst (sample_close wide_signal)))
                    (Row.high wide_signal) = true)
    by (vm_compute; reflexivity).
  split; [exact Hin|]. split; [exact Hsl|]. split; [exact Htp|].
  destruct (sample_close wide_signal) as [pos t].
  exact (proj2 (proj2 (proj1 C4_exit_type_by_priority 1%nat wide_signal
                         (entered_on wide_signal) pos t Hin)) Hsl).
Defined.

Lemma gap_injective (a b : Z) : gap a = gap b -> a = b.
Proof.
  unfold gap.
  destruct (Z.ltb_spec a 600), (Z.ltb_spec b 600); lia.
Defined.

(** C8 on [mixed_log], which has a losing trade, and on [winning_log], which
    has none (its trade at 0 is not one). *)
Lemma C8_profit_factor_witness :
  (exists t : Trade.t Q, In t mixed_log /\ losing_trade t)
  /\ (exists q : Q, profit_factor mixed_log = Finite q
                    /\ q == spec_gross_profit mixed_log
                            / Qabs (spec_gross_loss mixed_log))
  /\ (forall t : Trade.t Q, In t winning_log -> ~ losing_trade t)
  /\ profit_factor winning_log = Infinity.
Proof.
  assert (Hloss : exists t : Trade.t Q, In t mixed_log /\ losing_trade t).
  { exists (trade_with (-2)). split; [right; left; reflexivity|].
    vm_compute. reflexivity. }
  assert (Hnone : forall t : Trade.t Q, In t winning_log -> ~ losing_trade t).
  { intros t [<-|[<-|[]]]; vm_compute; discriminate. }
  split; [exact Hloss|].
  split; [exact (proj2 (proj2 (C8_profit_factor mixed_log) Hloss))|].
  split; [exact Hnone|].
  exact (proj1 (C8_profit_factor winning_log) Hnone).
Defined.

(** C10 on [held_frame]: the signal at 20000 asks for 10, the cash balance is
    under 8, and the entry is rejected with the ledger untouched. *)
Lemma C10_rejected_iff_capital_exceeds_balance_witness :
  0 < Row.close costly_signal
  /\ (length (positions (count_rsi_below 10%Q (state_after 1 held_frame)))
      < max_positions)%nat
  /\ entry_signal costly_signal 10 0 1 = true
  /\ size_too_small (balance (count_rsi_below 10%Q (state_after 1 held_frame)))
                    (Row.close costly_signal) = false
  /\ (is_rejected (check_entry 2 costly_signal 10 0 0 0 1 1
                     (count_rsi_below 10%Q (state_after 1 held_frame))) = true
      <-> balance (count_rsi_below 10%Q (state_after 1 held_frame))
          < position_size_usdt
              (balance (count_rsi_below 10%Q (state_after 1 held_frame)))
              (Row.close costly_signal)).
Proof.
  assert (Hc : 0 < Row.close costly_signal) by (vm_compute; reflexivity).
  assert (Hl : (length (positions (count_rsi_below 10%Q
                                     (state_after 1 held_frame)))
                < max_positions)%nat) by (vm_compute; lia).
  assert (Hs : entry_signal costly_signal 10 0 1 = true)
    by (vm_compute; reflexivity).
  repeat (split; [assumption|]).
  pose proof (C10_rejected_iff_capital_exceeds_balance 2 costly_signal 10 0 0 0
                1 1 (count_rsi_below 10%Q (state_after 1 held_frame)) Hc Hl Hs)
    as (Hsmall & Hiff & _).
  split; [exact Hsmall | exact Hiff].
Defined.

(** * Further properties of the engine *)

Section LedgerInvariants.

Context {R : Type} `{Num R}.

Local Open Scope nat_scope.

(** What every close keeps, the exit loop keeps. *)
Lemma exit_loop_preserves (P : state R -> Prop) (i : nat) (r : Row.t R) :
  (forall (pos : Position.t R) (ty : exit_type) (px : R) (s : state R),
     P s -> P (close_position i r pos ty px s)) ->
  forall (ps : list (Position.t R)) (s : state R) (tc : list (Position.t R)),
    P s -> P (snd (fst (exit_loop i r ps s tc))).
Proof.
  intros Hclose. induction ps as [|pos0 rest IH]; intros s tc Hs;
    cbn [exit_loop]; [exact Hs|].
  destruct (check_exit r (age pos0)) as [[ty px]|].
  - specialize (IH (close_position i r (age pos0) ty px s)
                   (tc ++ [age pos0]) (Hclose _ _ _ _ Hs)).
    destruct (exit_loop i r rest _ _) as [[aged s'] tc']. exact IH.
  - specialize (IH s tc Hs).
    destruct (exit_loop i r rest s tc) as [[aged s'] tc']. exact IH.
Qed.

Lemma close_position_books (i : nat) (r : Row.t R) (pos : Position.t R)
  (ty : exit_type) (px : R) (s : state R) :
  books_agree s -> books_agree (close_position i r pos ty px s).
Proof.
  intros (Ht & Hw & Hu & Hp & Hc & Hr). unfold books_agree, close_position.
  cbn [trades wins usdt_balance balance trade_history partial_condition_count
       partial_file rsi_below_threshold_count].
  rewrite length_app, filter_app, length_app. cbn [length filter].
  unfold is_win at 2. cbn [trade_entry Trade.win_loss].
  repeat split; try assumption; try lia.
  destruct (ltb (lit 0) (profit_loss_of pos px)); cbn [length]; lia.
Qed.

Lemma check_exits_books (i : nat) (r : Row.t R) (s : state R) :
  books_agree s -> books_agree (check_exits i r s).
Proof.
  intros Hs.
  pose proof (exit_loop_preserves books_agree i r
                (close_position_books i r) (positions s) s [] Hs) as He.
  unfold check_exits.
  destruct (exit_loop i r (positions s) s []) as [[aged s1] tc].
  exact He.
Qed.

Lemma step_books (i : nat) (r : Row.t R) (s : state R) :
  books_agree s -> books_agree (step i r s).
Proof.
  intros Hs. unfold step.
  destruct (indicators r) as [[[[[[rsi macd] signal] hist] atr] vsma]|];
    [|exact Hs].
  destruct (ltb atr min_atr); [exact Hs|].
  destruct Hs as (Ht & Hw & Hu & Hp & Hc & Hr).
  unfold check_entry, count_rsi_below, log_partial.
  destruct (ltb rsi rsi_oversold);
    cbn [positions partial_condition_count balance];
    destruct (length (positions s) <? max_positions);
    try destruct (partial_condition_count s <? 1000) eqn:Ecap;
    try apply Nat.ltb_lt in Ecap;
    try destruct (entry_signal r rsi hist vsma);
    cbn [balance];
    try destruct (entry_rejected (balance s) (Row.close r));
    try apply check_exits_books;
    unfold books_agree, open_position;
    cbn [trades wins usdt_balance balance trade_history
         partial_condition_count partial_file rsi_below_threshold_count];
    rewrite ?length_app; cbn [length];
    repeat split; try assumption; try lia.
Qed.

Lemma state_after_books (k : nat) (df : list (Row.t R)) :
  books_agree (state_after k df).
Proof.
  apply (state_after_invariant books_agree).
  - unfold books_agree. cbn. repeat split; lia.
  - exact step_books.
Qed.

(** X1.  At every iteration the counters agree with the log: [trades] is the
    number of trade records and [wins] the number of those marked Win;
    [usdt_balance] is [balance]; at most 1000 partial-condition lines are
    written, [partial_condition_count] is their number and never exceeds
    [rsi_below_threshold_count]. *)
Theorem X1_books_agree (k : nat) (df : list (Row.t R)) :
  let s := state_after k df in
  trades s = length (trade_history s)
  /\ wins s = length (filter is_win (trade_history s))
  /\ usdt_balance s = balance s
  /\ partial_condition_count s = length (partial_file s)
  /\ partial_condition_count s <= 1000
  /\ partial_condition_count s <= rsi_below_threshold_count s.
Proof. exact (state_after_books k df). Qed.

(** X2.  [analyze_trades] of [analysetradehistory.py], on the
    [trade_history.csv] a run leaves, reports the counters of that run (total
    [trades], [wins], and the win rate [run_backtest] logs) when the run
    closed a trade; when it closed none the file is the one found before the
    run, and the report is that of the earlier run. *)
Theorem X2_analysis_matches_run (fs : files R) (df : list (Row.t R)) :
  (trade_history (final_state df) <> [] ->
   analyze_trades (trade_history_csv (snd (run_backtest fs df)))
   = Some (Summary.mk (trades (final_state df)) (wins (final_state df))
                      (trades (final_state df) - wins (final_state df))
                      (win_rate (final_state df))))
  /\ (trade_history (final_state df) = [] ->
      analyze_trades (trade_history_csv (snd (run_backtest fs df)))
      = analyze_trades (trade_history_csv fs)).
Proof.
  pose proof (state_after_books (length (tl df)) df) as Hb.
  rewrite state_after_all in Hb. fold (final_state df) in Hb.
  destruct Hb as (Ht & Hw & _).
  unfold run_backtest. fold (final_state df). cbn [snd trade_history_csv].
  unfold win_rate. rewrite Ht, Hw.
  destruct (trade_history (final_state df)) as [|t th] eqn:E.
  - split; [intros Hne; now destruct Hne | reflexivity].
  - split; [reflexivity | discriminate].
Qed.

(** ** The open positions *)

Lemma state_after_invariant_indexed (df : list (Row.t R))
  (P : nat -> state R -> Prop) :
  P 0 init_state ->
  (forall (k : nat) (r : Row.t R) (s : state R),
     nth_error df (S k) = Some r -> P k s -> P (S k) (step (S k) r s)) ->
  (forall (k : nat) (s : state R), P k s -> P (S k) s) ->
  forall k : nat, P k (state_after k df).
Proof.
  intros H0 Hstep Hmono k. induction k as [|k IH].
  - exact H0.
  - rewrite state_after_S, nth_error_tl.
    destruct (nth_error df (S k)) as [r|] eqn:E; auto.
Qed.

Lemma list_remove_incl (x p : Position.t R) (ps : list (Position.t R)) :
  In p (list_remove x ps) -> In p ps.
Proof.
  induction ps as [|q rest IH]; cbn [list_remove]; [tauto|].
  destruct (position_eqb q x); cbn [In]; tauto.
Qed.

Lemma remove_closed_incl (tc : list (Position.t R)) (p : Position.t R) :
  forall ps : list (Position.t R), In p (remove_closed tc ps) -> In p ps.
Proof.
  unfold remove_closed.
  induction tc as [|x tc IH]; intros ps; cbn [fold_left]; [tauto|].
  intros Hin. apply (list_remove_incl x). apply IH. exact Hin.
Qed.

Lemma list_remove_oldest_first (x : Position.t R) (ps : list (Position.t R)) :
  oldest_first ps -> oldest_first (list_remove x ps).
Proof.
  unfold oldest_first.
  induction ps as [|q rest IH]; cbn [list_remove map]; [tauto|].
  intros Hs. apply StronglySorted_inv in Hs. destruct Hs as [Hs Hall].
  destruct (position_eqb q x); [exact Hs|].
  cbn [map]. constructor; [exact (IH Hs)|].
  rewrite Forall_forall in *. intros n Hn.
  apply in_map_iff in Hn. destruct Hn as (p & <- & Hp).
  apply Hall, in_map, (list_remove_incl x), Hp.
Qed.

Lemma remove_closed_oldest_first (tc : list (Position.t R)) :
  forall ps : list (Position.t R),
    oldest_first ps -> oldest_first (remove_closed tc ps).
Proof.
  unfold remove_closed.
  induction tc as [|x tc IH]; intros ps Hs; cbn [fold_left]; [exact Hs|].
  apply IH, list_remove_oldest_first, Hs.
Qed.

(** The positions the exit checks leave: the aged ones, less the removals. *)
Lemma check_exits_positions (i : nat) (r : Row.t R) (s : state R) :
  positions (check_exits i r s)
  = remove_closed (filter (closing r) (map age (positions s)))
                  (map age (positions s)).
Proof.
  unfold check_exits.
  destruct (exit_loop_spec i r (positions s) s []) as (s' & th & -> & _).
  reflexivity.
Qed.

(** The two ways the entry block ends, in full. *)
Lemma check_entry_cases (i : nat) (r : Row.t R)
  (rsi macd signal hist atr volume_sma : R) (s : state R) :
  let e := check_entry i r rsi macd signal hist atr volume_sma s in
  (positions (entry_state e) = positions s
   /\ balance (entry_state e) = balance s)
  \/ (is_rejected e = false
      /\ length (positions s) < max_positions
      /\ entry_signal r rsi hist volume_sma = true
      /\ entry_rejected (balance s) (Row.close r) = false
      /\ positions (entry_state e)
         = positions s ++ [new_position i r macd signal hist atr (balance s)]
      /\ balance (entry_state e)
         = sub (balance s)
               (mul (position_size_usdt (balance s) (Row.close r))
                    (add (lit 1) (div fee_percent (lit 100))))).
Proof.
  cbv zeta. unfold check_entry.
  destruct (length (positions s) <? max_positions) eqn:L; [|now left].
  apply Nat.ltb_lt in L.
  set (s1 := if ltb rsi rsi_oversold
             then log_partial r rsi macd signal hist s else s).
  assert (H1 : positions s1 = positions s /\ balance s1 = balance s).
  { subst s1. destruct (ltb rsi rsi_oversold); [|now split].
    destruct (log_partial_ledger r rsi macd signal hist s) as (-> & -> & _).
    now split. }
  destruct H1 as [Hp Hb].
  destruct (entry_signal r rsi hist volume_sma); [|now left].
  destruct (entry_rejected (balance s1) (Row.close r)) eqn:E; [now left|].
  right. rewrite Hb in E.
  cbn [is_rejected entry_state open_position positions balance].
  rewrite Hp, Hb. repeat split; assumption.
Qed.

Lemma entered_within_mono (df : list (Row.t R)) (k : nat) (p : Position.t R) :
  entered_within df k p -> entered_within df (S k) p.
Proof.
  intros (Hi & Hc & Hr). repeat split; try lia. exact Hr.
Qed.

Lemma entered_within_age (df : list (Row.t R)) (k : nat) (p : Position.t R) :
  entered_within df k p -> entered_within df (S k) (age p).
Proof.
  intros (Hi & Hc & Hr). unfold entered_within.
  cbn [age Position.entry_index Position.position_candles Position.entry_time].
  repeat split; try lia. exact Hr.
Qed.

Lemma entered_within_new (df : list (Row.t R)) (k : nat) (r : Row.t R)
  (macd signal hist atr bal : R) :
  nth_error df (S k) = Some r ->
  entered_within df (S k) (age (new_position (S k) r macd signal hist atr bal)).
Proof.
  intros Hr. unfold entered_within.
  cbn [age new_position Position.entry_index Position.position_candles
       Position.entry_time].
  repeat split; try lia. exists r. split; [exact Hr | reflexivity].
Qed.

Lemma oldest_first_age (ps : list (Position.t R)) :
  oldest_first ps -> oldest_first (map age ps).
Proof.
  unfold oldest_first. rewrite map_map. intros Hs. exact Hs.
Qed.

Lemma oldest_first_snoc (ps : list (Position.t R)) (p : Position.t R) :
  oldest_first ps ->
  Forall (fun q => Position.entry_index q < Position.entry_index p) ps ->
  oldest_first (ps ++ [p]).
Proof.
  unfold oldest_first.
  induction ps as [|q rest IH]; cbn [app map]; intros Hs Hall.
  - constructor; constructor.
  - apply StronglySorted_inv in Hs. destruct Hs as [Hs Hq].
    apply Forall_cons_iff in Hall. destruct Hall as [Hqp Hall].
    constructor; [exact (IH Hs Hall)|].
    rewrite map_app, Forall_app. split; [exact Hq|].
    constructor; [exact Hqp | constructor].
Qed.

Lemma step_positions_entered (df : list (Row.t R)) (k : nat) (r : Row.t R)
  (s : state R) :
  nth_error df (S k) = Some r ->
  Forall (entered_within df k) (positions s) /\ oldest_first (positions s) ->
  Forall (entered_within df (S k)) (positions (step (S k) r s))
  /\ oldest_first (positions (step (S k) r s)).
Proof.
  intros Hr [Hall Hs].
  assert (Hkeep : Forall (entered_within df (S k)) (positions s)
                  /\ oldest_first (positions s)).
  { split; [|exact Hs].
    eapply Forall_impl; [|exact Hall]. apply entered_within_mono. }
  unfold step.
  destruct (indicators r) as [[[[[[rsi macd] signal] hist] atr] vsma]|];
    [|exact Hkeep].
  destruct (ltb atr min_atr); [exact Hkeep|].
  assert (Hc : positions (count_rsi_below rsi s) = positions s)
    by apply count_rsi_below_ledger.
  pose proof (check_entry_cases (S k) r rsi macd signal hist atr vsma
                (count_rsi_below rsi s)) as He.
  cbv zeta in He. rewrite Hc in He.
  destruct (check_entry _ _ _ _ _ _ _ _ _) as [s1|s1] eqn:E;
    cbn [entry_state is_rejected] in He.
  - destruct He as [[-> _]|(Hf & _)]; [exact Hkeep | discriminate].
  - rewrite check_exits_positions.
    assert (Haged : Forall (entered_within df (S k)) (map age (positions s1))
                    /\ oldest_first (map age (positions s1))).
    { destruct He as [[-> _]|(_ & _ & _ & _ & -> & _)].
      - split; [|apply oldest_first_age, Hs].
        rewrite Forall_map. eapply Forall_impl; [|exact Hall].
        apply entered_within_age.
      - split.
        + rewrite map_app, Forall_app. split.
          * rewrite Forall_map. eapply Forall_impl; [|exact Hall].
            apply entered_within_age.
          * constructor; [|constructor]. apply entered_within_new, Hr.
        + apply oldest_first_age, oldest_first_snoc; [exact Hs|].
          eapply Forall_impl; [|exact Hall].
          intros q (Hi & _). cbn [new_position Position.entry_index]. lia. }
    destruct Haged as [Ha Ho]. split.
    + rewrite Forall_forall in *. intros p Hp.
      apply Ha. eapply remove_closed_incl. exact Hp.
    + apply remove_closed_oldest_first, Ho.
Qed.

Lemma state_after_positions_entered (df : list (Row.t R)) (k : nat) :
  Forall (entered_within df k) (positions (state_after k df))
  /\ oldest_first (positions (state_after k df)).
Proof.
  apply (state_after_invariant_indexed df
           (fun k s => Forall (entered_within df k) (positions s)
                       /\ oldest_first (positions s))).
  - split; [constructor | constructor].
  - intros k' r s Hr Hs. apply step_positions_entered; assumption.
  - intros k' s [Hall Hs]. split; [|exact Hs].
    eapply Forall_impl; [|exact Hall]. apply entered_within_mono.
Qed.

(** X3.  After [k] iterations every open position was entered on one of the
    rows 1..k of the frame, carries the timestamp of that row as its
    [entry_time], and has a counter between 1 and the number of iterations
    since its entry, that one included; the positions stand in the order of
    their entries, no two entered on the same row. *)
Theorem X3_open_positions_entered (k : nat) (df : list (Row.t R)) :
  Forall (fun p : Position.t R =>
            1 <= Position.entry_index p <= k
            /\ 1 <= Position.position_candles p
                <= S k - Position.entry_index p
            /\ exists r : Row.t R,
                 nth_error df (Position.entry_index p) = Some r
                 /\ Position.entry_time p = Row.timestamp r)
         (positions (state_after k df))
  /\ StronglySorted lt
       (map (@Position.entry_index R) (positions (state_after k df))).
Proof. exact (state_after_positions_entered df k). Qed.

(** ** The hold counter and the recorded hold *)

(** An iteration either leaves the loop body before the exit checks, with the
    positions and the trade log as they were, or runs the exit checks on the
    positions it found, with the one entered in it, if any, at their end. *)
Lemma step_reaches_exit_checks (i : nat) (r : Row.t R) (s : state R) :
  (positions (step i r s) = positions s
   /\ trade_history (step i r s) = trade_history s)
  \/ exists s1 : state R,
       step i r s = check_exits i r s1
       /\ trade_history s1 = trade_history s
       /\ (positions s1 = positions s
           \/ exists p : Position.t R,
                positions s1 = positions s ++ [p]
                /\ Position.entry_index p = i
                /\ Position.position_candles p = 0).
Proof.
  unfold step.
  destruct (indicators r) as [[[[[[rsi macd] signal] hist] atr] vsma]|];
    [|now left].
  destruct (ltb atr min_atr); [now left|].
  destruct (count_rsi_below_ledger rsi s) as (_ & Hp & Ht & _).
  pose proof (check_entry_positions i r rsi macd signal hist atr vsma
                (count_rsi_below rsi s)) as Hpos.
  pose proof (check_entry_trade_history i r rsi macd signal hist atr vsma
                (count_rsi_below rsi s)) as Hth.
  destruct (check_entry i r rsi macd signal hist atr vsma
                        (count_rsi_below rsi s)) as [s1|s1] eqn:E.
  - left. apply check_entry_rejected in E.
    destruct E as (_ & E1 & E2 & _). split; congruence.
  - right. exists s1. cbn [entry_state] in Hpos, Hth.
    split; [reflexivity|]. split; [congruence|].
    destruct Hpos as [Hpos|(_ & p & Hi & Hc & Hpos)].
    + left. congruence.
    + right. exists p. rewrite Hpos, Hp. now repeat split.
Qed.

(** Every position the exit checks leave open was open at their start and
    has had its counter incremented once. *)
Lemma check_exits_aged (i : nat) (r : Row.t R) (s : state R) :
  Forall (fun p => exists p0 : Position.t R,
                     In p0 (positions s)
                     /\ p = age p0
                     /\ Position.position_candles p
                        = S (Position.position_candles p0))
         (positions (check_exits i r s)).
Proof.
  apply Forall_forall. intros p Hin.
  rewrite check_exits_positions in Hin.
  apply remove_closed_incl in Hin.
  apply in_map_iff in Hin. destruct Hin as (p0 & <- & Hp0).
  exists p0. now repeat split.
Qed.

(** C5, amended.  The [candles_held] of a trade record is the index of the
    candle on which the position closes minus the [entry_index] of the
    position, the raw index distance, and not the hold counter
    [position_candles].  That counter is incremented exactly once on every
    open position by the exit checks of an iteration, before any position is
    closed or removed: the positions closed are the incremented ones on which
    an exit condition holds, the positions left are the incremented ones
    less the removals.  An iteration that does not reach the exit checks
    leaves positions and trade log as they were; one that does runs them on
    the open positions and on the position entered in it, whose counter is
    0.  No timestamp enters any of this: on the same rows with their
    timestamps mapped injectively, so with a wall-clock gap opened anywhere,
    the returned trades record the same [candles_held] and the open
    positions carry the same counters. *)
Theorem C5_candles_held_is_index_distance :
  (forall (i : nat) (r : Row.t R) (s : state R) (pos : Position.t R)
          (t : Trade.t R),
     In (pos, t) (closed_in_step i r s) ->
     Trade.candles_held t
     = (Z.of_nat i - Z.of_nat (Position.entry_index pos))%Z
     /\ exists p0 : Position.t R,
          In p0 (positions s)
          /\ pos = age p0
          /\ Position.position_candles pos = S (Position.position_candles p0))
  /\ (forall (fs : files R) (df : list (Row.t R)) (t : Trade.t R),
        In t (snd (fst (run_backtest fs df))) ->
        exists (j : nat) (r : Row.t R) (s1 : state R) (pos : Position.t R),
          nth_error df (S j) = Some r
          /\ In (pos, t) (closed_in_step (S j) r s1)
          /\ Trade.candles_held t
             = (Z.of_nat (S j) - Z.of_nat (Position.entry_index pos))%Z)
  /\ (forall (f : Z -> Z) (fs fs' : files R) (df : list (Row.t R)),
        (forall a b : Z, f a = f b -> a = b) ->
        map (@Trade.candles_held R)
            (snd (fst (run_backtest fs' (map (retime_row f) df))))
        = map (@Trade.candles_held R) (snd (fst (run_backtest fs df))))
  /\ (forall (i : nat) (r : Row.t R) (s : state R),
        map fst (closed_in_step i r s)
        = filter (closing r) (map age (positions s))
        /\ positions (check_exits i r s)
           = remove_closed (filter (closing r) (map age (positions s)))
                           (map age (positions s))
        /\ Forall (fun p => exists p0 : Position.t R,
                              In p0 (positions s)
                              /\ p = age p0
                              /\ Position.position_candles p
                                 = S (Position.position_candles p0))
                  (positions (check_exits i r s)))
  /\ (forall (i : nat) (r : Row.t R) (s : state R),
        (positions (step i r s) = positions s
         /\ trade_history (step i r s) = trade_history s)
        \/ exists s1 : state R,
             step i r s = check_exits i r s1
             /\ trade_history s1 = trade_history s
             /\ (positions s1 = positions s
                 \/ exists p : Position.t R,
                      positions s1 = positions s ++ [p]
                      /\ Position.entry_index p = i
                      /\ Position.position_candles p = 0))
  /\ (forall (f : Z -> Z) (k : nat) (df : list (Row.t R)),
        (forall a b : Z, f a = f b -> a = b) ->
        map (@Position.position_candles R)
            (positions (state_after k (map (retime_row f) df)))
        = map (@Position.position_candles R) (positions (state_after k df))).
Proof.
  split; [exact closed_in_step_candles_held|].
  split; [exact trade_candles_held|].
  split; [exact retime_candles_held|].
  split; [|split; [exact step_reaches_exit_checks
                  | exact retime_position_candles]].
  intros i r s.
  split; [apply closed_in_step_positions|].
  split; [apply check_exits_positions | apply check_exits_aged].
Qed.

End LedgerInvariants.

(** ** Where the terms of a position come from *)

Section Traceability.

Context {R : Type} `{Num R}.

Local Open Scope nat_scope.

Lemma made_on_age (df : list (Row.t R)) (p : Position.t R) :
  made_on df p -> made_on df (age p).
Proof. intros Hp. exact Hp. Qed.

Lemma step_made_on (df : list (Row.t R)) (k : nat) (r : Row.t R)
  (s : state R) :
  nth_error df (S k) = Some r ->
  Forall (made_on df) (positions s) ->
  Forall (made_on df) (positions (step (S k) r s)).
Proof.
  intros Hr Hall. unfold step.
  destruct (indicators r) as [[[[[[rsi macd] signal] hist] atr] vsma]|] eqn:Ei;
    [|exact Hall].
  destruct (ltb atr min_atr) eqn:Ea; [exact Hall|].
  assert (Hc : positions (count_rsi_below rsi s) = positions s)
    by apply count_rsi_below_ledger.
  pose proof (check_entry_cases (S k) r rsi macd signal hist atr vsma
                (count_rsi_below rsi s)) as He.
  cbv zeta in He. rewrite Hc in He.
  destruct (check_entry _ _ _ _ _ _ _ _ _) as [s1|s1] eqn:E;
    cbn [entry_state is_rejected] in He.
  - destruct He as [[-> _]|(Hf & _)]; [exact Hall | discriminate].
  - rewrite check_exits_positions.
    assert (Haged : Forall (made_on df) (map age (positions s1))).
    { rewrite Forall_map.
      destruct He as [[-> _]|(_ & _ & Hsig & Hrej & -> & _)].
      - eapply Forall_impl; [|exact Hall]. apply made_on_age.
      - rewrite Forall_app. split.
        + eapply Forall_impl; [|exact Hall]. apply made_on_age.
        + constructor; [|constructor].
          exists r, rsi, macd, signal, hist, atr, vsma,
                 (balance (count_rsi_below rsi s)).
          cbn [age new_position Position.entry_index].
          repeat split; assumption. }
    rewrite Forall_forall in *. intros p Hp.
    apply Haged. eapply remove_closed_incl. exact Hp.
Qed.

Lemma state_after_made_on (df : list (Row.t R)) (k : nat) :
  Forall (made_on df) (positions (state_after k df)).
Proof.
  apply (state_after_invariant_indexed df
           (fun _ s => Forall (made_on df) (positions s))).
  - constructor.
  - intros k' r s Hr Hs. apply step_made_on; assumption.
  - intros k' s Hs. exact Hs.
Qed.

(** The position behind a trade of the log. *)
Lemma trade_made_on (df : list (Row.t R)) (k : nat) (t : Trade.t R) :
  In t (trade_history (state_after k df)) ->
  exists (j : nat) (r : Row.t R) (pos : Position.t R),
    nth_error df j = Some r
    /\ Position.entry_index pos <= j
    /\ made_on df pos
    /\ closes j r pos t.
Proof.
  intros Hin.
  destruct (trade_origin df t k Hin)
    as (j & r & rsi & macd & signal & hist & atr & vsma & s1 & pos
        & _ & Hr & Hi & Ha & He & Hc).
  destruct (closed_in_step_closes (S j) r s1 pos t Hc) as [Hcl Hp].
  exists (S j), r, pos. split; [exact Hr|].
  assert (Hs1 : Forall (fun p => made_on df p /\ Position.entry_index p <= S j)
                       (map age (positions s1))).
  { pose proof (check_entry_cases (S j) r rsi macd signal hist atr vsma
                  (count_rsi_below rsi (state_after j df))) as Hcases.
    cbv zeta in Hcases. rewrite He in Hcases.
    cbn [entry_state is_rejected] in Hcases.
    assert (Hc' : positions (count_rsi_below rsi (state_after j df))
                  = positions (state_after j df))
      by apply count_rsi_below_ledger.
    rewrite Hc' in Hcases.
    assert (Hold : Forall (fun p => made_on df p
                                    /\ Position.entry_index p <= S j)
                          (map age (positions (state_after j df)))).
    { rewrite Forall_map, Forall_forall. intros p Hp'.
      pose proof (state_after_made_on df j) as Hm.
      destruct (state_after_positions_entered df j) as [Hent _].
      rewrite Forall_forall in Hm, Hent.
      split; [apply made_on_age, Hm, Hp'|].
      destruct (Hent p Hp') as (Hi' & _).
      cbn [age Position.entry_index]. lia. }
    destruct Hcases as [[-> _]|(_ & _ & Hsig & Hrej & -> & _)]; [exact Hold|].
    rewrite map_app, Forall_app. split; [exact Hold|].
    constructor; [|constructor]. split.
    - exists r, rsi, macd, signal, hist, atr, vsma,
             (balance (count_rsi_below rsi (state_after j df))).
      cbn [age new_position Position.entry_index].
      repeat split; assumption.
    - cbn [age new_position Position.entry_index]. lia. }
  rewrite Forall_forall in Hs1. destruct (Hs1 pos Hp) as [Hm Hle].
  repeat split; assumption.
Qed.

(** X4.  Every open position, and the position behind every trade of the
    log, is the one the entry block makes on the row at its [entry_index]:
    an eligible row with an entry signal, accepted at the cash balance of the
    time; its prices, size and indicator snapshot are those computed from
    that row, and only its counter has changed since.  A trade is recorded
    on a row at or after the entry row. *)
Theorem X4_positions_made_on_entry_row (k : nat) (df : list (Row.t R)) :
  Forall (made_on df) (positions (state_after k df))
  /\ Forall (fun t : Trade.t R =>
               exists (j : nat) (r : Row.t R) (pos : Position.t R),
                 nth_error df j = Some r
                 /\ Position.entry_index pos <= j
                 /\ made_on df pos
                 /\ closes j r pos t)
            (trade_history (state_after k df)).
Proof.
  split; [apply state_after_made_on|].
  apply Forall_forall. intros t Ht. exact (trade_made_on df k t Ht).
Qed.

End Traceability.

(** ** Removal of the closed positions, on exact rationals *)

Lemma position_eqb_index {R : Type} `{Num R} (p q : Position.t R) :
  position_eqb p q = true -> Position.entry_index p = Position.entry_index q.
Proof.
  unfold position_eqb. intros Hpq.
  repeat (apply andb_prop in Hpq; destruct Hpq as [Hpq ?]).
  now apply Nat.eqb_eq.
Qed.

Lemma position_eqb_refl (p : Position.t Q) : position_eqb p p = true.
Proof.
  unfold position_eqb. cbn [eqb Q_Num].
  rewrite !Nat.eqb_refl, Z.eqb_refl.
  repeat (rewrite (proj2 (Qeq_bool_iff _ _) (Qeq_refl _))).
  reflexivity.
Qed.

Lemma remove_closed_cons_keep {R : Type} `{Num R} (q : Position.t R)
  (tc : list (Position.t R)) :
  Forall (fun x => position_eqb q x = false) tc ->
  forall acc : list (Position.t R),
    remove_closed tc (q :: acc) = q :: remove_closed tc acc.
Proof.
  unfold remove_closed.
  induction 1 as [|x tc Hx _ IH]; intros acc; cbn [fold_left list_remove];
    [reflexivity|].
  rewrite Hx. apply IH.
Qed.

(** Removing, one [list.remove] at a time, the positions picked out of a list
    leaves the others in their order, when no two positions were entered on
    the same row. *)
Lemma remove_closed_filter (f : Position.t Q -> bool)
  (ps : list (Position.t Q)) :
  oldest_first ps ->
  remove_closed (filter f ps) ps = filter (fun p => negb (f p)) ps.
Proof.
  unfold oldest_first.
  induction ps as [|q rest IH]; cbn [map filter]; intros Hs; [reflexivity|].
  apply StronglySorted_inv in Hs. destruct Hs as [Hs Hall].
  destruct (f q); cbn [negb].
  - unfold remove_closed. cbn [fold_left list_remove].
    rewrite position_eqb_refl. exact (IH Hs).
  - rewrite remove_closed_cons_keep; [now rewrite (IH Hs)|].
    apply Forall_forall. intros x Hx. apply filter_In in Hx.
    destruct Hx as [Hx _].
    destruct (position_eqb q x) eqn:E; [|reflexivity].
    apply position_eqb_index in E. rewrite Forall_forall in Hall.
    specialize (Hall _ (in_map (@Position.entry_index Q) _ _ Hx)). lia.
Qed.

Lemma closing_false {R : Type} `{Num R} (r : Row.t R) (p : Position.t R) :
  closing r p = false ->
  leb (Row.low r) (Position.stop_loss p) = false
  /\ leb (Position.take_profit p) (Row.high r) = false
  /\ (Position.position_candles p < max_hold_candles)%nat.
Proof.
  unfold closing, check_exit.
  destruct (leb (Row.low r) (Position.stop_loss p)); [discriminate|].
  destruct (leb (Position.take_profit p) (Row.high r)); [discriminate|].
  destruct (max_hold_candles <=? Position.position_candles p)%nat eqn:E;
    [discriminate|].
  apply Nat.leb_gt in E. repeat split. exact E.
Qed.

(** The positions at the exit checks of iteration [k + 1] stand in the order
    of their entries. *)
Lemma entry_state_oldest_first {R : Type} `{Num R} (df : list (Row.t R))
  (k : nat) (r : Row.t R) (rsi macd signal hist atr vsma : R) :
  oldest_first
    (positions (entry_state
       (check_entry (S k) r rsi macd signal hist atr vsma
                    (count_rsi_below rsi (state_after k df))))).
Proof.
  destruct (state_after_positions_entered df k) as [Hent Hs].
  assert (Hc : positions (count_rsi_below rsi (state_after k df))
               = positions (state_after k df))
    by apply count_rsi_below_ledger.
  pose proof (check_entry_cases (S k) r rsi macd signal hist atr vsma
                (count_rsi_below rsi (state_after k df))) as He.
  cbv zeta in He. rewrite Hc in He.
  destruct He as [[-> _]|(_ & _ & _ & _ & -> & _)]; [exact Hs|].
  apply oldest_first_snoc; [exact Hs|].
  eapply Forall_impl; [|exact Hent].
  intros q (Hi & _). cbn [new_position Position.entry_index]. lia.
Qed.

Lemma check_exits_partition (df : list (Row.t Q)) (k : nat)
  (r : Row.t Q) (rsi macd signal hist atr vsma : Q) :
  let s1 := entry_state
              (check_entry (S k) r rsi macd signal hist atr vsma
                           (count_rsi_below rsi (state_after k df))) in
  positions (check_exits (S k) r s1)
  = filter (fun p => negb (closing r p)) (map age (positions s1)).
Proof.
  intros s1. rewrite check_exits_positions.
  apply remove_closed_filter, oldest_first_age.
  apply entry_state_oldest_first.
Qed.

(** X5.  In a run, the exit checks of every iteration leave open exactly the
    positions on which no exit condition holds, with their counters
    incremented and in their order: each [positions.remove(pos)] takes out
    the position it is called for and no other. *)
Theorem X5_exit_checks_partition (df : list (Row.t Q)) (k : nat)
  (r : Row.t Q) (rsi macd signal hist atr vsma : Q) :
  let s1 := entry_state
              (check_entry (S k) r rsi macd signal hist atr vsma
                           (count_rsi_below rsi (state_after k df))) in
  positions (check_exits (S k) r s1)
  = filter (fun p => negb (closing r p)) (map age (positions s1)).
Proof. exact (check_exits_partition df k r rsi macd signal hist atr vsma). Qed.

Lemma step_counter_bound (df : list (Row.t Q)) (k : nat) (r : Row.t Q) :
  Forall (fun p => (Position.position_candles p < max_hold_candles)%nat)
         (positions (state_after k df)) ->
  Forall (fun p => (Position.position_candles p < max_hold_candles)%nat)
         (positions (step (S k) r (state_after k df))).
Proof.
  intros Hall. unfold step.
  destruct (indicators r) as [[[[[[rsi macd] signal] hist] atr] vsma]|];
    [|exact Hall].
  destruct (Qltb atr min_atr) eqn:Ea; cbn [ltb Q_Num]; rewrite Ea;
    [exact Hall|].
  pose proof (check_exits_partition df k r rsi macd signal hist atr vsma)
    as Hpart.
  cbv zeta in Hpart.
  destruct (check_entry _ _ _ _ _ _ _ _ _) as [s1|s1] eqn:E;
    cbn [entry_state] in Hpart.
  - apply check_entry_rejected in E. destruct E as (_ & -> & _).
    destruct (count_rsi_below_ledger rsi (state_after k df)) as (_ & -> & _).
    exact Hall.
  - rewrite Hpart. apply Forall_forall. intros p Hp.
    apply filter_In in Hp. destruct Hp as [_ Hp].
    apply negb_true_iff in Hp. apply closing_false in Hp. tauto.
Qed.

(** X6.  No position stays open once its counter has reached
    [max_hold_candles]: after any number of iterations the counter of every
    open position is under 60. *)
Theorem X6_hold_counter_under_max (k : nat) (df : list (Row.t Q)) :
  Forall (fun p => (Position.position_candles p < max_hold_candles)%nat)
         (positions (state_after k df)).
Proof.
  induction k as [|k IH].
  - constructor.
  - rewrite state_after_S.
    destruct (nth_error (tl df) k) as [r|]; [|exact IH].
    apply step_counter_bound, IH.
Qed.

(** ** The sign of a profit, on exact rationals *)

Lemma indicators_atr (r : Row.t Q) (rsi macd signal hist atr vsma : Q) :
  indicators r = Some (rsi, macd, signal, hist, atr, vsma) ->
  Row.atr r = Some atr.
Proof.
  unfold indicators.
  destruct (Row.rsi r), (Row.macd r), (Row.signal r), (Row.hist r),
    (Row.atr r), (Row.volume_sma r); try discriminate.
  now intros [= _ _ _ _ -> _].
Qed.

(** The terms of a position made on a row of positive close. *)
Lemma made_on_terms (df : list (Row.t Q)) (p : Position.t Q) :
  Forall (fun r => 0 < Row.close r) df ->
  made_on df p ->
  exists (r0 : Row.t Q) (a : Q),
    nth_error df (Position.entry_index p) = Some r0
    /\ Row.atr r0 = Some a
    /\ 0 < Row.close r0
    /\ 0.01 <= a
    /\ 0.0005 <= Position.size p
    /\ Position.entry_price p = entry_price_at (Row.close r0)
    /\ Position.stop_loss p = stop_loss_at (Row.close r0) a
    /\ Position.take_profit p = take_profit_at (Row.close r0) a
    /\ Position.atr_at_entry p = a.
Proof.
  intros Hpos (r0 & rsi & macd & signal & hist & atr & vsma & bal
               & Hr & Hi & Ha & _ & _ & Hat).
  exists r0, atr.
  assert (Hc : 0 < Row.close r0).
  { rewrite Forall_forall in Hpos. apply Hpos.
    eapply nth_error_In. exact Hr. }
  repeat split.
  - exact Hr.
  - exact (indicators_atr r0 Hi).
  - exact Hc.
  - apply Qltb_ge. exact Ha.
  - apply (f_equal (@Position.size Q)) in Hat.
    cbn [at_entry new_position Position.size] in Hat. rewrite Hat.
    apply entry_size_ge_min.
  - apply (f_equal (@Position.entry_price Q)) in Hat. exact Hat.
  - apply (f_equal (@Position.stop_loss Q)) in Hat. exact Hat.
  - apply (f_equal (@Position.take_profit Q)) in Hat. exact Hat.
  - apply (f_equal (@Position.atr_at_entry Q)) in Hat. exact Hat.
Qed.

Lemma profit_loss_sign (p : Position.t Q) (px : Q) :
  0 < Position.size p ->
  (profit_loss_of p px < 0 <-> px < Position.entry_price p)
  /\ (0 < profit_loss_of p px <-> Position.entry_price p < px).
Proof.
  intros Hs. unfold profit_loss_of, leverage. cbn [mul sub lit Q_Num].
  set (e := Position.entry_price p). set (z := Position.size p) in *.
  assert (Hup : e < px -> 0 < (px - e) * z)
    by (intros Hlt; apply Qmult_lt_0_compat; lra).
  assert (Hdown : px < e -> 0 < (e - px) * z)
    by (intros Hlt; apply Qmult_lt_0_compat; lra).
  assert (Hge : e <= px -> 0 <= (px - e) * z)
    by (intros Hle; apply Qmult_le_0_compat; lra).
  assert (Hle : px <= e -> 0 <= (e - px) * z)
    by (intros Hle; apply Qmult_le_0_compat; lra).
  split; split; intros Hlt.
  - destruct (Qlt_le_dec px e) as [Hd|Hd]; [exact Hd|].
    specialize (Hge Hd). lra.
  - specialize (Hdown Hlt). lra.
  - destruct (Qlt_le_dec e px) as [Hd|Hd]; [exact Hd|].
    specialize (Hle Hd). lra.
  - specialize (Hup Hlt). lra.
Qed.

Lemma fee_fraction : 0.075 / 100 == 0.00075.
Proof. reflexivity. Qed.

Lemma stop_exit_under_entry (c a : Q) :
  0 < c -> 0.01 <= a ->
  exit_price_from (stop_loss_at c a) < entry_price_at c.
Proof.
  intros Hc Ha.
  unfold exit_price_from, stop_loss_at, entry_price_at, slippage_factor,
    fee_percent, atr_sl_multiplier.
  cbn [mul sub add div lit Q_Num]. rewrite fee_fraction. lra.
Qed.

Lemma take_exit_over_entry (c a : Q) :
  entry_price_at c < exit_price_from (take_profit_at c a)
  <-> 0.0015 * c < 4.99625 * a.
Proof.
  unfold exit_price_from, take_profit_at, entry_price_at, slippage_factor,
    fee_percent, atr_tp_multiplier.
  cbn [mul sub add div lit Q_Num]. rewrite fee_fraction.
  split; intros Hlt; lra.
Qed.

Lemma closes_record {R : Type} `{Num R} (j : nat) (r : Row.t R)
  (pos : Position.t R) (t : Trade.t R) :
  closes j r pos t ->
  (Trade.exit_type t = StopLoss ->
   Trade.exit_price t = exit_price_from (Position.stop_loss pos))
  /\ (Trade.exit_type t = TakeProfit ->
      Trade.exit_price t = exit_price_from (Position.take_profit pos))
  /\ Trade.profit_loss t = profit_loss_of pos (Trade.exit_price t)
  /\ Trade.win_loss t
     = (if ltb (lit 0) (Trade.profit_loss t) then Win else Loss)
  /\ Trade.entry_price t = Position.entry_price pos
  /\ Trade.size t = Position.size pos
  /\ Trade.atr_at_entry t = Position.atr_at_entry pos.
Proof.
  intros (ty & px & usdt & sol & Hc & ->).
  cbn [trade_entry Trade.exit_type Trade.exit_price Trade.profit_loss
       Trade.win_loss Trade.entry_price Trade.size Trade.atr_at_entry].
  unfold check_exit in Hc.
  destruct (leb (Row.low r) (Position.stop_loss pos)).
  - injection Hc as <- <-. repeat split. discriminate.
  - destruct (leb (Position.take_profit pos) (Row.high r)).
    + injection Hc as <- <-. repeat split. discriminate.
    + destruct (max_hold_candles <=? Position.position_candles pos)%nat;
        [|discriminate].
      injection Hc as <- <-. repeat split; discriminate.
Qed.

(** X7.  On a frame of positive closes every trade closed by its stop-loss
    has a strictly negative [profit_loss] and is marked Loss: the exit price
    at the stop, after slippage and fee, is under the entry price. *)
Theorem X7_stop_loss_trades_lose (k : nat) (df : list (Row.t Q)) :
  Forall (fun r => 0 < Row.close r) df ->
  Forall (fun t => Trade.exit_type t = StopLoss ->
                   Trade.profit_loss t < 0 /\ Trade.win_loss t = Loss)
         (trade_history (state_after k df)).
Proof.
  intros Hpos. apply Forall_forall. intros t Ht Hsl.
  destruct (trade_made_on df k t Ht) as (j & r & pos & _ & _ & Hm & Hc).
  destruct (made_on_terms Hpos Hm)
    as (r0 & a & _ & _ & Hc0 & Ha & Hsz & He & Hs & _).
  destruct (closes_record Hc) as (Hpx & _ & Hpl & Hwl & _).
  specialize (Hpx Hsl).
  assert (Hneg : Trade.profit_loss t < 0).
  { rewrite Hpl, Hpx.
    apply profit_loss_sign; [lra|].
    rewrite Hs, He. apply stop_exit_under_entry; assumption. }
  split; [exact Hneg|]. rewrite Hwl. cbn [ltb lit Q_Num].
  destruct (Qltb 0 (Trade.profit_loss t)) eqn:E; [|reflexivity].
  apply Qltb_lt in E. lra.
Qed.

Lemma take_exit_under_entry (c a : Q) :
  exit_price_from (take_profit_at c a) < entry_price_at c
  <-> 4.99625 * a < 0.0015 * c.
Proof.
  unfold exit_price_from, take_profit_at, entry_price_at, slippage_factor,
    fee_percent, atr_tp_multiplier.
  cbn [mul sub add div lit Q_Num]. rewrite fee_fraction.
  split; intros Hlt; lra.
Qed.

(** X8.  On a frame of positive closes a trade closed by its take-profit has
    a positive [profit_loss] and is marked Win when the ATR of its entry row,
    the ATR recorded in the trade, is at least 0.0301 % of the close of that
    row; when that ATR is at most 0.03 % of the close the target, after
    slippage and fee, is under the entry price: the [profit_loss] is negative
    and the take-profit is recorded as a Loss. *)
Theorem X8_take_profit_win_condition (k : nat) (df : list (Row.t Q)) :
  Forall (fun r => 0 < Row.close r) df ->
  Forall (fun t => Trade.exit_type t = TakeProfit ->
                   exists r0 : Row.t Q,
                     In r0 df
                     /\ Row.atr r0 = Some (Trade.atr_at_entry t)
                     /\ Trade.entry_price t = entry_price_at (Row.close r0)
                     /\ (0.000301 * Row.close r0 <= Trade.atr_at_entry t ->
                         0 < Trade.profit_loss t /\ Trade.win_loss t = Win)
                     /\ (Trade.atr_at_entry t <= 0.0003 * Row.close r0 ->
                         Trade.profit_loss t < 0 /\ Trade.win_loss t = Loss))
         (trade_history (state_after k df)).
Proof.
  intros Hpos. apply Forall_forall. intros t Ht Htp.
  destruct (trade_made_on df k t Ht) as (j & r & pos & _ & _ & Hm & Hc).
  destruct (made_on_terms Hpos Hm)
    as (r0 & a & Hr0 & Hatr & Hc0 & Ha & Hsz & He & _ & Htk & Hat).
  destruct (closes_record Hc) as (_ & Hpx & Hpl & Hwl & Hte & _ & Hta).
  specialize (Hpx Htp).
  exists r0. rewrite Hta, Hat, Hte.
  split; [eapply nth_error_In; exact Hr0|].
  split; [exact Hatr|]. split; [exact He|].
  assert (Hsz' : 0 < Position.size pos) by lra.
  destruct (profit_loss_sign pos (Trade.exit_price t) Hsz') as [Hneg Hplus].
  rewrite <- Hpl in Hneg, Hplus. rewrite Hpx, Htk, He in Hneg, Hplus.
  rewrite Hwl. cbn [ltb lit Q_Num].
  split.
  - intros Hbig.
    assert (Hwin : 0 < Trade.profit_loss t)
      by (apply Hplus, take_exit_over_entry; lra).
    split; [exact Hwin|].
    destruct (Qltb 0 (Trade.profit_loss t)) eqn:E; [reflexivity|].
    apply Qltb_ge in E. lra.
  - intros Hsmall.
    assert (Hloss : Trade.profit_loss t < 0)
      by (apply Hneg, take_exit_under_entry; lra).
    split; [exact Hloss|].
    destruct (Qltb 0 (Trade.profit_loss t)) eqn:E; [|reflexivity].
    apply Qltb_lt in E. lra.
Qed.

(** X9.  The affordability test of an entry leaves the fee out: an accepted
    entry takes the required capital times 1.00075 out of a cash balance at
    least as large as the required capital alone, so the balance afterwards
    is at least -0.075 % of the balance before, and it is negative exactly
    when the balance before was under 1.00075 times the required capital. *)
Theorem X9_accepted_entry_can_overdraw (i : nat) (r : Row.t Q)
  (rsi macd signal hist atr vsma : Q) (s : state Q) :
  let e := check_entry i r rsi macd signal hist atr vsma s in
  positions (entry_state e) <> positions s ->
  position_size_usdt (balance s) (Row.close r) <= balance s
  /\ balance (entry_state e)
     == balance s - 1.00075 * position_size_usdt (balance s) (Row.close r)
  /\ - (0.00075) * balance s <= balance (entry_state e)
  /\ (balance (entry_state e) < 0
      <-> balance s < 1.00075 * position_size_usdt (balance s) (Row.close r)).
Proof.
  intros e Hnew.
  pose proof (check_entry_cases i r rsi macd signal hist atr vsma s) as He.
  cbv zeta in He. fold e in He.
  destruct He as [[Hsame _]|(_ & _ & _ & Hrej & _ & Hbal)];
    [contradiction|].
  unfold entry_rejected in Hrej. apply orb_false_elim in Hrej.
  destruct Hrej as [Hins _]. unfold insufficient_balance in Hins.
  cbn [ltb Q_Num] in Hins. apply Qltb_ge in Hins.
  assert (Hb : balance (entry_state e)
               == balance s
                  - 1.00075 * position_size_usdt (balance s) (Row.close r)).
  { rewrite Hbal. unfold fee_percent. cbn [sub mul add div lit Q_Num].
    rewrite fee_fraction. lra. }
  split; [exact Hins|]. split; [exact Hb|].
  rewrite Hb. split; [lra|]. split; intros Hlt; lra.
Qed.

(** ** The accounting identity, on exact rationals *)

Lemma cash_paid_new_position (i : nat) (r : Row.t Q)
  (macd signal hist atr bal : Q) :
  cash_paid (Position.size (new_position i r macd signal hist atr bal))
            (Position.entry_price (new_position i r macd signal hist atr bal))
  == position_size_usdt bal (Row.close r) * (1 + fee_percent / 100).
Proof.
  unfold cash_paid, position_size_usdt.
  cbn [new_position Position.size Position.entry_price].
  unfold entry_price_at, slippage_factor, fee_percent.
  cbn [mul add div lit Q_Num]. rewrite fee_fraction. field.
Qed.

Lemma open_cost_cons (p : Position.t Q) (ps : list (Position.t Q)) :
  open_cost (p :: ps)
  = cash_paid (Position.size p) (Position.entry_price p) + open_cost ps.
Proof. reflexivity. Qed.

Lemma net_cash_cons (t : Trade.t Q) (th : list (Trade.t Q)) :
  net_cash (t :: th)
  = cash_received (Trade.size t) (Trade.exit_price t)
    - cash_paid (Trade.size t) (Trade.entry_price t) + net_cash th.
Proof. reflexivity. Qed.

Lemma open_cost_app (ps qs : list (Position.t Q)) :
  open_cost (ps ++ qs) == open_cost ps + open_cost qs.
Proof.
  induction ps as [|p ps IH]; cbn [app].
  - change (open_cost []) with 0. lra.
  - rewrite !open_cost_cons, IH. lra.
Qed.

Lemma open_cost_age (ps : list (Position.t Q)) :
  open_cost (map age ps) = open_cost ps.
Proof.
  induction ps as [|p ps IH]; cbn [map]; [reflexivity|].
  rewrite !open_cost_cons, IH. reflexivity.
Qed.

Lemma open_cost_partition (f : Position.t Q -> bool)
  (ps : list (Position.t Q)) :
  open_cost (filter f ps) + open_cost (filter (fun p => negb (f p)) ps)
  == open_cost ps.
Proof.
  induction ps as [|p ps IH]; cbn [filter].
  - change (open_cost []) with 0. lra.
  - destruct (f p); cbn [negb]; rewrite !open_cost_cons; lra.
Qed.

Lemma net_cash_snoc (th : list (Trade.t Q)) (t : Trade.t Q) :
  net_cash (th ++ [t])
  == net_cash th
     + (cash_received (Trade.size t) (Trade.exit_price t)
        - cash_paid (Trade.size t) (Trade.entry_price t)).
Proof.
  induction th as [|t' th IH]; cbn [app].
  - rewrite net_cash_cons. change (net_cash []) with 0. lra.
  - rewrite !net_cash_cons, IH. lra.
Qed.

(** Each close moves its proceeds into the balance and its net cash into the
    log: the difference grows by the cost of the position closed. *)
Lemma exit_loop_cash (i : nat) (r : Row.t Q) (ps : list (Position.t Q)) :
  forall (s : state Q) (tc : list (Position.t Q)),
    balance (snd (fst (exit_loop i r ps s tc)))
    - net_cash (trade_history (snd (fst (exit_loop i r ps s tc))))
    == balance s - net_cash (trade_history s)
       + open_cost (filter (closing r) (map age ps)).
Proof.
  induction ps as [|p0 rest IH]; intros s tc;
    cbn [exit_loop map filter fst snd].
  - change (open_cost []) with 0. lra.
  - destruct (check_exit r (age p0)) as [[ty px]|] eqn:E.
    + assert (C : closing r (age p0) = true)
        by (unfold closing; now rewrite E).
      rewrite C.
      specialize (IH (close_position i r (age p0) ty px s) (tc ++ [age p0])).
      destruct (exit_loop i r rest _ _) as [[aged s'] tc'].
      cbn [fst snd] in *. rewrite IH, open_cost_cons.
      cbn [close_position balance trade_history].
      rewrite net_cash_snoc.
      cbn [trade_entry Trade.size Trade.exit_price Trade.entry_price age
           Position.size Position.entry_price].
      unfold cash_received at 1. cbn [add mul sub div lit Q_Num]. lra.
    + assert (C : closing r (age p0) = false)
        by (unfold closing; now rewrite E).
      rewrite C.
      specialize (IH s tc).
      destruct (exit_loop i r rest s tc) as [[aged s'] tc'].
      cbn [fst snd] in *. exact IH.
Qed.

Lemma check_exits_cash (i : nat) (r : Row.t Q) (s : state Q) :
  balance (check_exits i r s) - net_cash (trade_history (check_exits i r s))
  == balance s - net_cash (trade_history s)
     + open_cost (filter (closing r) (map age (positions s))).
Proof.
  pose proof (exit_loop_cash i r (positions s) s []) as Hc.
  unfold check_exits.
  destruct (exit_loop i r (positions s) s []) as [[aged s'] tc].
  exact Hc.
Qed.

Lemma state_after_cash (k : nat) (df : list (Row.t Q)) :
  balance (state_after k df) + open_cost (positions (state_after k df))
  == initial_balance + net_cash (trade_history (state_after k df)).
Proof.
  induction k as [|k IH].
  - cbn. reflexivity.
  - rewrite state_after_S.
    destruct (nth_error (tl df) k) as [r|]; [|exact IH].
    unfold step.
    destruct (indicators r) as [[[[[[rsi macd] signal] hist] atr] vsma]|];
      [|exact IH].
    destruct (ltb atr min_atr); [exact IH|].
    destruct (count_rsi_below_ledger rsi (state_after k df))
      as (Hb0 & Hp0 & Ht0 & _).
    pose proof (check_entry_cases (S k) r rsi macd signal hist atr vsma
                  (count_rsi_below rsi (state_after k df))) as He.
    pose proof (check_entry_trade_history (S k) r rsi macd signal hist atr
                  vsma (count_rsi_below rsi (state_after k df))) as Hth.
    pose proof (check_exits_partition df k r rsi macd signal hist atr vsma)
      as Hpart.
    cbv zeta in He, Hpart. rewrite Hb0, Hp0 in He. rewrite Ht0 in Hth.
    set (e := check_entry (S k) r rsi macd signal hist atr vsma
                          (count_rsi_below rsi (state_after k df))) in *.
    assert (H1 : balance (entry_state e) + open_cost (positions (entry_state e))
                 == initial_balance + net_cash (trade_history (entry_state e))).
    { rewrite Hth.
      destruct He as [[-> ->]|(_ & _ & _ & _ & -> & ->)]; [exact IH|].
      rewrite open_cost_app, open_cost_cons. change (open_cost []) with 0.
      rewrite cash_paid_new_position. cbn [sub mul add div lit Q_Num].
      cbn [sub mul add div lit Q_Num] in IH. lra. }
    destruct e as [s1|s1]; cbn [entry_state] in *; [exact H1|].
    pose proof (check_exits_cash (S k) r s1) as Hc.
    pose proof (open_cost_partition (closing r) (map age (positions s1)))
      as Hsplit.
    rewrite open_cost_age in Hsplit. rewrite Hpart. lra.
Qed.

(** X10.  The cash balance moves by cash paid and cash received alone: after
    any number of iterations, the balance plus what was paid for the positions
    still open is the initial balance plus, over the trades of the log, the
    proceeds of the close less what was paid at entry.  Neither [profit_loss]
    nor the leverage enters it. *)
Theorem X10_cash_accounting (k : nat) (df : list (Row.t Q)) :
  balance (state_after k df) + open_cost (positions (state_after k df))
  == initial_balance + net_cash (trade_history (state_after k df)).
Proof. exact (state_after_cash k df). Qed.

(** * Properties of [calculate_indicators] *)

Section IndicatorProperties.

Context {R : Type} `{Num R}.

Local Open Scope nat_scope.

Lemma shift_length (xs : list R) : length (shift xs) = length xs.
Proof.
  destruct xs as [|x xs]; [reflexivity|].
  unfold shift. cbn [length]. rewrite length_map.
  rewrite removelast_firstn_len, length_firstn. cbn [length]. lia.
Qed.

Lemma diff_length (xs : list R) : length (diff xs) = length xs.
Proof.
  unfold diff. rewrite length_map, length_combine, shift_length. lia.
Qed.

Lemma rolling_mean_length (w : nat) (xs : list R) :
  length (rolling_mean w xs) = length xs.
Proof. unfold rolling_mean. now rewrite length_map, length_seq. Qed.

Lemma nth_map_seq {A : Type} (f : nat -> A) (d : A) (n : nat) :
  forall a i : nat, i < n -> nth i (map f (seq a n)) d = f (a + i).
Proof.
  induction n as [|n IH]; intros a [|i] Hi; cbn [seq map nth]; try lia.
  - now rewrite Nat.add_0_r.
  - rewrite IH by lia. f_equal. lia.
Qed.

Lemma rolling_mean_nth (w : nat) (xs : list R) (i : nat) :
  i < length xs ->
  nth i (rolling_mean w xs) None
  = if w <=? S i then Some (div (py_sum (window w i xs)) (of_nat w)) else None.
Proof.
  intros Hi. unfold rolling_mean. now rewrite nth_map_seq.
Qed.

Lemma ewm_from_length (a y : R) (xs : list R) :
  length (ewm_from a y xs) = length xs.
Proof.
  revert y. induction xs as [|x xs IH]; intros y; cbn [ewm_from length];
    [reflexivity|].
  now rewrite IH.
Qed.

Lemma ewm_mean_length (span : nat) (xs : list R) :
  length (ewm_mean span xs) = length xs.
Proof.
  destruct xs as [|x xs]; [reflexivity|].
  cbn [ewm_mean length]. now rewrite ewm_from_length.
Qed.

Lemma series_sub_length (xs ys : list R) :
  length xs = length ys -> length (series_sub xs ys) = length xs.
Proof.
  intros Hl. unfold series_sub. rewrite length_map, length_combine. lia.
Qed.

Lemma macd_series_length (closes : list R) :
  length (macd_series closes) = length closes.
Proof.
  unfold macd_series. rewrite series_sub_length; rewrite !ewm_mean_length;
    reflexivity.
Qed.

Lemma signal_series_length (closes : list R) :
  length (signal_series closes) = length closes.
Proof.
  unfold signal_series. now rewrite ewm_mean_length, macd_series_length.
Qed.

Lemma hist_series_length (closes : list R) :
  length (hist_series closes) = length closes.
Proof.
  unfold hist_series.
  rewrite series_sub_length; rewrite ?macd_series_length,
    ?signal_series_length; reflexivity.
Qed.

Lemma tr_series_length (cs : list (Candle.t R)) :
  length (tr_series cs) = length cs.
Proof.
  unfold tr_series.
  rewrite length_map, length_combine, shift_length, length_map. lia.
Qed.

Lemma rsi_series_nth (closes : list R) (i : nat) :
  i < length closes ->
  nth i (rsi_series closes) None
  = if 14 <=? S i
    then rsi_of
           (Some (div (py_sum (window 14 i (map where_positive (diff closes))))
                      (of_nat 14)))
           (Some (div (py_sum (window 14 i (map where_negative (diff closes))))
                      (of_nat 14)))
    else None.
Proof.
  intros Hi. unfold rsi_series.
  change (@None R) with ((fun gm : option R * option R =>
                            rsi_of (fst gm) (snd gm)) (None, None)) at 1.
  rewrite map_nth, combine_nth
    by (now rewrite !rolling_mean_length, !length_map).
  cbn [fst snd].
  rewrite !rolling_mean_nth by (now rewrite length_map, diff_length).
  destruct (14 <=? S i); reflexivity.
Qed.

Lemma indicator_rows_length (cs : list (Candle.t R)) :
  length (indicator_rows cs) = length cs.
Proof.
  unfold indicator_rows. rewrite length_map, length_combine, length_seq. lia.
Qed.

Lemma nth_error_combine_seq {A : Type} (l : list A) (i : nat) (x : A) :
  nth_error l i = Some x ->
  forall a : nat, nth_error (combine (seq a (length l)) l) i = Some (a + i, x).
Proof.
  revert i. induction l as [|y l IH]; intros [|i] Hx a;
    cbn [length seq combine nth_error] in *; try discriminate.
  - injection Hx as ->. now rewrite Nat.add_0_r.
  - rewrite (IH i Hx (S a)). f_equal. f_equal. lia.
Qed.

(** The row of the frame at position [i]: the candle there and the six
    series at [i]. *)
Lemma indicator_rows_nth (cs : list (Candle.t R)) (i : nat) (r : Row.t R) :
  nth_error (indicator_rows cs) i = Some r ->
  exists c : Candle.t R,
    nth_error cs i = Some c
    /\ r = Row.mk (Candle.timestamp c) (Candle.open c) (Candle.high c)
                  (Candle.low c) (Candle.close c) (Candle.volume c)
                  (nth i (rsi_series (map (@Candle.close R) cs)) None)
                  (nth_error (macd_series (map (@Candle.close R) cs)) i)
                  (nth_error (signal_series (map (@Candle.close R) cs)) i)
                  (nth_error (hist_series (map (@Candle.close R) cs)) i)
                  (nth i (atr_series cs) None)
                  (nth i (volume_sma_series cs) None).
Proof.
  intros Hr.
  assert (Hi : i < length cs).
  { rewrite <- indicator_rows_length. apply nth_error_Some. congruence. }
  destruct (nth_error cs i) as [c|] eqn:Ec;
    [|apply nth_error_None in Ec; lia].
  exists c. split; [reflexivity|].
  unfold indicator_rows in Hr.
  rewrite nth_error_map, (nth_error_combine_seq cs i Ec 0) in Hr.
  cbn [option_map fst snd Nat.add] in Hr. now injection Hr as <-.
Qed.

Lemma indicator_warm_up (cs : list (Candle.t R)) (i : nat)
  (r : Row.t R) :
  nth_error (indicator_rows cs) i = Some r ->
  (Row.rsi r = None <-> i < 13)
  /\ (Row.atr r = None <-> i < 13)
  /\ (Row.volume_sma r = None <-> i < 19)
  /\ Row.macd r <> None /\ Row.signal r <> None /\ Row.hist r <> None.
Proof.
  intros Hr.
  assert (Hi : i < length cs).
  { rewrite <- indicator_rows_length. apply nth_error_Some. congruence. }
  destruct (indicator_rows_nth cs i Hr) as (c & Hc & ->).
  cbn [Row.rsi Row.atr Row.volume_sma Row.macd Row.signal Row.hist].
  rewrite rsi_series_nth by (now rewrite length_map).
  unfold atr_series, volume_sma_series.
  rewrite !rolling_mean_nth by (now rewrite ?tr_series_length, ?length_map).
  repeat split.
  - destruct (14 <=? S i) eqn:E; [discriminate|]. apply Nat.leb_gt in E. lia.
  - intros Hlt. destruct (14 <=? S i) eqn:E; [|reflexivity].
    apply Nat.leb_le in E. lia.
  - destruct (14 <=? S i) eqn:E; [discriminate|]. apply Nat.leb_gt in E. lia.
  - intros Hlt. destruct (14 <=? S i) eqn:E; [|reflexivity].
    apply Nat.leb_le in E. lia.
  - destruct (20 <=? S i) eqn:E; [discriminate|]. apply Nat.leb_gt in E. lia.
  - intros Hlt. destruct (20 <=? S i) eqn:E; [|reflexivity].
    apply Nat.leb_le in E. lia.
  - apply nth_error_Some. now rewrite macd_series_length, length_map.
  - apply nth_error_Some. now rewrite signal_series_length, length_map.
  - apply nth_error_Some. now rewrite hist_series_length, length_map.
Qed.

(** X11.  The warm-up of [calculate_indicators]: in the frame before the RSI
    filter, RSI and ATR are undefined on the first 13 rows and defined from
    row 13 on, the volume average is undefined on the first 19 rows and
    defined from row 19 on, and MACD, signal and histogram are defined on
    every row. *)
Theorem X11_indicator_warm_up (cs : list (Candle.t R)) (i : nat)
  (r : Row.t R) :
  nth_error (indicator_rows cs) i = Some r ->
  (Row.rsi r = None <-> i < 13)
  /\ (Row.atr r = None <-> i < 13)
  /\ (Row.volume_sma r = None <-> i < 19)
  /\ Row.macd r <> None /\ Row.signal r <> None /\ Row.hist r <> None.
Proof. exact (@indicator_warm_up cs i r). Qed.

Lemma loop_ineligible (rows : list (Row.t R)) :
  Forall (fun r => indicators r = None) rows ->
  forall (i : nat) (s : state R), loop i rows s = s.
Proof.
  induction 1 as [|r rows Hr _ IH]; intros i s; cbn [loop]; [reflexivity|].
  unfold step. rewrite Hr. apply IH.
Qed.

Lemma filter_rsi_incl (df : list (nat * Row.t R)) (ir : nat * Row.t R) :
  In ir (filter_rsi df) -> In ir df.
Proof.
  unfold filter_rsi. destruct (invalid_rsi df); [tauto|].
  intros Hin. apply filter_In in Hin. tauto.
Qed.

(** The rows [calculate_indicators] returns are rows of the frame before the
    filter. *)
Lemma calculate_indicators_rows (df : list (nat * Candle.t R)) (r : Row.t R) :
  In r (map snd (calculate_indicators df)) ->
  In r (indicator_rows (map snd df)).
Proof.
  unfold calculate_indicators, postprocess.
  rewrite (proj2 (reset_index_spec _)). intros Hin.
  apply in_map_iff in Hin. destruct Hin as ([l r'] & <- & Hin).
  apply filter_rsi_incl in Hin. apply in_combine_r in Hin. exact Hin.
Qed.

(** X12.  A frame of at most 19 candles never trades: every row is still in
    the warm-up of the volume average, so [run_backtest] on the output of
    [calculate_indicators] returns the initial balance and an empty log,
    writes an empty [partial_conditions.txt] and leaves [trade_history.csv]
    as it was. *)
Theorem X12_short_frame_never_trades (fs : files R)
  (df : list (nat * Candle.t R)) :
  length df <= 19 ->
  backtest_candles fs df
  = ((initial_balance, []), mk_files [] (trade_history_csv fs)).
Proof.
  intros Hlen. unfold backtest_candles, run_backtest.
  rewrite loop_ineligible; [reflexivity|].
  apply Forall_forall. intros r Hr.
  assert (Hin : In r (map snd (calculate_indicators df))).
  { destruct (map snd (calculate_indicators df)); [destruct Hr|].
    right. exact Hr. }
  apply calculate_indicators_rows in Hin.
  apply In_nth_error in Hin. destruct Hin as [i Hi].
  assert (Hlt : i < length (map snd df)).
  { rewrite <- indicator_rows_length. apply nth_error_Some. congruence. }
  rewrite length_map in Hlt.
  destruct (indicator_warm_up (map snd df) i Hi) as (_ & _ & Hv & _).
  assert (Hnone : Row.volume_sma r = None) by (apply Hv; lia).
  unfold indicators. rewrite Hnone.
  destruct (Row.rsi r), (Row.macd r), (Row.signal r), (Row.hist r),
    (Row.atr r); reflexivity.
Qed.

End IndicatorProperties.

(** ** The ranges of the indicators, on exact rationals *)

Lemma py_sum_nonneg (l : list Q) :
  Forall (fun x => 0 <= x) l -> 0 <= py_sum l.
Proof.
  intros Hl. rewrite py_sum_fold_right.
  induction Hl as [|x l Hx _ IH]; cbn [fold_right]; lra.
Qed.

Lemma py_sum_nonpos (l : list Q) :
  Forall (fun x => x <= 0) l -> py_sum l <= 0.
Proof.
  intros Hl. rewrite py_sum_fold_right.
  induction Hl as [|x l Hx _ IH]; cbn [fold_right]; lra.
Qed.

Lemma firstn_incl {A : Type} (x : A) (l : list A) :
  forall n : nat, In x (firstn n l) -> In x l.
Proof.
  induction l as [|y l IH]; intros [|n]; cbn [firstn In]; try tauto.
  intros [E|Hin]; [now left | right; exact (IH n Hin)].
Qed.

Lemma skipn_incl {A : Type} (x : A) (l : list A) :
  forall n : nat, In x (skipn n l) -> In x l.
Proof.
  induction l as [|y l IH]; intros [|n]; cbn [skipn In]; try tauto.
  intros Hin. right. exact (IH n Hin).
Qed.

Lemma window_Forall {A : Type} `{Num A} (P : A -> Prop) (w i : nat)
  (xs : list A) :
  Forall P xs -> Forall P (window w i xs).
Proof.
  intros Hxs. unfold window. apply Forall_forall. intros x Hx.
  rewrite Forall_forall in Hxs. apply Hxs.
  eapply skipn_incl, firstn_incl, Hx.
Qed.

Lemma where_positive_nonneg (d : option Q) : 0 <= where_positive d.
Proof.
  unfold where_positive. cbn [ltb lit Q_Num].
  destruct d as [v|]; [|lra].
  destruct (Qltb 0 v) eqn:E; [apply Qltb_lt in E|]; lra.
Qed.

Lemma where_negative_nonpos (d : option Q) : where_negative d <= 0.
Proof.
  unfold where_negative. cbn [ltb lit Q_Num].
  destruct d as [v|]; [|lra].
  destruct (Qltb v 0) eqn:E; [apply Qltb_lt in E|]; lra.
Qed.

Lemma epsilon_value : 1e-10 == 1 # 10000000000.
Proof. reflexivity. Qed.

Lemma rsi_of_range (g m v : Q) :
  0 <= g -> m <= 0 -> rsi_of (Some g) (Some m) = Some v -> 0 <= v < 100.
Proof.
  intros Hg Hm [= <-]. cbn [sub add div lit Q_Num].
  assert (Hden : 0 < 0 - m + 1e-10) by (rewrite epsilon_value; lra).
  assert (Hrs : 0 <= g / (0 - m + 1e-10))
    by (apply Qle_shift_div_l; [exact Hden | lra]).
  set (rs := g / (0 - m + 1e-10)) in *.
  assert (Hq : 0 < 100 / (1 + rs))
    by (apply Qlt_shift_div_l; lra).
  assert (Hq' : 100 / (1 + rs) <= 100)
    by (apply Qle_shift_div_r; lra).
  split; lra.
Qed.

Lemma mean_nonneg (l : list Q) (n : nat) :
  Forall (fun x => 0 <= x) l -> 0 <= py_sum l / of_nat (S n).
Proof.
  intros Hl. apply Qle_shift_div_l.
  - unfold of_nat. cbn [lit Q_Num]. change 0 with (inject_Z 0).
    rewrite <- Zlt_Qlt. lia.
  - pose proof (py_sum_nonneg Hl). lra.
Qed.

Lemma mean_nonpos (l : list Q) (n : nat) :
  Forall (fun x => x <= 0) l -> py_sum l / of_nat (S n) <= 0.
Proof.
  intros Hl. apply Qle_shift_div_r.
  - unfold of_nat. cbn [lit Q_Num]. change 0 with (inject_Z 0).
    rewrite <- Zlt_Qlt. lia.
  - pose proof (py_sum_nonpos Hl). lra.
Qed.

Lemma num_max_ge (a b : Q) : a <= num_max a b /\ b <= num_max a b.
Proof.
  unfold num_max. cbn [ltb Q_Num].
  destruct (Qltb a b) eqn:E.
  - apply Qltb_lt in E. split; lra.
  - apply Qltb_ge in E. split; lra.
Qed.

Lemma true_range_ge_range (c : Candle.t Q) (prev : option Q) :
  Candle.high c - Candle.low c <= true_range c prev.
Proof.
  unfold true_range. cbn [sub absv Q_Num]. destruct prev as [pc|]; [|lra].
  pose proof (num_max_ge (Candle.high c - Candle.low c)
                         (Qabs (Candle.high c - pc))) as [H1 _].
  pose proof (num_max_ge (num_max (Candle.high c - Candle.low c)
                                  (Qabs (Candle.high c - pc)))
                         (Qabs (Candle.low c - pc))) as [H2 _].
  lra.
Qed.

(** X13.  Wherever it is defined the RSI lies in [0, 100), and, on candles
    whose high is not under their low, the ATR is not negative. *)
Theorem X13_indicator_ranges (cs : list (Candle.t Q)) (i : nat)
  (r : Row.t Q) :
  nth_error (indicator_rows cs) i = Some r ->
  (forall v : Q, Row.rsi r = Some v -> 0 <= v < 100)
  /\ (Forall (fun c => Candle.low c <= Candle.high c) cs ->
      forall a : Q, Row.atr r = Some a -> 0 <= a).
Proof.
  intros Hr.
  assert (Hi : (i < length cs)%nat).
  { rewrite <- indicator_rows_length. apply nth_error_Some. congruence. }
  destruct (indicator_rows_nth cs i Hr) as (c & Hc & ->).
  cbn [Row.rsi Row.atr]. split.
  - intros v. rewrite rsi_series_nth by (now rewrite length_map).
    destruct (14 <=? S i)%nat; [|discriminate].
    intros Hv. refine (rsi_of_range _ _ Hv).
    + apply (@mean_nonneg _ 13), window_Forall, Forall_forall.
      intros x Hx. apply in_map_iff in Hx. destruct Hx as (d & <- & _).
      apply where_positive_nonneg.
    + apply (@mean_nonpos _ 13), window_Forall, Forall_forall.
      intros x Hx. apply in_map_iff in Hx. destruct Hx as (d & <- & _).
      apply where_negative_nonpos.
  - intros Hvalid a. unfold atr_series.
    rewrite rolling_mean_nth by (now rewrite tr_series_length).
    destruct (14 <=? S i)%nat; [|discriminate].
    intros [= <-]. apply (@mean_nonneg _ 13), window_Forall, Forall_forall.
    intros x Hx. unfold tr_series in Hx.
    apply in_map_iff in Hx. destruct Hx as ([c' prev] & <- & Hin).
    apply in_combine_l in Hin. rewrite Forall_forall in Hvalid.
    specialize (Hvalid c' Hin). cbn [fst snd].
    pose proof (true_range_ge_range c' prev). lra.
Qed.

(** ** Closes that never rise *)

Lemma diff_tail_non_rising (rest : list Q) :
  forall a : Q,
    non_rising (a :: rest) ->
    Forall (fun d => where_positive d = 0)
           (map (fun cp : Q * option Q =>
                   match snd cp with
                   | Some prev => Some (sub (fst cp) prev)
                   | None => None
                   end)
                (combine rest (map Some (removelast (a :: rest))))).
Proof.
  induction rest as [|b rest IH]; intros a Hnr; [constructor|].
  destruct Hnr as [Hba Hnr].
  change (removelast (a :: b :: rest)) with (a :: removelast (b :: rest)).
  cbn [map combine fst snd]. constructor; [|exact (IH b Hnr)].
  unfold where_positive. cbn [ltb sub lit Q_Num].
  destruct (Qltb 0 (b - a)) eqn:E; [|reflexivity].
  apply Qltb_lt in E. exfalso. lra.
Qed.

Lemma diff_non_rising (xs : list Q) :
  non_rising xs ->
  Forall (fun x => x = 0) (map where_positive (diff xs)).
Proof.
  intros Hnr. rewrite Forall_map. destruct xs as [|a rest]; [constructor|].
  unfold diff, shift. cbn [combine map snd]. constructor; [reflexivity|].
  exact (diff_tail_non_rising rest a Hnr).
Qed.

Lemma py_sum_zeros (l : list Q) : Forall (fun x => x = 0) l -> py_sum l == 0.
Proof.
  intros Hl.
  assert (H1 : 0 <= py_sum l).
  { apply py_sum_nonneg. eapply Forall_impl; [|exact Hl].
    intros x ->. lra. }
  assert (H2 : py_sum l <= 0).
  { apply py_sum_nonpos. eapply Forall_impl; [|exact Hl].
    intros x ->. lra. }
  lra.
Qed.

Lemma rsi_of_zero_gain (g m v : Q) :
  g == 0 -> m <= 0 -> rsi_of (Some g) (Some m) = Some v -> v == 0.
Proof.
  intros Hg Hm [= <-]. cbn [sub add div lit Q_Num].
  assert (Hrs : g / (0 - m + 1e-10) == 0)
    by (rewrite Hg; unfold Qdiv; ring).
  rewrite Hrs. vm_compute. reflexivity.
Qed.

(** On non-rising closes the RSI of a row is undefined or 0. *)
Lemma rsi_non_rising (cs : list (Candle.t Q)) (i : nat) (r : Row.t Q) :
  non_rising (map (@Candle.close Q) cs) ->
  nth_error (indicator_rows cs) i = Some r ->
  rsi_ge_1 r = false /\ ((13 <= i)%nat -> rsi_lt_1 r = true).
Proof.
  intros Hnr Hr.
  assert (Hi : (i < length cs)%nat).
  { rewrite <- indicator_rows_length. apply nth_error_Some. congruence. }
  destruct (indicator_rows_nth cs i Hr) as (c & Hc & ->).
  unfold rsi_ge_1, rsi_lt_1. cbn [Row.rsi].
  rewrite rsi_series_nth by (now rewrite length_map).
  destruct (14 <=? S i)%nat eqn:E.
  - destruct (rsi_of _ _) as [v|] eqn:Ev; [|discriminate Ev].
    assert (Hv : v == 0).
    { refine (rsi_of_zero_gain _ _ Ev).
      - assert (Hz : py_sum (window 14 i
                       (map where_positive
                            (diff (map (@Candle.close Q) cs)))) == 0)
          by (apply py_sum_zeros, window_Forall, diff_non_rising, Hnr).
        cbn [div Q_Num]. rewrite Hz. reflexivity.
      - apply (@mean_nonpos _ 13), window_Forall, Forall_forall.
        intros x Hx. apply in_map_iff in Hx. destruct Hx as (d & <- & _).
        apply where_negative_nonpos. }
    cbn [ltb leb lit Q_Num]. split.
    + destruct (Qle_bool 1 v) eqn:L; [|reflexivity].
      apply Qle_bool_iff in L. lra.
    + intros _. apply Qltb_lt. lra.
  - split; [reflexivity|]. apply Nat.leb_gt in E. lia.
Qed.

(** X14.  On a frame of at least 14 candles whose closes never rise from one
    candle to the next, a flat market included, [calculate_indicators]
    returns an empty frame: the RSI is 0 on every row that has one, so the
    filter drops those rows and, with them, the rows of the warm-up. *)
Theorem X14_non_rising_closes_empty_frame (df : list (nat * Candle.t Q)) :
  (14 <= length df)%nat ->
  non_rising (map (@Candle.close Q) (map snd df)) ->
  calculate_indicators df = [].
Proof.
  intros Hlen Hnr. unfold calculate_indicators, postprocess.
  set (rows := indicator_rows (map snd df)).
  assert (Hrows : length rows = length df)
    by (subst rows; now rewrite indicator_rows_length, length_map).
  assert (Hall : forall ir, In ir (combine (map fst df) rows) ->
                            rsi_ge_1 (snd ir) = false).
  { intros [l r] Hin. apply in_combine_r in Hin.
    apply In_nth_error in Hin. destruct Hin as [i Hi].
    exact (proj1 (rsi_non_rising (map snd df) i Hnr Hi)). }
  destruct (nth_error rows 13) as [r13|] eqn:E13;
    [|apply nth_error_None in E13; lia].
  assert (Hin13 : In (nth 13 (map fst df) 0%nat, r13)
                     (combine (map fst df) rows)).
  { rewrite <- (nth_error_nth rows 13 r13 E13) at 1.
    rewrite <- combine_nth by (now rewrite length_map).
    apply nth_In. rewrite length_combine, length_map. lia. }
  rewrite (filter_rsi_some_invalid _ _ Hin13
             (proj2 (rsi_non_rising (map snd df) 13 Hnr E13) (le_n 13))).
  replace (filter (fun ir => rsi_ge_1 (snd ir)) (combine (map fst df) rows))
    with (@nil (nat * Row.t Q)); [reflexivity|].
  symmetry. generalize (combine (map fst df) rows) Hall.
  induction l as [|ir l IH]; intros Hl; cbn [filter]; [reflexivity|].
  rewrite (Hl ir (or_introl eq_refl)). apply IH.
  intros ir' Hin. apply Hl. now right.
Qed.

(** ** Moving averages inside the band of the closes *)

Lemma alpha_range (n : nat) : 0 <= alpha (S n) <= 1.
Proof.
  unfold alpha, of_nat. cbn [div add lit Q_Num].
  assert (Hn : 1 <= inject_Z (Z.of_nat (S n))).
  { change 1 with (inject_Z 1). rewrite <- Zle_Qle. lia. }
  split.
  - apply Qle_shift_div_l; lra.
  - apply Qle_shift_div_r; lra.
Qed.

Lemma convex_between (a y x lo hi : Q) :
  0 <= a <= 1 -> lo <= y <= hi -> lo <= x <= hi ->
  lo <= (1 - a) * y + a * x <= hi.
Proof.
  intros [Ha0 Ha1] [Hy0 Hy1] [Hx0 Hx1].
  assert (H1 : 0 <= (1 - a) * (y - lo)) by (apply Qmult_le_0_compat; lra).
  assert (H2 : 0 <= a * (x - lo)) by (apply Qmult_le_0_compat; lra).
  assert (H3 : 0 <= (1 - a) * (hi - y)) by (apply Qmult_le_0_compat; lra).
  assert (H4 : 0 <= a * (hi - x)) by (apply Qmult_le_0_compat; lra).
  split; lra.
Qed.

Lemma ewm_from_between (a lo hi : Q) (xs : list Q) :
  0 <= a <= 1 ->
  Forall (fun x => lo <= x <= hi) xs ->
  forall y : Q,
    lo <= y <= hi -> Forall (fun x => lo <= x <= hi) (ewm_from a y xs).
Proof.
  intros Ha. induction 1 as [|x xs Hx _ IH]; intros y Hy; cbn [ewm_from];
    [constructor|].
  cbn [add mul sub lit Q_Num].
  pose proof (convex_between Ha Hy Hx) as Hy'.
  constructor; [exact Hy' | exact (IH _ Hy')].
Qed.

Lemma ewm_mean_between (n : nat) (lo hi : Q) (xs : list Q) :
  Forall (fun x => lo <= x <= hi) xs ->
  Forall (fun x => lo <= x <= hi) (ewm_mean (S n) xs).
Proof.
  intros Hxs. destruct Hxs as [|x xs Hx Hxs]; cbn [ewm_mean]; [constructor|].
  constructor; [exact Hx|].
  exact (ewm_from_between (alpha_range n) Hxs Hx).
Qed.

Lemma series_sub_between (lo1 hi1 lo2 hi2 : Q) (xs : list Q) :
  Forall (fun x => lo1 <= x <= hi1) xs ->
  forall ys : list Q,
    Forall (fun y => lo2 <= y <= hi2) ys ->
    Forall (fun z => lo1 - hi2 <= z <= hi1 - lo2) (series_sub xs ys).
Proof.
  unfold series_sub.
  induction 1 as [|x xs Hx _ IH]; intros ys Hys; [constructor|].
  destruct Hys as [|y ys Hy Hys]; cbn [combine map fst snd]; [constructor|].
  constructor; [cbn [sub Q_Num]; lra | exact (IH ys Hys)].
Qed.

Lemma macd_between (lo hi : Q) (closes : list Q) :
  Forall (fun x => lo <= x <= hi) closes ->
  Forall (fun m => lo - hi <= m <= hi - lo) (macd_series closes).
Proof.
  intros Hc. unfold macd_series.
  apply series_sub_between; apply ewm_mean_between; exact Hc.
Qed.

(** X15.  When the closes of the frame stay within [lo, hi], MACD and signal
    stay within the width [hi - lo] of that band on either side of 0 and the
    histogram within twice the width; so on a frame whose closes range over
    less than 2.5, the entry condition [hist > min_hist_threshold] (-5.0)
    holds on every row. *)
Theorem X15_macd_within_price_band (cs : list (Candle.t Q)) (lo hi : Q)
  (i : nat) (r : Row.t Q) :
  Forall (fun c => lo <= Candle.close c <= hi) cs ->
  nth_error (indicator_rows cs) i = Some r ->
  (forall m : Q, Row.macd r = Some m -> lo - hi <= m <= hi - lo)
  /\ (forall g : Q, Row.signal r = Some g -> lo - hi <= g <= hi - lo)
  /\ (forall h : Q,
        Row.hist r = Some h -> 2 * (lo - hi) <= h <= 2 * (hi - lo))
  /\ (hi - lo < 2.5 ->
      forall h : Q, Row.hist r = Some h -> ltb min_hist_threshold h = true).
Proof.
  intros Hband Hr.
  destruct (indicator_rows_nth cs i Hr) as (c & Hc & ->).
  cbn [Row.macd Row.signal Row.hist].
  assert (Hcl : Forall (fun x => lo <= x <= hi) (map (@Candle.close Q) cs))
    by (rewrite Forall_map; exact Hband).
  pose proof (macd_between Hcl) as Hm.
  assert (Hs : Forall (fun g => lo - hi <= g <= hi - lo)
                      (signal_series (map (@Candle.close Q) cs)))
    by (apply (ewm_mean_between 8), Hm).
  assert (Hh : Forall (fun h => 2 * (lo - hi) <= h <= 2 * (hi - lo))
                      (hist_series (map (@Candle.close Q) cs))).
  { pose proof (series_sub_between Hm Hs) as Hsub.
    eapply Forall_impl; [|exact Hsub]. cbn beta. intros h Hh. lra. }
  rewrite Forall_forall in Hm, Hs, Hh.
  split; [intros m Hx; apply nth_error_In in Hx; exact (Hm m Hx)|].
  split; [intros g Hx; apply nth_error_In in Hx; exact (Hs g Hx)|].
  split; [intros h Hx; apply nth_error_In in Hx; exact (Hh h Hx)|].
  intros Hw h Hx. apply nth_error_In in Hx. destruct (Hh h Hx) as [Hlo _].
  unfold min_hist_threshold. cbn [ltb lit Q_Num]. apply Qltb_lt. lra.
Qed.

(** * Properties of [load_data] and of the chain of [main] *)

Lemma existsb_false_Forall {A : Type} (f : A -> bool) (l : list A) :
  existsb f l = false <-> Forall (fun x => f x = false) l.
Proof.
  induction l as [|x l IH]; cbn [existsb].
  - split; [constructor | reflexivity].
  - rewrite orb_false_iff, IH. split.
    + intros [Hx Hl]. constructor; assumption.
    + intros Hl. apply Forall_cons_iff in Hl. exact Hl.
Qed.

Lemma cell_test_le_false (x : option Q) :
  cell_test (fun a => leb a (lit 0)) x = false
  <-> cell_holds (fun a => 0 < a) x.
Proof.
  destruct x as [a|]; cbn [cell_test cell_holds leb lit Q_Num];
    [|now split].
  split.
  - intros Hx. apply Qnot_le_lt. intros Hle.
    apply Qle_bool_iff in Hle. congruence.
  - intros Hx. destruct (Qle_bool a 0) eqn:E; [|reflexivity].
    apply Qle_bool_iff in E. lra.
Qed.

Lemma cell_test_lt_false (x : option Q) :
  cell_test (fun a => ltb a (lit 0)) x = false
  <-> cell_holds (fun a => 0 <= a) x.
Proof.
  destruct x as [a|]; cbn [cell_test cell_holds ltb lit Q_Num];
    [|now split].
  split; [apply Qltb_ge|]. intros Hx.
  destruct (Qltb a 0) eqn:E; [|reflexivity]. apply Qltb_lt in E. lra.
Qed.

Lemma cells_lt_false (x y : option Q) :
  cells_lt x y = false <-> cells_le y x.
Proof.
  destruct x as [a|], y as [b|]; cbn [cells_lt cells_le ltb Q_Num];
    try now split.
  split; [apply Qltb_ge|]. intros Hx.
  destruct (Qltb a b) eqn:E; [|reflexivity]. apply Qltb_lt in E. lra.
Qed.

(** [load_data] returns the frame when each of its conditions holds on the
    cells that are there, and only then. *)
Lemma load_data_checks_valid (df : list (RawCandle.t Q)) :
  load_data_checks df = None <-> Forall valid_cells df.
Proof.
  unfold load_data_checks.
  split.
  - intros Hok.
    destruct (existsb (fun c => cell_test _ (RawCandle.open c)) df) eqn:E1;
      [discriminate|].
    destruct (existsb (fun c => cell_test _ (RawCandle.high c)) df) eqn:E2;
      [discriminate|].
    destruct (existsb (fun c => cell_test _ (RawCandle.low c)) df) eqn:E3;
      [discriminate|].
    destruct (existsb (fun c => cell_test _ (RawCandle.close c)) df) eqn:E4;
      [discriminate|].
    destruct (existsb (fun c => cell_test _ (RawCandle.volume c)) df) eqn:E5;
      [discriminate|].
    destruct (existsb (fun c => cells_lt (RawCandle.high c) (RawCandle.low c))
                      df) eqn:E6; [discriminate|].
    destruct (existsb (fun c => cells_lt (RawCandle.high c)
                                         (RawCandle.close c)) df) eqn:E7;
      [discriminate|].
    destruct (existsb (fun c => cells_lt (RawCandle.close c) (RawCandle.low c))
                      df) eqn:E8; [discriminate|].
    rewrite existsb_false_Forall, Forall_forall in E1, E2, E3, E4, E5, E6,
      E7, E8.
    apply Forall_forall. intros c Hc. unfold valid_cells.
    specialize (E1 c Hc). specialize (E2 c Hc). specialize (E3 c Hc).
    specialize (E4 c Hc). specialize (E5 c Hc). specialize (E6 c Hc).
    specialize (E7 c Hc). specialize (E8 c Hc). cbn beta in *.
    apply cell_test_le_false in E1, E2, E3, E4.
    apply cell_test_lt_false in E5. apply cells_lt_false in E6, E7, E8.
    repeat split; assumption.
  - intros Hall.
    assert (Hex : forall (g : RawCandle.t Q -> bool),
               (forall c, valid_cells c -> g c = false) ->
               existsb g df = false).
    { intros g Hg. apply existsb_false_Forall.
      eapply Forall_impl; [|exact Hall]. exact Hg. }
    rewrite !Hex; [reflexivity | | | | | | | |];
      intros c Hc; unfold valid_cells in Hc;
      first [ apply cell_test_le_false; tauto
            | apply cell_test_lt_false; tauto
            | apply cells_lt_false; tauto ].
Qed.

(** The rows [dropna] keeps, of a frame [load_data] would return, are
    validated candles. *)
Lemma dropna_valid (df : list (nat * RawCandle.t Q)) :
  Forall valid_cells (map snd df) ->
  Forall valid_candle (map snd (dropna df)).
Proof.
  induction df as [|[i c] df IH]; cbn [map snd dropna flat_map];
    intros Hall; [constructor|].
  apply Forall_cons_iff in Hall. destruct Hall as [Hc Hall].
  rewrite map_app. apply Forall_app. split; [|exact (IH Hall)].
  cbn [snd fst]. unfold complete.
  destruct c as [ts [o|] [h|] [l|] [cl|] [v|]];
    cbn [RawCandle.open RawCandle.high RawCandle.low RawCandle.close
         RawCandle.volume RawCandle.timestamp map snd];
    try (constructor; fail).
  constructor; [|constructor].
  unfold valid_cells in Hc. unfold valid_candle.
  cbn [RawCandle.open RawCandle.high RawCandle.low RawCandle.close
       RawCandle.volume cell_holds cells_le Candle.open Candle.high
       Candle.low Candle.close Candle.volume] in *.
  tauto.
Qed.

(** [dropna] leaves a frame without blank cells as it is. *)
Lemma dropna_read_complete (df : list (nat * Candle.t Q)) :
  dropna (read_complete df) = df.
Proof.
  unfold dropna, read_complete.
  induction df as [|[i [ts o h l c v]] df IH]; [reflexivity|].
  cbn [map flat_map]. rewrite IH. reflexivity.
Qed.

Lemma indicator_rows_candle (cs : list (Candle.t Q)) :
  Forall valid_candle cs ->
  Forall (fun r => 0 < Row.close r
                   /\ 0 < Row.low r
                   /\ Row.low r <= Row.close r <= Row.high r)
         (indicator_rows cs).
Proof.
  intros Hall. apply Forall_forall. intros r Hr.
  apply In_nth_error in Hr. destruct Hr as [i Hi].
  destruct (indicator_rows_nth cs i Hi) as (c & Hc & ->).
  cbn [Row.close Row.low Row.high].
  rewrite Forall_forall in Hall. apply nth_error_In in Hc.
  destruct (Hall c Hc) as (_ & _ & Hlow & Hpos & _ & _ & Hrel).
  repeat split; tauto.
Qed.

(** X16.  [load_data] returns the frame exactly when each of its conditions
    holds on the cells that are there: positive open, high, low and close, a
    volume that is not negative, low <= high and low <= close <= high (the
    open is not compared with the high or the low).  A NaN cell fails no
    test, so a frame with blank cells is returned; the rows the [dropna] of
    [main] then keeps, in whatever order its sort has put them, are candles
    on which all of this holds, and every row [calculate_indicators] makes of
    them, whatever the RSI filter drops, keeps a positive close and low with
    low <= close <= high. *)
Theorem X16_load_data_accepts_valid_candles
  (df df' : list (nat * RawCandle.t Q)) :
  (load_data_checks (map snd df) = None <-> Forall valid_cells (map snd df))
  /\ (load_data_checks (map snd df) = None ->
      Permutation df' df ->
      Forall valid_candle (map snd (dropna df'))
      /\ Forall (fun r => 0 < Row.close r
                          /\ 0 < Row.low r
                          /\ Row.low r <= Row.close r <= Row.high r)
                (map snd (calculate_indicators (dropna df')))).
Proof.
  split; [apply load_data_checks_valid|].
  intros Hok Hperm. apply load_data_checks_valid in Hok.
  assert (Hok' : Forall valid_candle (map snd (dropna df'))).
  { apply dropna_valid.
    eapply Permutation_Forall; [|exact Hok].
    apply Permutation_map, Permutation_sym, Hperm. }
  split; [exact Hok'|].
  apply Forall_forall. intros r Hr.
  apply calculate_indicators_rows in Hr.
  pose proof (indicator_rows_candle Hok') as Hrows.
  rewrite Forall_forall in Hrows. exact (Hrows r Hr).
Qed.

(** * The win rate *)

Lemma win_rate_of_range (w t : nat) :
  (w <= t)%nat -> 0 <= win_rate_of w t <= 100.
Proof.
  intros Hwt. unfold win_rate_of, of_nat. cbn [mul div lit Q_Num].
  destruct (0 <? t)%nat eqn:E; [|split; lra].
  apply Nat.ltb_lt in E.
  assert (Ht : 0 < inject_Z (Z.of_nat t))
    by (change 0 with (inject_Z 0); rewrite <- Zlt_Qlt; lia).
  assert (Hw : 0 <= inject_Z (Z.of_nat w))
    by (change 0 with (inject_Z 0); rewrite <- Zle_Qle; lia).
  assert (Hle : inject_Z (Z.of_nat w) <= inject_Z (Z.of_nat t))
    by (rewrite <- Zle_Qle; lia).
  assert (H0 : 0 <= inject_Z (Z.of_nat w) / inject_Z (Z.of_nat t))
    by (apply Qle_shift_div_l; lra).
  assert (H1 : inject_Z (Z.of_nat w) / inject_Z (Z.of_nat t) <= 1)
    by (apply Qle_shift_div_r; lra).
  split; lra.
Qed.

(** X17.  At every iteration [wins] is at most [trades], and the win rate
    computed from them lies between 0 and 100. *)
Theorem X17_win_rate_between_0_and_100 (k : nat) (df : list (Row.t Q)) :
  (wins (state_after k df) <= trades (state_after k df))%nat
  /\ 0 <= win_rate (state_after k df) <= 100.
Proof.
  destruct (state_after_books k df) as (Ht & Hw & _).
  assert (Hle : (wins (state_after k df) <= trades (state_after k df))%nat)
    by (rewrite Ht, Hw; apply filter_length_le).
  split; [exact Hle | exact (win_rate_of_range Hle)].
Qed.

(** * Properties of the validation of the fetched candles *)

Section FetchedProperties.

Context {R : Type}.

Local Open Scope Z_scope.

Lemma existsb_timestamp (c : Candle.t R) (l : list (Candle.t R)) :
  existsb (fun c' => Candle.timestamp c' =? Candle.timestamp c) l = true <-> In (Candle.timestamp c) (map (@Candle.timestamp R) l).
Proof.
  rewrite existsb_exists, in_map_iff. split.
  - intros (x & Hx & E). apply Z.eqb_eq in E. exists x. now split.
  - intros (x & E & Hx). exists x. split; [exact Hx | now apply Z.eqb_eq].
Qed.

Lemma drop_duplicates_timestamps (rows : list (Candle.t R)) (t : Z) :
  In t (map (@Candle.timestamp R) (drop_duplicates_last rows)) <-> In t (map (@Candle.timestamp R) rows).
Proof.
  induction rows as [|c rest IH]; cbn [drop_duplicates_last map In];
    [tauto|].
  destruct (existsb _ rest) eqn:E.
  - apply existsb_timestamp in E. rewrite IH. split; [tauto|].
    intros [<-|Hin]; assumption.
  - cbn [map In]. rewrite IH. tauto.
Qed.

Lemma drop_duplicates_NoDup (rows : list (Candle.t R)) :
  NoDup (map (@Candle.timestamp R) (drop_duplicates_last rows)).
Proof.
  induction rows as [|c rest IH]; cbn [drop_duplicates_last map];
    [constructor|].
  destruct (existsb _ rest) eqn:E; [exact IH|].
  cbn [map]. constructor; [|exact IH].
  rewrite drop_duplicates_timestamps. intros Hin.
  apply existsb_timestamp in Hin. congruence.
Qed.

(** A row that is kept is the last of its timestamp. *)
Lemma drop_duplicates_keeps_last (rows : list (Candle.t R)) (c : Candle.t R) :
  In c (drop_duplicates_last rows) ->
  exists l1 l2 : list (Candle.t R),
    rows = l1 ++ c :: l2 /\ ~ In (Candle.timestamp c) (map (@Candle.timestamp R) l2).
Proof.
  induction rows as [|d rest IH]; cbn [drop_duplicates_last]; [intros []|].
  destruct (existsb _ rest) eqn:E.
  - intros Hin. destruct (IH Hin) as (l1 & l2 & -> & Hl2).
    exists (d :: l1), l2. split; [reflexivity | exact Hl2].
  - intros [<-|Hin].
    + exists [], rest. split; [reflexivity|].
      intros Hin. apply existsb_timestamp in Hin. congruence.
    + destruct (IH Hin) as (l1 & l2 & -> & Hl2).
      exists (d :: l1), l2. split; [reflexivity | exact Hl2].
Qed.

Lemma insert_permutation (c : Candle.t R) (l : list (Candle.t R)) :
  Permutation (insert_by_timestamp c l) (c :: l).
Proof.
  induction l as [|d rest IH]; cbn [insert_by_timestamp]; [reflexivity|].
  destruct (Candle.timestamp c <=? Candle.timestamp d); [reflexivity|].
  rewrite IH. apply perm_swap.
Qed.

Lemma sort_values_permutation (rows : list (Candle.t R)) :
  Permutation (sort_values rows) rows.
Proof.
  unfold sort_values.
  induction rows as [|c rest IH]; cbn [fold_right]; [reflexivity|].
  rewrite insert_permutation. now constructor.
Qed.

Lemma insert_sorted (c : Candle.t R) (l : list (Candle.t R)) :
  StronglySorted earlier l ->
  ~ In (Candle.timestamp c) (map (@Candle.timestamp R) l) ->
  StronglySorted earlier (insert_by_timestamp c l).
Proof.
  induction l as [|d rest IH]; cbn [insert_by_timestamp map In];
    intros Hs Hnew.
  - constructor; constructor.
  - apply StronglySorted_inv in Hs. destruct Hs as [Hs Hd].
    destruct (Z.leb_spec (Candle.timestamp c) (Candle.timestamp d)) as [Hle|Hgt].
    + assert (Hcd : earlier c d) by (unfold earlier; lia).
      constructor; [constructor; assumption|].
      constructor; [exact Hcd|].
      eapply Forall_impl; [|exact Hd]. unfold earlier in *. intros x Hx. lia.
    + constructor; [apply IH; [exact Hs | tauto]|].
      rewrite (insert_permutation c rest).
      constructor; [unfold earlier; lia | exact Hd].
Qed.

Lemma sort_values_sorted (rows : list (Candle.t R)) :
  NoDup (map (@Candle.timestamp R) rows) -> StronglySorted earlier (sort_values rows).
Proof.
  unfold sort_values.
  induction rows as [|c rest IH]; cbn [fold_right map]; intros Hnd;
    [constructor|].
  apply NoDup_cons_iff in Hnd. destruct Hnd as [Hc Hnd].
  apply insert_sorted; [exact (IH Hnd)|].
  intros Hin. apply Hc.
  apply (Permutation_in _ (Permutation_map (@Candle.timestamp R) (sort_values_permutation rest))).
  exact Hin.
Qed.

(** Two frames with the same rows, both in strictly increasing order of
    timestamp, are the same frame. *)
Lemma sorted_permutation_unique (l : list (Candle.t R)) :
  forall l' : list (Candle.t R),
    StronglySorted earlier l -> StronglySorted earlier l' ->
    Permutation l l' -> l = l'.
Proof.
  induction l as [|a l1 IH]; intros l' Hs Hs' Hp.
  - apply Permutation_nil in Hp. now subst.
  - destruct l' as [|b l1'];
      [apply Permutation_sym, Permutation_nil in Hp; discriminate|].
    apply StronglySorted_inv in Hs. destruct Hs as [Hs Ha].
    apply StronglySorted_inv in Hs'. destruct Hs' as [Hs' Hb].
    rewrite Forall_forall in Ha, Hb.
    assert (Hab : a = b).
    { assert (Hina : In a (b :: l1'))
        by (apply (Permutation_in _ Hp); now left).
      assert (Hinb : In b (a :: l1))
        by (apply (Permutation_in _ (Permutation_sym Hp)); now left).
      destruct Hina as [E|Hina]; [now symmetry|].
      destruct Hinb as [E|Hinb]; [exact E|].
      specialize (Ha b Hinb). specialize (Hb a Hina).
      unfold earlier in *. lia. }
    subst b. f_equal. apply IH; try assumption.
    exact (Permutation_cons_inv Hp).
Qed.

(** X18.  The candles the fetch script saves, when any were fetched, stand
    in strictly increasing order of timestamp; their timestamps are those
    fetched, each once; and each saved candle is the last one fetched with
    its timestamp. *)
Theorem X18_saved_candles_sorted_and_unique (all_ohlcv out : list (Candle.t R)) :
  validate_fetched all_ohlcv = Some out ->
  StronglySorted earlier out
  /\ (forall t : Z, In t (map (@Candle.timestamp R) out) <-> In t (map (@Candle.timestamp R) all_ohlcv))
  /\ Forall (fun c => exists l1 l2 : list (Candle.t R),
                        all_ohlcv = l1 ++ c :: l2 /\ ~ In (Candle.timestamp c) (map (@Candle.timestamp R) l2))
            out.
Proof.
  unfold validate_fetched. destruct all_ohlcv as [|c0 rest]; [discriminate|].
  intros [= <-]. set (rows := c0 :: rest).
  pose proof (sort_values_permutation (drop_duplicates_last rows)) as Hp.
  split; [exact (sort_values_sorted _ (drop_duplicates_NoDup rows))|]. split.
  - intros t. rewrite <- (drop_duplicates_timestamps rows). split.
    + apply Permutation_in, Permutation_map, Hp.
    + apply Permutation_in, Permutation_map, Permutation_sym, Hp.
  - apply Forall_forall. intros c Hc.
    apply (drop_duplicates_keeps_last rows). exact (Permutation_in _ Hp Hc).
Qed.

(** X19.  The order of the saved candles does not depend on how pandas
    sorts: any frame made of the rows left by [drop_duplicates], in strictly
    increasing order of timestamp, is the frame saved. *)
Theorem X19_sorted_frame_is_unique (all_ohlcv out sorted : list (Candle.t R)) :
  validate_fetched all_ohlcv = Some out ->
  Permutation sorted (drop_duplicates_last all_ohlcv) ->
  StronglySorted earlier sorted ->
  sorted = out.
Proof.
  unfold validate_fetched. destruct all_ohlcv as [|c0 rest]; [discriminate|].
  intros [= <-] Hp Hs. set (rows := c0 :: rest) in *.
  apply sorted_permutation_unique; [exact Hs| |].
  - exact (sort_values_sorted _ (drop_duplicates_NoDup rows)).
  - rewrite Hp. symmetry. exact (sort_values_permutation _).
Qed.

End FetchedProperties.

(** * The further theorems at sample inputs *)

(** X2 on [sold_frame], which closes one trade, and on a frame that closes
    none. *)
Lemma X2_analysis_matches_run_witness :
  trade_history (final_state sold_frame) <> []
  /\ analyze_trades (trade_history_csv (snd (run_backtest no_files sold_frame)))
     = Some (Summary.mk 1 0 1 (win_rate (final_state sold_frame)))
  /\ trade_history (final_state [warmup; quiet_signal]) = []
  /\ analyze_trades
       (trade_history_csv
          (snd (run_backtest (snd (run_backtest no_files sold_frame))
                             [warmup; quiet_signal])))
     = analyze_trades
         (trade_history_csv (snd (run_backtest no_files sold_frame))).
Proof.
  assert (Hne : trade_history (final_state sold_frame) <> [])
    by (vm_compute; discriminate).
  assert (He : trade_history (final_state [warmup; quiet_signal]) = [])
    by (vm_compute; reflexivity).
  split; [exact Hne|].
  split; [exact (proj1 (X2_analysis_matches_run no_files sold_frame) Hne)|].
  split; [exact He|].
  exact (proj2 (X2_analysis_matches_run
                  (snd (run_backtest no_files sold_frame))
                  [warmup; quiet_signal]) He).
Defined.

(** X7 on [sold_frame]. *)
Lemma X7_stop_loss_trades_lose_witness :
  Forall (fun r => 0 < Row.close r) sold_frame
  /\ map (@Trade.exit_type Q) (trade_history (state_after 2 sold_frame))
     = [StopLoss]
  /\ Forall (fun t => Trade.exit_type t = StopLoss ->
                      Trade.profit_loss t < 0 /\ Trade.win_loss t = Loss)
            (trade_history (state_after 2 sold_frame)).
Proof.
  assert (Hpos : Forall (fun r => 0 < Row.close r) sold_frame)
    by (repeat constructor).
  split; [exact Hpos|]. split; [vm_compute; reflexivity|].
  exact (X7_stop_loss_trades_lose 2 Hpos).
Defined.

(** X8 on [tight_frame], whose take-profit is a loss, and on [won_frame],
    whose take-profit is a win. *)
Lemma X8_take_profit_win_condition_witness :
  (Forall (fun r => 0 < Row.close r) tight_frame
   /\ Forall (fun r => 0 < Row.close r) won_frame)
  /\ (map (fun t => (Trade.exit_type t, Trade.win_loss t))
          (trade_history (state_after 1 tight_frame))
      = [(TakeProfit, Loss)]
      /\ map (fun t => (Trade.exit_type t, Trade.win_loss t))
             (trade_history (state_after 2 won_frame))
         = [(TakeProfit, Win)])
  /\ Forall (fun t => Trade.exit_type t = TakeProfit ->
                      exists r0 : Row.t Q,
                        In r0 tight_frame
                        /\ Row.atr r0 = Some (Trade.atr_at_entry t)
                        /\ Trade.entry_price t = entry_price_at (Row.close r0)
                        /\ (0.000301 * Row.close r0 <= Trade.atr_at_entry t ->
                            0 < Trade.profit_loss t /\ Trade.win_loss t = Win)
                        /\ (Trade.atr_at_entry t <= 0.0003 * Row.close r0 ->
                            Trade.profit_loss t < 0
                            /\ Trade.win_loss t = Loss))
            (trade_history (state_after 1 tight_frame))
  /\ Forall (fun t => Trade.exit_type t = TakeProfit ->
                      exists r0 : Row.t Q,
                        In r0 won_frame
                        /\ Row.atr r0 = Some (Trade.atr_at_entry t)
                        /\ Trade.entry_price t = entry_price_at (Row.close r0)
                        /\ (0.000301 * Row.close r0 <= Trade.atr_at_entry t ->
                            0 < Trade.profit_loss t /\ Trade.win_loss t = Win)
                        /\ (Trade.atr_at_entry t <= 0.0003 * Row.close r0 ->
                            Trade.profit_loss t < 0
                            /\ Trade.win_loss t = Loss))
            (trade_history (state_after 2 won_frame)).
Proof.
  assert (Hpos : Forall (fun r => 0 < Row.close r) tight_frame)
    by (repeat constructor).
  assert (Hpos' : Forall (fun r => 0 < Row.close r) won_frame)
    by (repeat constructor).
  split; [split; [exact Hpos | exact Hpos']|].
  split; [split; vm_compute; reflexivity|].
  split; [exact (X8_take_profit_win_condition 1 Hpos)
         | exact (X8_take_profit_win_condition 2 Hpos')].
Defined.

(** X9 on [dear_signal]: 9.995 is asked of a balance of 10, and 10.0025
    taken. *)
Lemma X9_accepted_entry_can_overdraw_witness :
  positions (entry_state (check_entry 1 dear_signal 10 0 0 0 1 1 init_state))
  <> positions (@init_state Q _)
  /\ balance (entry_state (check_entry 1 dear_signal 10 0 0 0 1 1 init_state))
     < 0.
Proof.
  assert (Hnew : positions (entry_state
                              (check_entry 1 dear_signal 10 0 0 0 1 1
                                           init_state))
                 <> positions (@init_state Q _))
    by (vm_compute; discriminate).
  split; [exact Hnew|].
  apply (proj2 (proj2 (proj2
           (X9_accepted_entry_can_overdraw 1 dear_signal 10 0 0 0 1 1
              init_state Hnew)))).
  vm_compute. reflexivity.
Defined.

(** X11 and X13 on twenty rising closes, at row 13. *)
Lemma X11_indicator_warm_up_witness :
  nth_error (indicator_rows (map snd (candles_at rising_closes))) 13
  = Some (nth 13 (indicator_rows (map snd (candles_at rising_closes))) warmup)
  /\ Row.rsi (nth 13 (indicator_rows (map snd (candles_at rising_closes)))
                  warmup) <> None
  /\ Row.volume_sma
       (nth 13 (indicator_rows (map snd (candles_at rising_closes))) warmup)
     = None.
Proof.
  assert (Hr : nth_error (indicator_rows (map snd (candles_at rising_closes)))
                         13
               = Some (nth 13 (indicator_rows
                                 (map snd (candles_at rising_closes))) warmup))
    by (vm_compute; reflexivity).
  destruct (X11_indicator_warm_up _ _ Hr) as (Hrsi & _ & Hv & _).
  split; [exact Hr|]. split.
  - intros Hnone. apply Hrsi in Hnone. lia.
  - apply Hv. lia.
Defined.

Lemma X13_indicator_ranges_witness :
  nth_error (indicator_rows (map snd (candles_at rising_closes))) 13
  = Some (nth 13 (indicator_rows (map snd (candles_at rising_closes))) warmup)
  /\ Forall (fun c => Candle.low c <= Candle.high c)
            (map snd (candles_at rising_closes))
  /\ (forall v : Q,
        Row.rsi (nth 13 (indicator_rows (map snd (candles_at rising_closes)))
                     warmup) = Some v -> 0 <= v < 100)
  /\ (forall a : Q,
        Row.atr (nth 13 (indicator_rows (map snd (candles_at rising_closes)))
                     warmup) = Some a -> 0 <= a).
Proof.
  assert (Hr : nth_error (indicator_rows (map snd (candles_at rising_closes)))
                         13
               = Some (nth 13 (indicator_rows
                                 (map snd (candles_at rising_closes))) warmup))
    by (vm_compute; reflexivity).
  assert (Hv : Forall (fun c => Candle.low c <= Candle.high c)
                      (map snd (candles_at rising_closes)))
    by (repeat constructor; vm_compute; discriminate).
  destruct (X13_indicator_ranges _ _ Hr) as [Hrsi Hatr].
  split; [exact Hr|]. split; [exact Hv|].
  split; [exact Hrsi | exact (Hatr Hv)].
Defined.

(** X12 on the first nineteen of the rising closes. *)
Lemma X12_short_frame_never_trades_witness :
  (length (candles_at (firstn 19 rising_closes)) <= 19)%nat
  /\ backtest_candles no_files (candles_at (firstn 19 rising_closes))
     = ((initial_balance, []), mk_files [] None).
Proof.
  assert (Hlen : (length (candles_at (firstn 19 rising_closes)) <= 19)%nat)
    by (vm_compute; lia).
  split; [exact Hlen|].
  exact (X12_short_frame_never_trades no_files _ Hlen).
Defined.

(** X14 on twenty falling closes. *)
Lemma X14_non_rising_closes_empty_frame_witness :
  (14 <= length (candles_at falling_closes))%nat
  /\ non_rising (map (@Candle.close Q) (map snd (candles_at falling_closes)))
  /\ calculate_indicators (candles_at falling_closes) = [].
Proof.
  assert (Hlen : (14 <= length (candles_at falling_closes))%nat)
    by (vm_compute; lia).
  assert (Hnr : non_rising (map (@Candle.close Q)
                                (map snd (candles_at falling_closes))))
    by (cbv; repeat split; discriminate).
  split; [exact Hlen|]. split; [exact Hnr|].
  exact (X14_non_rising_closes_empty_frame _ Hlen Hnr).
Defined.

(** X15 on closes between 100 and 102. *)
Lemma X15_macd_within_price_band_witness :
  Forall (fun c => 100 <= Candle.close c <= 102)
         (map snd (candles_at [100; 101; 102; 101]))
  /\ nth_error (indicator_rows (map snd (candles_at [100; 101; 102; 101]))) 2
     = Some (nth 2 (indicator_rows (map snd (candles_at [100; 101; 102; 101])))
                 warmup)
  /\ 102 - 100 < 2.5
  /\ (forall h : Q,
        Row.hist (nth 2 (indicator_rows
                           (map snd (candles_at [100; 101; 102; 101])))
                      warmup) = Some h ->
        ltb min_hist_threshold h = true).
Proof.
  assert (Hband : Forall (fun c => 100 <= Candle.close c <= 102)
                         (map snd (candles_at [100; 101; 102; 101])))
    by (repeat constructor; vm_compute; discriminate).
  assert (Hr : nth_error (indicator_rows
                            (map snd (candles_at [100; 101; 102; 101]))) 2
               = Some (nth 2 (indicator_rows
                                (map snd (candles_at [100; 101; 102; 101])))
                           warmup))
    by (vm_compute; reflexivity).
  assert (Hw : 102 - 100 < 2.5) by (vm_compute; reflexivity).
  split; [exact Hband|]. split; [exact Hr|]. split; [exact Hw|].
  exact (proj2 (proj2 (proj2 (X15_macd_within_price_band 2 Hband Hr))) Hw).
Defined.

(** X16 on [blank_sample]: the frame is returned with its two blank cells,
    and [dropna] keeps the twenty rows without one. *)
Lemma X16_load_data_accepts_valid_candles_witness :
  load_data_checks (map snd blank_sample) = None
  /\ dropna blank_sample = candles_at rising_closes
  /\ Forall valid_cells (map snd blank_sample)
  /\ Forall valid_candle (map snd (dropna blank_sample))
  /\ Forall (fun r => 0 < Row.close r
                      /\ 0 < Row.low r
                      /\ Row.low r <= Row.close r <= Row.high r)
            (map snd (calculate_indicators (dropna blank_sample))).
Proof.
  assert (Hok : load_data_checks (map snd blank_sample) = None)
    by (vm_compute; reflexivity).
  destruct (X16_load_data_accepts_valid_candles blank_sample blank_sample)
    as [Hiff Hrows].
  split; [exact Hok|].
  split; [vm_compute; reflexivity|].
  split; [exact (proj1 Hiff Hok)|].
  exact (Hrows Hok (Permutation_refl blank_sample)).
Defined.

(** X18 and X19 on [fetched_sample]. *)
Lemma X18_saved_candles_sorted_and_unique_witness :
  validate_fetched fetched_sample
  = Some [Candle.mk 0 99 100 98 100 2; Candle.mk 300000 100 101 99 100 2;
          Candle.mk 600000 100 102 99 101 3]
  /\ StronglySorted earlier
       [Candle.mk 0 99 100 98 100 2; Candle.mk 300000 100 101 99 100 2;
        Candle.mk 600000 100 102 99 101 3].
Proof.
  assert (Hv : validate_fetched fetched_sample
               = Some [Candle.mk 0 99 100 98 100 2;
                       Candle.mk 300000 100 101 99 100 2;
                       Candle.mk 600000 100 102 99 101 3])
    by (vm_compute; reflexivity).
  split; [exact Hv|].
  exact (proj1 (X18_saved_candles_sorted_and_unique _ Hv)).
Defined.

Lemma X19_sorted_frame_is_unique_witness :
  validate_fetched fetched_sample
  = Some (sort_values (drop_duplicates_last fetched_sample))
  /\ Permutation
       [Candle.mk 0 99 100 98 100 2; Candle.mk 300000 100 101 99 100 2;
        Candle.mk 600000 100 102 99 101 3]
       (drop_duplicates_last fetched_sample)
  /\ StronglySorted earlier
       [Candle.mk 0 99 100 98 100 2; Candle.mk 300000 100 101 99 100 2;
        Candle.mk 600000 100 102 99 101 3]
  /\ [Candle.mk 0 99 100 98 100 2; Candle.mk 300000 100 101 99 100 2;
      Candle.mk 600000 100 102 99 101 3]
     = sort_values (drop_duplicates_last fetched_sample).
Proof.
  assert (Hv : validate_fetched fetched_sample
               = Some (sort_values (drop_duplicates_last fetched_sample)))
    by reflexivity.
  assert (Hp : Permutation
                 [Candle.mk 0 99 100 98 100 2;
                  Candle.mk 300000 100 101 99 100 2;
                  Candle.mk 600000 100 102 99 101 3]
                 (drop_duplicates_last fetched_sample))
    by (exact (Permutation_cons_append
                 [Candle.mk 300000 100 101 99 100 2;
                  Candle.mk 600000 100 102 99 101 3]
                 (Candle.mk 0 99 100 98 100 2))).
  assert (Hs : StronglySorted earlier
                 [Candle.mk 0 99 100 98 100 2;
                  Candle.mk 300000 100 101 99 100 2;
                  Candle.mk 600000 100 102 99 101 3])
    by (repeat constructor; unfold earlier; cbn; lia).
  split; [exact Hv|]. split; [exact Hp|]. split; [exact Hs|].
  exact (X19_sorted_frame_is_unique _ Hv Hp Hs).
Defined.

(** C2 on [two_stops_frame]: with two positions open the asset balance is
    0.02 + 0.016, and after the close of the first it is the 0.016 of the
    position that is left. *)
Lemma C2_sol_balance_is_sum_of_open_sizes_witness :
  (length (positions (state_after 2 two_stops_frame)) = 2%nat
   /\ sol_balance (state_after 2 two_stops_frame) == 0.036)
  /\ (length (positions (state_after 3 two_stops_frame)) = 1%nat
      /\ length (trade_history (state_after 3 two_stops_frame)) = 1%nat
      /\ sol_balance (state_after 3 two_stops_frame) == 0.016).
Proof.
  split; [split; [reflexivity|] | split; [reflexivity | split; [reflexivity|]]].
  - rewrite (proj1 (@C2_sol_balance_is_sum_of_open_sizes Q Q_Num)
               2%nat two_stops_frame).
    vm_compute. reflexivity.
  - rewrite (proj1 (@C2_sol_balance_is_sum_of_open_sizes Q Q_Num)
               3%nat two_stops_frame).
    vm_compute. reflexivity.
Defined.

(** C5 (amended) on [dip_signal], on [skipping_frame] with a wall-clock gap
    and on the exit checks of the entry on [quiet_signal]. *)
Lemma C5_candles_held_is_index_distance_witness :
  (In (sample_close dip_signal)
      (closed_in_step 1 dip_signal (entered_on dip_signal))
   /\ Trade.candles_held (snd (sample_close dip_signal))
      = (Z.of_nat 1
         - Z.of_nat (Position.entry_index (fst (sample_close dip_signal))))%Z)
  /\ (forall a b : Z, gap a = gap b -> a = b)
  /\ map (@Trade.candles_held Q)
         (snd (fst (run_backtest no_files (map (retime_row gap) skipping_frame))))
     = map (@Trade.candles_held Q)
           (snd (fst (run_backtest no_files skipping_frame)))
  /\ map (@Position.position_candles Q)
         (positions (state_after 3 (map (retime_row gap) skipping_frame)))
     = map (@Position.position_candles Q)
           (positions (state_after 3 skipping_frame))
  /\ Forall (fun p => exists p0 : Position.t Q,
                        In p0 (positions (entered_on quiet_signal))
                        /\ p = age p0
                        /\ Position.position_candles p
                           = S (Position.position_candles p0))
            (positions (check_exits 1 quiet_signal (entered_on quiet_signal))).
Proof.
  assert (Hin : In (sample_close dip_signal)
                   (closed_in_step 1 dip_signal (entered_on dip_signal)))
    by (vm_compute; left; reflexivity).
  pose proof (@C5_candles_held_is_index_distance Q Q_Num)
    as (Hclose & _ & Hheld & Hchecks & _ & Hcount).
  split; [split; [exact Hin|] | split; [exact gap_injective|]].
  - destruct (sample_close dip_signal) as [pos t].
    exact (proj1 (Hclose 1%nat dip_signal (entered_on dip_signal) pos t Hin)).
  - split; [|split].
    + exact (Hheld gap no_files no_files skipping_frame gap_injective).
    + exact (Hcount gap 3%nat skipping_frame gap_injective).
    + exact (proj2 (proj2 (Hchecks 1%nat quiet_signal
                             (entered_on quiet_signal)))).
Defined.

(** * Hold times, distances and the partial-condition file *)

Section HoldTimes.

Context {R : Type} `{Num R}.

Local Open Scope nat_scope.

Lemma closes_time_exit (j : nat) (r : Row.t R) (pos : Position.t R)
  (t : Trade.t R) :
  closes j r pos t ->
  Trade.candles_held t
  = (Z.of_nat j - Z.of_nat (Position.entry_index pos))%Z
  /\ (Trade.exit_type t = TimeExit ->
      max_hold_candles <= Position.position_candles pos).
Proof.
  intros (ty & px & usdt & sol & Hc & ->).
  cbn [trade_entry Trade.candles_held Trade.exit_type].
  split; [reflexivity|]. intros ->. unfold check_exit in Hc.
  destruct (leb (Row.low r) (Position.stop_loss pos)); [discriminate|].
  destruct (leb (Position.take_profit pos) (Row.high r)); [discriminate|].
  destruct (max_hold_candles <=? Position.position_candles pos) eqn:E;
    [|discriminate].
  now apply Nat.leb_le.
Qed.

(** X20.  A trade is never recorded before its entry row, and a trade closed
    by the time exit records a [candles_held] of at least 59: the counter
    that triggers it at 60 counts the entry candle too, and candles that were
    skipped in between only lengthen the distance. *)
Theorem X20_time_exit_hold (k : nat) (df : list (Row.t R)) :
  Forall (fun t => (0 <= Trade.candles_held t)%Z
                   /\ (Trade.exit_type t = TimeExit ->
                       (59 <= Trade.candles_held t)%Z))
         (trade_history (state_after k df)).
Proof.
  apply Forall_forall. intros t Ht.
  destruct (trade_origin df t k Ht)
    as (j & r & rsi & macd & signal & hist & atr & vsma & s1 & pos
        & _ & Hr & _ & _ & He & Hc).
  destruct (closed_in_step_closes (S j) r s1 pos t Hc) as [Hcl Hp].
  destruct (closes_time_exit Hcl) as [Hheld Htime].
  assert (Hb : Position.entry_index pos <= S j
               /\ Position.position_candles pos
                  <= S (S j) - Position.entry_index pos).
  { apply in_map_iff in Hp. destruct Hp as (p0 & <- & Hp0).
    cbn [age Position.entry_index Position.position_candles].
    pose proof (check_entry_cases (S j) r rsi macd signal hist atr vsma
                  (count_rsi_below rsi (state_after j df))) as Hcases.
    cbv zeta in Hcases. rewrite He in Hcases.
    cbn [entry_state is_rejected] in Hcases.
    assert (Hc' : positions (count_rsi_below rsi (state_after j df))
                  = positions (state_after j df))
      by apply count_rsi_below_ledger.
    rewrite Hc' in Hcases.
    destruct (state_after_positions_entered df j) as [Hent _].
    rewrite Forall_forall in Hent.
    destruct Hcases as [[Hsame _]|(_ & _ & _ & _ & Hnew & _)].
    - rewrite Hsame in Hp0. destruct (Hent p0 Hp0) as (Hi & Hcnt & _). lia.
    - rewrite Hnew in Hp0. apply in_app_or in Hp0.
      destruct Hp0 as [Hp0|[<-|[]]].
      + destruct (Hent p0 Hp0) as (Hi & Hcnt & _). lia.
      + cbn [new_position Position.entry_index Position.position_candles].
        lia. }
  rewrite Hheld. split; [lia|].
  intros Hty. specialize (Htime Hty). unfold max_hold_candles in Htime. lia.
Qed.

Lemma check_exits_partial_file (i : nat) (r : Row.t R) (s : state R) :
  partial_file (check_exits i r s) = partial_file s.
Proof.
  unfold check_exits.
  destruct (exit_loop_spec i r (positions s) s [])
    as (s' & th & -> & _ & _ & _ & _ & _ & Hpf).
  exact Hpf.
Qed.

Lemma step_logged_from (df : list (Row.t R)) (k : nat) (r : Row.t R)
  (s : state R) :
  nth_error df (S k) = Some r ->
  Forall (logged_from df) (partial_file s) ->
  Forall (logged_from df) (partial_file (step (S k) r s)).
Proof.
  intros Hr Hall. unfold step.
  destruct (indicators r) as [[[[[[rsi macd] signal] hist] atr] vsma]|] eqn:Ei;
    [|exact Hall].
  destruct (ltb atr min_atr) eqn:Ea; [exact Hall|].
  assert (Hentry : Forall (logged_from df)
                     (partial_file
                        (entry_state
                           (check_entry (S k) r rsi macd signal hist atr vsma
                                        (count_rsi_below rsi s))))).
  { unfold check_entry, count_rsi_below, log_partial.
    destruct (ltb rsi rsi_oversold) eqn:Ersi;
      cbn [positions partial_condition_count partial_file balance];
      destruct (length (positions s) <? max_positions);
      try destruct (partial_condition_count s <? 1000);
      try destruct (entry_signal r rsi hist vsma);
      cbn [balance];
      try destruct (entry_rejected (balance s) (Row.close r));
      cbn [entry_state open_position partial_file];
      try exact Hall;
      (rewrite Forall_app; split; [exact Hall|]; constructor; [|constructor];
       exists (S k), r, rsi, macd, signal, hist, atr, vsma;
       repeat split; assumption). }
  destruct (check_entry _ _ _ _ _ _ _ _ _) as [s1|s1];
    cbn [entry_state] in Hentry; [exact Hentry|].
  now rewrite check_exits_partial_file.
Qed.

(** X21.  Every line of [partial_conditions.txt] was written for an eligible
    row of the frame whose RSI is under the oversold threshold, and carries
    the timestamp, RSI, MACD, signal and histogram of that row. *)
Theorem X21_partial_lines_from_oversold_rows (k : nat) (df : list (Row.t R)) :
  Forall (logged_from df) (partial_file (state_after k df)).
Proof.
  apply (state_after_invariant_indexed df
           (fun _ s => Forall (logged_from df) (partial_file s))).
  - constructor.
  - intros k' r s Hr Hs. apply step_logged_from; assumption.
  - intros k' s Hs. exact Hs.
Qed.

End HoldTimes.

Lemma stop_distance_sign (c a : Q) :
  (0 < entry_price_at c - stop_loss_at c a <-> 0.00025075 * c < 0.25 * a)
  /\ (entry_price_at c - stop_loss_at c a < 0 <-> 0.25 * a < 0.00025075 * c)
  /\ (0 < c -> 0 <= a -> 0 < take_profit_at c a - entry_price_at c)
  /\ (0 < c -> entry_price_at c < c).
Proof.
  unfold stop_loss_at, take_profit_at, entry_price_at, slippage_factor,
    fee_percent, atr_sl_multiplier, atr_tp_multiplier.
  cbn [mul sub add div lit Q_Num]. rewrite fee_fraction.
  repeat split; intros; lra.
Qed.

(** X22.  On a frame of positive closes the entry price of every trade is
    under the close of its entry row and its [tp_distance] is positive; its
    [sl_distance] is positive when the ATR of that row is at least 0.101 % of
    the close, and negative, the stop lying above the entry price, when that
    ATR is at most 0.1 % of the close. *)
Theorem X22_recorded_distances (k : nat) (df : list (Row.t Q)) :
  Forall (fun r => 0 < Row.close r) df ->
  Forall (fun t => exists r0 : Row.t Q,
                     In r0 df
                     /\ Row.atr r0 = Some (Trade.atr_at_entry t)
                     /\ Trade.entry_price t < Row.close r0
                     /\ 0 < Trade.tp_distance t
                     /\ (0.00101 * Row.close r0 <= Trade.atr_at_entry t ->
                         0 < Trade.sl_distance t)
                     /\ (Trade.atr_at_entry t <= 0.001 * Row.close r0 ->
                         Trade.sl_distance t < 0))
         (trade_history (state_after k df)).
Proof.
  intros Hpos. apply Forall_forall. intros t Ht.
  destruct (trade_made_on df k t Ht) as (j & r & pos & _ & _ & Hm & Hc).
  destruct (made_on_terms Hpos Hm)
    as (r0 & a & Hr0 & Hatr & Hc0 & Ha & _ & He & Hs & Htk & Hat).
  destruct Hc as (ty & px & usdt & sol & _ & ->).
  cbn [trade_entry Trade.atr_at_entry Trade.entry_price Trade.tp_distance
       Trade.sl_distance].
  destruct (stop_distance_sign (Row.close r0) a) as (Hsl & Hsl' & Htp & Hep).
  exists r0. rewrite Hat, He, Hs, Htk. cbn [sub Q_Num].
  split; [eapply nth_error_In; exact Hr0|].
  split; [exact Hatr|]. split; [exact (Hep Hc0)|].
  split; [apply Htp; lra|].
  split; intros Hatr'; [apply Hsl | apply Hsl']; lra.
Qed.

(** X20 to X22 at sample inputs. *)
Lemma X22_recorded_distances_witness :
  Forall (fun r => 0 < Row.close r) tight_frame
  /\ Forall (fun t => Trade.sl_distance t < 0)
            (trade_history (state_after 1 tight_frame))
  /\ Forall (fun t => exists r0 : Row.t Q,
                        In r0 tight_frame
                        /\ Row.atr r0 = Some (Trade.atr_at_entry t)
                        /\ Trade.entry_price t < Row.close r0
                        /\ 0 < Trade.tp_distance t
                        /\ (0.00101 * Row.close r0 <= Trade.atr_at_entry t ->
                            0 < Trade.sl_distance t)
                        /\ (Trade.atr_at_entry t <= 0.001 * Row.close r0 ->
                            Trade.sl_distance t < 0))
            (trade_history (state_after 1 tight_frame)).
Proof.
  assert (Hpos : Forall (fun r => 0 < Row.close r) tight_frame)
    by (repeat constructor).
  split; [exact Hpos|].
  split; [repeat constructor; vm_compute; reflexivity|].
  exact (X22_recorded_distances 1 Hpos).
Defined.

Lemma X20_time_exit_hold_witness :
  map (fun t => (Trade.exit_type t, Trade.candles_held t))
      (trade_history (state_after 60 holding_frame))
  = [(TimeExit, 59%Z)]
  /\ Forall (fun t => (0 <= Trade.candles_held t)%Z
                      /\ (Trade.exit_type t = TimeExit ->
                          (59 <= Trade.candles_held t)%Z))
            (trade_history (state_after 60 holding_frame)).
Proof.
  split; [vm_compute; reflexivity|].
  exact (X20_time_exit_hold 60 holding_frame).
Defined.
